(** * KERNL: semantic indexing and retrieval

    A shallow embedding of the semantic-search core of the KERNL tool server,
    and the properties of it that its specification states.

    The program:
    - [Codec]      the vector codec of [intelligence/embeddings.ts]
                   ([serializeEmbedding], [deserializeEmbedding]) over typed-array
                   views of byte buffers;
    - [JS]         the JS built-ins the code calls ([slice], [sort],
                   [Math.round], [endsWith], truthiness);
    - [Embeddings] [cosineSimilarity] and [findSimilar] of the same file;
    - [Binary64]   the value [cosineSimilarity] computes, in binary64;
    - [ModelInit]  its lazy model initialisation, as a transition system;
    - [Database]   the rows and the file-index / pattern operations of
                   [storage/database.ts], with its own [cosineSimilarity];
    - [Tools]      the handlers [search_semantic], [pm_index_files],
                   [pm_index_file] ([tools/semantic-search.ts]) and
                   [suggest_patterns] (pattern-recognition tools), in a monad of
                   worlds and thrown errors;
    - [Demo]       a small concrete world to run them in;
    - [Discovery]  [findTextFiles] over a directory tree.

    The proofs: [CodecFacts], [JSFacts], [EmbeddingsFacts], [ModelInitFacts],
    [VectorFacts], [ToolsFacts], then the properties themselves in
    [Retrieval], [Indexing], [Vectors] and [Initialisation].

    Numbers.  A float32 element is its 32-bit pattern (a [Z] below [2^32]).
    The JS number read from it is a binary64 value ([Binary64.f32_double]),
    and [cosineSimilarity] of database.ts and of embeddings.ts are computed
    in binary64 ([Database.cosineSimilarity], [Binary64.cosineSimilarity]).
    The ranking code ([findSimilar] and the handlers built on it) only
    compares scores: there the score is idealised as the exact rational
    value of the same formula ([Embeddings.cosineSimilarity]), and what is
    proved of it concerns order, thresholds and counts, not the value. *)

From Stdlib Require Import ZArith QArith Qround Lia Psatz.
From Stdlib Require Import Floats.
From Stdlib Require Import List String Ascii Bool Arith DecimalString Sorted.
From Stdlib.Strings Require Import Byte.
Import ListNotations.

Set Implicit Arguments.

(* ================================================================== *)
(** * Results of fallible code *)
(* ================================================================== *)

(** A JS computation either returns a value or throws an [Error] carrying a
    message. *)
Inductive result (A : Type) : Type :=
| Ok (a : A)
| Throw (message : string).

Arguments Ok {A} a.
Arguments Throw {A} message.

Definition rbind {A B} (r : result A) (k : A -> result B) : result B :=
  match r with
  | Ok a => k a
  | Throw m => Throw m
  end.

(** [Array.prototype.map] with a callback that may throw: elements are visited
    left to right and the first exception leaves the map. *)
Fixpoint map_result {A B} (f : A -> result B) (l : list A) : result (list B) :=
  match l with
  | [] => Ok []
  | x :: xs =>
      rbind (f x) (fun y => rbind (map_result f xs) (fun ys => Ok (y :: ys)))
  end.

Definition nat_to_string (n : nat) : string :=
  NilEmpty.string_of_uint (Nat.to_uint n).

(* ================================================================== *)
(** * The vector codec *)
(* ================================================================== *)

Module Codec.

Local Open Scope Z_scope.

(** An [ArrayBuffer] is a sequence of bytes.  A Node [Buffer] and a
    [Float32Array] are views on one: the buffer, a byte offset and a length
    counted in elements (bytes for [Buffer], 4-byte floats for
    [Float32Array]). *)
Definition ArrayBuffer := list byte.

Record Buffer : Type := mkBuffer {
  buf_buffer : ArrayBuffer;
  buf_byteOffset : nat;
  buf_length : nat
}.

Record Float32Array : Type := mkFloat32Array {
  f32_buffer : ArrayBuffer;
  f32_byteOffset : nat;
  f32_length : nat
}.

(** A float32 value is its IEEE-754 binary32 bit pattern. *)
Definition is_f32 (w : Z) : Prop := 0 <= w < 2 ^ 32.

Definition Z_of_byte (b : byte) : Z := Z.of_N (Byte.to_N b).

Definition byte_of_Z (z : Z) : byte :=
  match Byte.of_N (Z.to_N z) with
  | Some b => b
  | None => x00
  end.

(** Little-endian storage of one element, as typed arrays lay it out on the
    platforms Node runs on. *)
Definition f32_to_bytes (w : Z) : list byte :=
  [ byte_of_Z (Z.land w 255);
    byte_of_Z (Z.land (Z.shiftr w 8) 255);
    byte_of_Z (Z.land (Z.shiftr w 16) 255);
    byte_of_Z (Z.land (Z.shiftr w 24) 255) ].

Definition f32_of_bytes (b0 b1 b2 b3 : byte) : Z :=
  Z.lor (Z_of_byte b0)
    (Z.lor (Z.shiftl (Z_of_byte b1) 8)
       (Z.lor (Z.shiftl (Z_of_byte b2) 16) (Z.shiftl (Z_of_byte b3) 24))).

(** Reading [n] consecutive elements from a byte sequence. *)
Fixpoint read_f32s (n : nat) (bs : list byte) : list Z :=
  match n, bs with
  | S n', b0 :: b1 :: b2 :: b3 :: rest =>
      f32_of_bytes b0 b1 b2 b3 :: read_f32s n' rest
  | _, _ => []
  end.

(** The elements [a[0]], ..., [a[length-1]] of a view. *)
Definition f32_elems (a : Float32Array) : list Z :=
  read_f32s (f32_length a) (skipn (f32_byteOffset a) (f32_buffer a)).

(** [new Float32Array(values)]: a fresh array owning a buffer of exactly its
    elements.  This is how [embed] builds every embedding
    ([new Float32Array(output.data)]). *)
Definition new_Float32Array (values : list Z) : Float32Array :=
  {| f32_buffer := flat_map f32_to_bytes values;
     f32_byteOffset := 0;
     f32_length := List.length values |}.

(** [new Float32Array(buffer, byteOffset, length)]: a view; the constructor
    throws a [RangeError] on a misaligned offset or when the view would leave
    the buffer. *)
Definition new_Float32Array_view (ab : ArrayBuffer) (byteOffset len : nat)
  : result Float32Array :=
  if negb (Nat.eqb (Nat.modulo byteOffset 4) 0) then
    Throw "start offset of Float32Array should be a multiple of 4"
  else if Nat.ltb (List.length ab) (byteOffset + 4 * len) then
    Throw ("Invalid typed array length: " ++ nat_to_string len)
  else
    Ok {| f32_buffer := ab; f32_byteOffset := byteOffset; f32_length := len |}.

(** [serializeEmbedding]: [Buffer.from(embedding.buffer)], a byte view of the
    whole underlying buffer of the array. *)
Definition serializeEmbedding (embedding : Float32Array) : Buffer :=
  {| buf_buffer := f32_buffer embedding;
     buf_byteOffset := 0;
     buf_length := List.length (f32_buffer embedding) |}.

(** [deserializeEmbedding]:
    [new Float32Array(buffer.buffer, buffer.byteOffset, buffer.length / 4)];
    a fractional length is truncated by the constructor. *)
Definition deserializeEmbedding (buffer : Buffer) : result Float32Array :=
  new_Float32Array_view (buf_buffer buffer) (buf_byteOffset buffer)
    (Nat.div (buf_length buffer) 4).

End Codec.

(* ================================================================== *)
(** * JS numbers and array helpers *)
(* ================================================================== *)

Module JS.

Local Open Scope Q_scope.

(** [ToIntegerOrInfinity] on a finite number: truncation toward zero. *)
Definition to_integer (q : Q) : Z := Z.quot (Qnum q) (Zpos (Qden q)).

(** [arr.slice(0, end)]: a negative [end] counts from the end of the
    array. *)
Definition slice0 {A} (l : list A) (limit : Q) : list A :=
  let k := to_integer limit in
  if (k <? 0)%Z then firstn (List.length l - Z.to_nat (- k)) l
  else firstn (Z.to_nat k) l.

(** [Math.round]: the nearest integer, halves going up. *)
Definition Math_round (x : Q) : Z := Qfloor (x + (1 # 2)).

(** [Math.round(x * 100) / 100]. *)
Definition round2 (x : Q) : Q := inject_Z (Math_round (x * 100)) / 100.

(** [s.endsWith(suffix)]. *)
Definition endsWith (s suffix : string) : bool :=
  let n := String.length s in
  let m := String.length suffix in
  Nat.leb m n && String.eqb (substring (n - m) m s) suffix.

(** [s.substring(0, n)] and [s.slice(0, n)] for a non-negative [n]. *)
Definition prefix_of (n : nat) (s : string) : string := substring 0 n s.


(** [Array.prototype.sort(compare)] is stable: an element moves in front of
    another only when [compare] puts it strictly first.  [before x y] says
    that [x], met earlier, stays in front of [y]. *)
Fixpoint insert_by {A} (before : A -> A -> bool) (x : A) (l : list A) : list A :=
  match l with
  | [] => [x]
  | y :: ys =>
      if before x y then x :: y :: ys else y :: insert_by before x ys
  end.

Definition sort_by {A} (before : A -> A -> bool) (l : list A) : list A :=
  fold_right (insert_by before) [] l.

(** JS truthiness of a string: the empty string is falsy. *)
Definition truthy (s : string) : bool := negb (String.eqb s "").

End JS.

(* ================================================================== *)
(** * intelligence/embeddings.ts: similarity and ranking *)
(* ================================================================== *)

Module Embeddings.

Import Codec.
Local Open Scope Q_scope.

(** The JS number read from a [Float32Array] element: the value of the
    binary32 pattern (sign bit 31, exponent bits 30..23, fraction bits
    22..0).  Patterns with exponent 255 (infinities, NaN) denote no rational
    and are read as 0 here. *)
Definition f32_number (w : Z) : Q :=
  let e := Z.land (Z.shiftr w 23) 255 in
  let m := Z.land w 8388607 in
  let magnitude : Q :=
    if (e =? 255)%Z then 0
    else if (e =? 0)%Z then Qmake m (2 ^ 149)
    else if (150 <=? e)%Z then inject_Z ((8388608 + m) * 2 ^ (e - 150))
    else Qmake (8388608 + m) (Z.to_pos (2 ^ (150 - e))) in
  if Z.testbit w 31 then - magnitude else magnitude.

Definition numbers (a : Float32Array) : list Q :=
  map f32_number (f32_elems a).

(** The loop
    [for (i = 0; i < a.length; i++) dotProduct += (a[i] ?? 0) * (b[i] ?? 0)],
    run over the elements of the two arrays, which have the same length when
    the loop is reached. *)
Fixpoint dot_loop (dotProduct : Q) (xs ys : list Q) : Q :=
  match xs, ys with
  | x :: xs', y :: ys' => dot_loop (dotProduct + x * y) xs' ys'
  | _, _ => dotProduct
  end.

(** [cosineSimilarity] of embeddings.ts: throws on a dimension mismatch,
    otherwise the raw dot product ("since embeddings are normalized, dot
    product = cosine similarity").  The score is idealised here as an exact
    rational, for the ranking code, which only compares scores; the value
    the code computes is [Binary64.cosineSimilarity]. *)
Definition cosineSimilarity (a b : Float32Array) : result Q :=
  if negb (Nat.eqb (f32_length a) (f32_length b)) then
    Throw ("Embedding dimensions don't match: "
             ++ nat_to_string (f32_length a) ++ " vs "
             ++ nat_to_string (f32_length b))
  else Ok (dot_loop 0 (numbers a) (numbers b)).

Record Candidate (Id : Type) : Type := mkCandidate {
  cand_id : Id;
  cand_embedding : Float32Array
}.

Record Match (Id : Type) : Type := mkMatch {
  match_id : Id;
  similarity : Q
}.

(** [sort((a, b) => b.similarity - a.similarity)]: stable, by decreasing
    similarity. *)
Definition sort_desc {Id} (l : list (Match Id)) : list (Match Id) :=
  JS.sort_by (fun x y => Qle_bool (similarity y) (similarity x)) l.

(** [findSimilar]: score every candidate, keep the scores at or above the
    threshold, sort by decreasing score, keep the first [limit]. *)
Definition findSimilar {Id} (queryEmbedding : Float32Array)
    (candidates : list (Candidate Id)) (limit : Q) (minSimilarity : Q)
  : result (list (Match Id)) :=
  rbind
    (map_result
       (fun candidate =>
          rbind (cosineSimilarity queryEmbedding (cand_embedding candidate))
            (fun s => Ok {| match_id := cand_id candidate; similarity := s |}))
       candidates)
    (fun scored =>
       Ok (JS.slice0
             (sort_desc
                (filter (fun r => Qle_bool minSimilarity (similarity r)) scored))
             limit)).

End Embeddings.

(* ================================================================== *)
(** * intelligence/embeddings.ts: the score in binary64 *)
(* ================================================================== *)

Module Binary64.

Import Codec.

(** The JS number read from a [Float32Array] element: the binary64 value of
    the binary32 pattern (sign bit 31, exponent bits 30..23, fraction bits
    22..0); the conversion is exact.  Exponent 255 is an infinity (fraction
    0) or NaN. *)
Definition f32_double (w : Z) : float :=
  let e := Z.land (Z.shiftr w 23) 255 in
  let m := Z.land w 8388607 in
  let magnitude : float :=
    if (e =? 255)%Z then (if (m =? 0)%Z then infinity else nan)
    else if (e =? 0)%Z then Z.ldexp (of_uint63 (Uint63.of_Z m)) (-149)
    else Z.ldexp (of_uint63 (Uint63.of_Z (8388608 + m))) (e - 150) in
  if Z.testbit w 31 then (- magnitude)%float else magnitude.

Definition doubles (a : Float32Array) : list float :=
  map f32_double (f32_elems a).

(** The loop
    [for (i = 0; i < a.length; i++) dotProduct += (a[i] ?? 0) * (b[i] ?? 0)]. *)
Fixpoint dot_loop (dotProduct : float) (xs ys : list float) : float :=
  match xs, ys with
  | x :: xs', y :: ys' => dot_loop (dotProduct + x * y)%float xs' ys'
  | _, _ => dotProduct
  end.

(** [cosineSimilarity] of embeddings.ts. *)
Definition cosineSimilarity (a b : Float32Array) : result float :=
  if negb (Nat.eqb (f32_length a) (f32_length b)) then
    Throw ("Embedding dimensions don't match: "
             ++ nat_to_string (f32_length a) ++ " vs "
             ++ nat_to_string (f32_length b))
  else Ok (dot_loop 0%float (doubles a) (doubles b)).

End Binary64.

(* ================================================================== *)
(** * intelligence/embeddings.ts: lazy model initialisation *)
(* ================================================================== *)

(** [initialize] is an async function over two module variables,
    [embeddingPipeline] and [initPromise].  JS runs the synchronous part of a
    call to its first [await] without interruption, so a run of the process is
    a sequence of events: a caller entering [initialize] (from [embed],
    [embedBatch] or [preload]), and the one pending load settling. *)
Module ModelInit.

Local Open Scope nat_scope.

Inductive promise : Type :=
| Pending
| Fulfilled
| Rejected (reason : string).

Record state : Type := mkState {
  embeddingPipeline : option nat;     (* the instance, named by the load that made it *)
  initPromise : option promise;
  loads : nat;                        (* calls of [pipeline(...)] so far *)
  awaiting : list nat;                (* callers suspended on [await initPromise] *)
  settled : list (nat * result unit)  (* callers whose [initialize()] has settled *)
}.

Inductive event : Type :=
| Call (caller : nat)
| LoadResolves
| LoadRejects (reason : string).

(** At module load nothing is initialised. *)
Definition initial : state :=
  {| embeddingPipeline := None; initPromise := None; loads := 0;
     awaiting := []; settled := [] |}.

Definition settle_all (r : result unit) (callers : list nat)
  : list (nat * result unit) :=
  map (fun c => (c, r)) callers.

(** One event.  [None]: the event cannot happen in this state (no load is
    pending). *)
Definition step (s : state) (e : event) : option state :=
  match e with
  | Call c =>
      match embeddingPipeline s with
      | Some _ =>
          (* if (embeddingPipeline) return; *)
          Some (mkState (embeddingPipeline s) (initPromise s) (loads s)
                  (awaiting s) (settled s ++ [(c, Ok tt)]))
      | None =>
          match initPromise s with
          | Some Pending =>
              (* if (initPromise) { await initPromise; return; } *)
              Some (mkState None (initPromise s) (loads s)
                      (awaiting s ++ [c]) (settled s))
          | Some Fulfilled =>
              Some (mkState None (initPromise s) (loads s)
                      (awaiting s) (settled s ++ [(c, Ok tt)]))
          | Some (Rejected r) =>
              Some (mkState None (initPromise s) (loads s)
                      (awaiting s) (settled s ++ [(c, Throw r)]))
          | None =>
              (* initPromise = (async () => { ... await pipeline(...) })();
                 await initPromise; *)
              Some (mkState None (Some Pending) (S (loads s))
                      (awaiting s ++ [c]) (settled s))
          end
      end
  | LoadResolves =>
      match initPromise s with
      | Some Pending =>
          (* embeddingPipeline = await pipeline(...) *)
          Some (mkState (Some (loads s)) (Some Fulfilled) (loads s) []
                  (settled s ++ settle_all (Ok tt) (awaiting s)))
      | _ => None
      end
  | LoadRejects r =>
      match initPromise s with
      | Some Pending =>
          Some (mkState (embeddingPipeline s) (Some (Rejected r)) (loads s) []
                  (settled s ++ settle_all (Throw r) (awaiting s)))
      | _ => None
      end
  end.

Fixpoint run (s : state) (es : list event) : option state :=
  match es with
  | [] => Some s
  | e :: es' =>
      match step s e with
      | Some s' => run s' es'
      | None => None
      end
  end.

(** The invariant of every reachable state: a load has been started exactly
    when [initPromise] is set, never more than one; callers wait only on a
    pending load; an instance exists exactly when the promise is
    fulfilled. *)
Definition inv (s : state) : Prop :=
  match initPromise s with
  | None => loads s = 0 /\ embeddingPipeline s = None /\ awaiting s = []
  | Some Pending => loads s = 1 /\ embeddingPipeline s = None
  | Some Fulfilled => loads s = 1 /\ embeddingPipeline s = Some 1 /\ awaiting s = []
  | Some (Rejected _) => loads s = 1 /\ embeddingPipeline s = None /\ awaiting s = []
  end.

(** What the settled callers have seen agrees with the state of the promise. *)
Definition outcomes_agree (s : state) : Prop :=
  match initPromise s with
  | None | Some Pending => settled s = []
  | Some Fulfilled => Forall (fun p => snd p = Ok tt) (settled s)
  | Some (Rejected r) => Forall (fun p => snd p = Throw r) (settled s)
  end.

(** [isReady()]: [embeddingPipeline !== null]. *)
Definition isReady (s : state) : bool :=
  match embeddingPipeline s with
  | Some _ => true
  | None => false
  end.

(** The callers among the events of a run. *)
Definition calls (es : list event) : list nat :=
  flat_map (fun e => match e with Call c => [c] | _ => [] end) es.

End ModelInit.

(* ================================================================== *)
(** * storage/database.ts *)
(* ================================================================== *)

Module Database.

Import Codec.

(** ** Rows *)

Record Project : Type := mkProject {
  proj_id : string;
  proj_name : string;
  proj_path : string
}.

Record FileIndexRow : Type := mkFileIndexRow {
  fi_project_id : string;
  fi_path : string;
  fi_file_type : option string;
  fi_size : Z;
  fi_content_hash : string;
  fi_content_preview : option string;
  fi_embedding : option Buffer;
  fi_indexed_at : string
}.

Record PatternData : Type := mkPatternData {
  pat_id : Z;
  pat_projectId : string;
  pat_name : string;
  pat_problem : string;
  pat_solution : string;
  pat_implementation : option string;
  pat_problemEmbedding : option Buffer;
  pat_createdAt : string
}.

Record ActivityRow : Type := mkActivityRow {
  act_project_id : option string;
  act_action : string;
  act_details : list (string * string);
  act_timestamp : string
}.

(** The tables, each in row order. *)
Record Db : Type := mkDb {
  projects : list Project;
  file_index : list FileIndexRow;
  patterns : list PatternData;
  activity_log : list ActivityRow
}.

(** The options object of [indexFile]. *)
Record IndexFileOptions : Type := mkIndexFileOptions {
  opt_file_type : option string;
  opt_size : Z;
  opt_content_hash : string;
  opt_content_preview : string;
  opt_embedding : option Buffer
}.

(** ** Operations *)

(** [getProject]: [SELECT * FROM projects WHERE id = ?]. *)
Definition getProject (db : Db) (id : string) : option Project :=
  find (fun p => String.eqb (proj_id p) id) (projects db).

Definition same_file (projectId path : string) (r : FileIndexRow) : bool :=
  String.eqb (fi_project_id r) projectId && String.eqb (fi_path r) path.

(** [INSERT ... ON CONFLICT(project_id, path) DO UPDATE SET ...]: the row of
    the key is replaced where it stands, a new key is appended. *)
Fixpoint upsert_file (row : FileIndexRow) (rows : list FileIndexRow)
  : list FileIndexRow :=
  match rows with
  | [] => [row]
  | r :: rs =>
      if same_file (fi_project_id row) (fi_path row) r then row :: rs
      else r :: upsert_file row rs
  end.

(** [indexFile(projectId, path, options)], the options-based call the
    handlers make; [now] is [new Date().toISOString()]. *)
Definition indexFile (db : Db) (now : string) (projectId path : string)
    (options : IndexFileOptions) : Db :=
  let row :=
    {| fi_project_id := projectId;
       fi_path := path;
       fi_file_type := opt_file_type options;
       fi_size := opt_size options;
       fi_content_hash := opt_content_hash options;
       fi_content_preview := Some (opt_content_preview options);
       fi_embedding := opt_embedding options;
       fi_indexed_at := now |} in
  mkDb (projects db) (upsert_file row (file_index db)) (patterns db)
    (activity_log db).

(** [getIndexedFile], the alias of [getFileIndex]. *)
Definition getIndexedFile (db : Db) (projectId path : string)
  : option FileIndexRow :=
  find (same_file projectId path) (file_index db).

(** [getIndexedFiles], the alias of [getProjectFiles].  The query has no
    [ORDER BY]: the order of the rows is the one of this model's table, not
    one the database promises. *)
Definition getIndexedFiles (db : Db) (projectId : string) : list FileIndexRow :=
  filter (fun r => String.eqb (fi_project_id r) projectId) (file_index db).

(** [getPatterns(projectId?)]: all patterns, or those of one project,
    [ORDER BY created_at DESC]. *)
Definition getPatterns (db : Db) (projectId : option string) : list PatternData :=
  let rows :=
    match projectId with
    | Some p =>
        if JS.truthy p
        then filter (fun r => String.eqb (pat_projectId r) p) (patterns db)
        else patterns db
    | None => patterns db
    end in
  JS.sort_by (fun x y => String.leb (pat_createdAt y) (pat_createdAt x)) rows.

(** [logActivity(action, details, projectId)]. *)
Definition logActivity (db : Db) (now : string) (action : string)
    (details : list (string * string)) (projectId : option string) : Db :=
  let project :=
    match projectId with
    | Some p => if JS.truthy p then Some p else None
    | None => None
    end in
  mkDb (projects db) (file_index db) (patterns db)
    (activity_log db ++ [mkActivityRow project action details now]).

(** ** The helper [cosineSimilarity] of database.ts *)

(** The loop accumulating [dotProduct], [normA] and [normB]. *)
Fixpoint cos_loop (dotProduct normA normB : float) (xs ys : list float)
  : float * float * float :=
  match xs, ys with
  | x :: xs', y :: ys' =>
      cos_loop (dotProduct + x * y)%float (normA + x * x)%float
        (normB + y * y)%float xs' ys'
  | _, _ => (dotProduct, normA, normB)
  end.

(** [cosineSimilarity]: 0 on a dimension mismatch and on a zero
    denominator, the full cosine otherwise, in binary64. *)
Definition cosineSimilarity (a b : Float32Array) : float :=
  if negb (Nat.eqb (f32_length a) (f32_length b)) then 0%float
  else
    let '(dotProduct, normA, normB) :=
      cos_loop 0%float 0%float 0%float (Binary64.doubles a) (Binary64.doubles b) in
    let denominator := (sqrt normA * sqrt normB)%float in
    if (denominator =? 0)%float then 0%float
    else (dotProduct / denominator)%float.

(** ** Further operations of database.ts *)

(** The row [indexFile] writes. *)
Definition row_of (now projectId path : string) (o : IndexFileOptions)
  : FileIndexRow :=
  {| fi_project_id := projectId;
     fi_path := path;
     fi_file_type := opt_file_type o;
     fi_size := opt_size o;
     fi_content_hash := opt_content_hash o;
     fi_content_preview := Some (opt_content_preview o);
     fi_embedding := opt_embedding o;
     fi_indexed_at := now |}.


(** The key [(project_id, path)] of every row of [file_index], in row
    order. *)
Definition file_keys (db : Db) : list (string * string) :=
  map (fun r => (fi_project_id r, fi_path r)) (file_index db).

(** [deleteProject]: [DELETE FROM projects WHERE id = ?]; with
    [foreign_keys = ON] the rows of [file_index] and [patterns] that
    reference the project go with it ([ON DELETE CASCADE]); [activity_log]
    has no foreign key.  Returns whether a project was deleted. *)
Definition deleteProject (db : Db) (id : string) : bool * Db :=
  let changes :=
    List.length (filter (fun p => String.eqb (proj_id p) id) (projects db)) in
  (Nat.ltb 0 changes,
   if Nat.ltb 0 changes then
     mkDb (filter (fun p => negb (String.eqb (proj_id p) id)) (projects db))
       (filter (fun r => negb (String.eqb (fi_project_id r) id)) (file_index db))
       (filter (fun r => negb (String.eqb (pat_projectId r) id)) (patterns db))
       (activity_log db)
   else db).

(** The argument of [createPattern] (its [metrics], stored as JSON text, are
    not part of [PatternData] here). *)
Record NewPattern : Type := mkNewPattern {
  np_projectId : string;
  np_name : string;
  np_problem : string;
  np_solution : string;
  np_implementation : option string;
  np_problemEmbedding : option Buffer
}.

(** [createPattern]: one [INSERT]; [rowid] is [result.lastInsertRowid], which
    SQLite chooses ([AUTOINCREMENT]: above every rowid the table ever
    held).  Returns the rowid. *)
Definition createPattern (db : Db) (now : string) (rowid : Z) (pattern : NewPattern)
  : Z * Db :=
  (rowid,
   mkDb (projects db) (file_index db)
     (patterns db ++
        [ {| pat_id := rowid;
             pat_projectId := np_projectId pattern;
             pat_name := np_name pattern;
             pat_problem := np_problem pattern;
             pat_solution := np_solution pattern;
             pat_implementation :=
               match np_implementation pattern with
               | Some i => if JS.truthy i then Some i else None
               | None => None
               end;
             pat_problemEmbedding := np_problemEmbedding pattern;
             pat_createdAt := now |} ])
     (activity_log db)).

(** [getPattern]: [SELECT * FROM patterns WHERE id = ?]. *)
Definition getPattern (db : Db) (id : Z) : option PatternData :=
  find (fun r => Z.eqb (pat_id r) id) (patterns db).

(** ** The foreign keys *)

(** The database is opened with [PRAGMA foreign_keys = ON], and
    [file_index.project_id] and [patterns.project_id] reference
    [projects(id)].  [indexFile] and [createPattern] above give the effect of
    the [INSERT] when it succeeds; run for a [project_id] that names no
    project, the statement throws and writes nothing.  The handlers reach
    both only after [getProject] has found the project. *)
Definition FOREIGN_KEY_FAILED : string := "FOREIGN KEY constraint failed".

(** [indexFile] as [stmt.run] executes it. *)
Definition run_indexFile (db : Db) (now : string) (projectId path : string)
    (options : IndexFileOptions) : result Db :=
  match getProject db projectId with
  | None => Throw FOREIGN_KEY_FAILED
  | Some _ => Ok (indexFile db now projectId path options)
  end.

(** [createPattern] as [stmt.run] executes it. *)
Definition run_createPattern (db : Db) (now : string) (rowid : Z)
    (pattern : NewPattern) : result (Z * Db) :=
  match getProject db (np_projectId pattern) with
  | None => Throw FOREIGN_KEY_FAILED
  | Some _ => Ok (createPattern db now rowid pattern)
  end.

(** ** searchFilesByEmbedding *)

(** A row of [file_index] with its score. *)
Record ScoredFile : Type := mkScoredFile {
  sf_row : FileIndexRow;
  sf_score : float
}.

(** The comparator [(a, b) => b.score - a.score]: [a], met first, stays in
    front of [b] unless the difference is positive (a NaN difference counts
    as 0). *)
Definition score_before (a b : ScoredFile) : bool :=
  negb (0 <? sf_score b - sf_score a)%float.

(** [searchFilesByEmbedding]: the rows of the project with an embedding,
    each scored by [cosineSimilarity] against the query vector, sorted with
    the comparator above, cut to [limit].  The typed-array views it builds
    throw on a misaligned buffer.  With a NaN among the scores the
    comparator is not consistent and the order the engine leaves is its own;
    the statements about this function concern which rows are returned and
    with which scores, not their order. *)
Definition searchFilesByEmbedding (db : Db) (projectId : string)
    (queryEmbedding : Buffer) (limit : Q) : result (list ScoredFile) :=
  let files :=
    filter
      (fun r =>
         String.eqb (fi_project_id r) projectId
         && match fi_embedding r with Some _ => true | None => false end)
      (file_index db) in
  rbind
    (new_Float32Array_view (buf_buffer queryEmbedding)
       (buf_byteOffset queryEmbedding) (Nat.div (buf_length queryEmbedding) 4))
    (fun queryVector =>
       rbind
         (map_result
            (fun file =>
               match fi_embedding file with
               | None => Ok (mkScoredFile file 0%float)
               | Some embedding =>
                   rbind
                     (new_Float32Array_view (buf_buffer embedding)
                        (buf_byteOffset embedding)
                        (Nat.div (buf_length embedding) 4))
                     (fun fileVector =>
                        Ok (mkScoredFile file
                              (cosineSimilarity queryVector fileVector)))
               end)
            files)
         (fun scored => Ok (JS.slice0 (JS.sort_by score_before scored) limit))).

End Database.

(* ================================================================== *)
(** * The tool handlers *)
(* ================================================================== *)

Module Tools.

Import Codec Database.
Local Open Scope string_scope.

(** ** The world the handlers run in *)

(** What the handlers reach outside the process: the file system, Node's
    [path] and [crypto] modules, the embedding model, faults of the
    database, the clock.  The one model load of the process
    ([ModelInit]) has one outcome, which every [initialize()] observes. *)
Record Env : Type := mkEnv {
  existsSync : string -> bool;
  readFile : string -> result string;
  stat_size : string -> result Z;
  findTextFiles : string -> list string;
  path_join : string -> string -> string;
  path_relative : string -> string -> string;
  path_extname : string -> string;
  md5_hex : string -> string;
  model_load : result unit;
  model_run : string -> result (list Z);
  db_write_error : string -> string -> option string;
  now : string
}.

(** The effects the claims count. *)
Inductive effect : Type :=
| EmbedInvocation (text : string)           (* the model run on a text *)
| IndexWrite (projectId path : string)      (* a row written to file_index *)
| ActivityWrite (action : string).          (* a row written to activity_log *)

Record World : Type := mkWorld {
  db : Db;
  effects : list effect
}.

(** A handler step: from a world to a result (or a thrown error) and the
    world it leaves. *)
Definition M (A : Type) : Type := World -> result A * World.

Definition ret {A} (a : A) : M A := fun w => (Ok a, w).

Definition throw {A} (message : string) : M A := fun w => (Throw message, w).

Definition bind {A B} (m : M A) (k : A -> M B) : M B :=
  fun w =>
    match m w with
    | (Ok a, w') => k a w'
    | (Throw e, w') => (Throw e, w')
    end.

Definition lift {A} (r : result A) : M A := fun w => (r, w).

Definition get_db : M Db := fun w => (Ok (db w), w).

(** [try { body } catch (err) { handler(err.message) }]. *)
Definition try_catch {A} (body : M A) (handler : string -> M A) : M A :=
  fun w =>
    match body w with
    | (Ok a, w') => (Ok a, w')
    | (Throw e, w') => handler e w'
    end.

Declare Scope tool_scope.
Delimit Scope tool_scope with tool.
Notation "x <- m ;; k" := (bind m (fun x => k))
  (at level 61, m at next level, right associativity) : tool_scope.
Notation "m ;;; k" := (bind m (fun _ => k))
  (at level 61, right associativity) : tool_scope.
Local Open Scope tool_scope.

Inductive ToolResult (T : Type) : Type :=
| Success (data : T)
| Failure (code message : string).

Arguments Success {T} data.
Arguments Failure {T} code message.

Section Handlers.

Variable env : Env.

(** ** embeddings.ts, effectful part *)

(** [initialize()] as a sequential caller sees it. *)
Definition initialize : M unit := lift (model_load env).

Definition preload : M unit := initialize.

(** [embed(text)]: initialise, truncate to 8000 characters, run the
    model, copy the output into a fresh [Float32Array]. *)
Definition embed (text : string) : M Float32Array :=
  initialize ;;;
  let truncatedText := JS.prefix_of (Z.to_nat 8000) text in
  (fun w => (Ok tt, mkWorld (db w) (effects w ++ [EmbedInvocation truncatedText]))) ;;;
  data <- lift (model_run env truncatedText) ;;
  ret (new_Float32Array data).

(** [db.indexFile(...)], which may fail. *)
Definition db_indexFile (projectId path : string) (options : IndexFileOptions)
  : M unit :=
  fun w =>
    match db_write_error env projectId path with
    | Some e => (Throw e, w)
    | None =>
        (Ok tt,
         mkWorld (indexFile (db w) (now env) projectId path options)
           (effects w ++ [IndexWrite projectId path]))
    end.

Definition db_logActivity (action : string) (details : list (string * string))
    (projectId : option string) : M unit :=
  fun w =>
    (Ok tt,
     mkWorld (logActivity (db w) (now env) action details projectId)
       (effects w ++ [ActivityWrite action])).

(** ** search_semantic *)

Record SearchSemanticInput : Type := mkSearchSemanticInput {
  ss_query : string;
  ss_project : string;
  ss_fileTypes : option (list string);
  ss_limit : option Q;
  ss_minRelevance : option Q
}.

Record SearchHit : Type := mkSearchHit {
  hit_path : string;
  hit_relevance : Q;
  hit_preview : string
}.

Record SearchData : Type := mkSearchData {
  sd_query : string;
  sd_matchCount : nat;
  sd_results : list SearchHit
}.

Definition has_embedding (f : FileIndexRow) : bool :=
  match fi_embedding f with Some _ => true | None => false end.

(** The candidates of a search: the rows of the project with an
    embedding, optionally those whose path ends with one of the given
    extensions. *)
Definition search_candidates (d : Db) (project : string)
    (fileTypes : option (list string)) : list FileIndexRow :=
  let indexedFiles := getIndexedFiles d project in
  let candidates := filter has_embedding indexedFiles in
  match fileTypes with
  | Some ((_ :: _) as exts) =>
      filter (fun f => existsb (fun ext => JS.endsWith (fi_path f) ext) exts)
        candidates
  | _ => candidates
  end.

(** Whether the optional file-type filter keeps a row. *)
Definition passes_fileTypes (fileTypes : option (list string)) (f : FileIndexRow)
  : bool :=
  match fileTypes with
  | Some ((_ :: _) as exts) => existsb (fun ext => JS.endsWith (fi_path f) ext) exts
  | _ => true
  end.

Definition deserialize_candidate {Id} (id : Id) (embedding : option Buffer)
  : result (Embeddings.Candidate Id) :=
  match embedding with
  | Some b =>
      rbind (deserializeEmbedding b)
        (fun e => Ok (Embeddings.mkCandidate id e))
  | None => Throw "Cannot read properties of null (reading 'buffer')"
  end.

Definition search_hit (candidates : list FileIndexRow)
    (m : Embeddings.Match string) : SearchHit :=
  let file :=
    find (fun f => String.eqb (fi_path f) (Embeddings.match_id m)) candidates in
  {| hit_path := Embeddings.match_id m;
     hit_relevance := JS.round2 (Embeddings.similarity m);
     hit_preview :=
       match file with
       | Some f =>
           match fi_content_preview f with
           | Some p => JS.prefix_of 200 p
           | None => ""
           end
       | None => ""
       end |}.

Definition search_semantic (input : SearchSemanticInput)
  : M (ToolResult SearchData) :=
  let query := ss_query input in
  let project := ss_project input in
  let limit := match ss_limit input with Some l => l | None => 10%Q end in
  let minRelevance :=
    match ss_minRelevance input with Some r => r | None => (3 # 10)%Q end in
  d <- get_db ;;
  match getProject d project with
  | None =>
      ret (Failure "PROJECT_NOT_FOUND" ("Project '" ++ project ++ "' not found"))
  | Some _ =>
      let candidates := search_candidates d project (ss_fileTypes input) in
      if Nat.eqb (List.length candidates) 0 then
        ret (Failure "NO_INDEXED_FILES"
               "No indexed files found. Run pm_index_files first.")
      else
        queryEmbedding <- embed query ;;
        candidatesWithEmbeddings <-
          lift (map_result
                  (fun f => deserialize_candidate (fi_path f) (fi_embedding f))
                  candidates) ;;
        similar <-
          lift (Embeddings.findSimilar queryEmbedding candidatesWithEmbeddings
                  limit minRelevance) ;;
        let results := map (search_hit candidates) similar in
        ret (Success {| sd_query := query;
                        sd_matchCount := List.length results;
                        sd_results := results |})
  end.

(** ** pm_index_files *)

Record IndexFilesInput : Type := mkIndexFilesInput {
  ifs_project : string;
  ifs_paths : option (list string);
  ifs_reindex : option bool
}.

Record IndexFilesData : Type := mkIndexFilesData {
  ifd_totalFiles : nat;
  ifd_indexed : nat;
  ifd_skipped : nat;
  ifd_errors : option (list string)
}.

(** How one pass of the loop body ends when it does not throw. *)
Inductive FileOutcome : Type :=
| FileSkipped      (* skipped++; continue *)
| FileIndexed.     (* indexed++ *)

(** [existing && existing.content_hash === contentHash]. *)
Definition same_hash (existing : option FileIndexRow) (contentHash : string) : bool :=
  match existing with
  | Some row => String.eqb (fi_content_hash row) contentHash
  | None => false
  end.

(** The body of the [try] block of the loop, for one discovered file. *)
Definition index_files_body (project projectPath : string) (reindex : bool)
    (filePath : string) : M FileOutcome :=
  let relativePath := path_relative env projectPath filePath in
  content <- lift (readFile env filePath) ;;
  let contentHash := md5_hex env content in
  d <- get_db ;;
  let existing := getIndexedFile d project relativePath in
  if same_hash existing contentHash && negb reindex then ret FileSkipped
  else
    embedding <- embed content ;;
    let serialized := serializeEmbedding embedding in
    size <- lift (stat_size env filePath) ;;
    db_indexFile project relativePath
      {| opt_file_type := Some (path_extname env filePath);
         opt_size := size;
         opt_content_hash := contentHash;
         opt_content_preview := JS.prefix_of 1000 content;
         opt_embedding := Some serialized |} ;;;
    ret FileIndexed.

(** The counters of the loop. *)
Record IndexCounters : Type := mkIndexCounters {
  cnt_indexed : nat;
  cnt_skipped : nat;
  cnt_errors : list string
}.

(** [for (const filePath of allFiles) { try { ... } catch (err) { ... } }]. *)
Fixpoint index_files_loop (project projectPath : string) (reindex : bool)
    (allFiles : list string) (c : IndexCounters) (w : World)
  : IndexCounters * World :=
  match allFiles with
  | [] => (c, w)
  | filePath :: rest =>
      match index_files_body project projectPath reindex filePath w with
      | (Ok FileSkipped, w') =>
          index_files_loop project projectPath reindex rest
            (mkIndexCounters (cnt_indexed c) (S (cnt_skipped c)) (cnt_errors c)) w'
      | (Ok FileIndexed, w') =>
          index_files_loop project projectPath reindex rest
            (mkIndexCounters (S (cnt_indexed c)) (cnt_skipped c) (cnt_errors c)) w'
      | (Throw error, w') =>
          index_files_loop project projectPath reindex rest
            (mkIndexCounters (cnt_indexed c) (cnt_skipped c)
               (cnt_errors c ++ [filePath ++ ": " ++ error])) w'
      end
  end.

(** The passes of the loop over [allFiles] from the world [w]: the result of
    the body on each file in turn, caught or not, each pass starting in the
    world the one before has left. *)
Inductive loop_passes (project projectPath : string) (reindex : bool)
  : list string -> World -> list (result FileOutcome) -> World -> Prop :=
| passes_done (w : World) :
    loop_passes project projectPath reindex [] w [] w
| passes_next (filePath : string) (rest : list string) (w w1 w' : World)
    (out : result FileOutcome) (outs : list (result FileOutcome)) :
    index_files_body project projectPath reindex filePath w = (out, w1) ->
    loop_passes project projectPath reindex rest w1 outs w' ->
    loop_passes project projectPath reindex (filePath :: rest) w (out :: outs) w'.

(** The passes that ended with [indexed++]. *)
Definition indexed_passes (outs : list (result FileOutcome)) : nat :=
  List.length
    (filter (fun out => match out with Ok FileIndexed => true | _ => false end)
       outs).

(** The passes that ended with [skipped++]. *)
Definition skipped_passes (outs : list (result FileOutcome)) : nat :=
  List.length
    (filter (fun out => match out with Ok FileSkipped => true | _ => false end)
       outs).

(** The line [`${filePath}: ${error}`] of every pass that threw, in order. *)
Fixpoint error_lines (allFiles : list string) (outs : list (result FileOutcome))
  : list string :=
  match allFiles, outs with
  | filePath :: rest, Throw error :: outs' =>
      (filePath ++ ": " ++ error) :: error_lines rest outs'
  | _ :: rest, Ok _ :: outs' => error_lines rest outs'
  | _, _ => []
  end.

(** The files found under the search paths that exist. *)
Definition discover (projectPath : string) (paths : option (list string))
  : list string :=
  let searchPaths :=
    match paths with
    | Some ps => map (path_join env projectPath) ps
    | None => [projectPath]
    end in
  flat_map
    (fun searchPath =>
       if existsSync env searchPath then findTextFiles env searchPath else [])
    searchPaths.

Definition index_files_data (allFiles : list string) (c : IndexCounters)
  : IndexFilesData :=
  {| ifd_totalFiles := List.length allFiles;
     ifd_indexed := cnt_indexed c;
     ifd_skipped := cnt_skipped c;
     ifd_errors :=
       if Nat.ltb 0 (List.length (cnt_errors c))
       then Some (firstn 10 (cnt_errors c))
       else None |}.

Definition pm_index_files (input : IndexFilesInput) : M (ToolResult IndexFilesData) :=
  let project := ifs_project input in
  let reindex := match ifs_reindex input with Some b => b | None => false end in
  d <- get_db ;;
  match getProject d project with
  | None =>
      ret (Failure "PROJECT_NOT_FOUND" ("Project '" ++ project ++ "' not found"))
  | Some projectInfo =>
      preload ;;;
      let projectPath := proj_path projectInfo in
      let allFiles := discover projectPath (ifs_paths input) in
      fun w =>
        let '(c, w') :=
          index_files_loop project projectPath reindex allFiles
            (mkIndexCounters 0 0 []) w in
        (Ok (Success (index_files_data allFiles c)), w')
  end.

(** ** pm_index_file *)

Record IndexFileInput : Type := mkIndexFileInput {
  if_project : string;
  if_path : string;
  if_force : option bool
}.

Inductive IndexFileData : Type :=
| Skipped (reason : string)        (* { skipped: true, reason } *)
| Indexed (path : string).         (* { indexed: true, path } *)

Definition TEXT_EXTENSIONS : list string :=
  [ ".ts"; ".tsx"; ".js"; ".jsx"; ".json"; ".md"; ".txt";
    ".html"; ".css"; ".scss"; ".less"; ".yaml"; ".yml";
    ".xml"; ".sql"; ".sh"; ".bash"; ".ps1"; ".py"; ".rb";
    ".java"; ".kt"; ".go"; ".rs"; ".c"; ".cpp"; ".h";
    ".cs"; ".fs"; ".vue"; ".svelte"; ".astro"; ".toml" ].

Definition is_text_extension (ext : string) : bool :=
  existsb (String.eqb ext) TEXT_EXTENSIONS.

Definition pm_index_file (input : IndexFileInput) : M (ToolResult IndexFileData) :=
  let project := if_project input in
  let relativePath := if_path input in
  let force := match if_force input with Some b => b | None => false end in
  d <- get_db ;;
  match getProject d project with
  | None =>
      ret (Failure "PROJECT_NOT_FOUND" ("Project '" ++ project ++ "' not found"))
  | Some projectInfo =>
      let filePath := path_join env (proj_path projectInfo) relativePath in
      if negb (existsSync env filePath) then
        ret (Failure "FILE_NOT_FOUND" ("File not found: " ++ relativePath))
      else
        let ext := path_extname env filePath in
        if negb (is_text_extension ext) then ret (Success (Skipped "Not a text file"))
        else
          try_catch
            (content <- lift (readFile env filePath) ;;
             let contentHash := md5_hex env content in
             d' <- get_db ;;
             let existing := getIndexedFile d' project relativePath in
             if same_hash existing contentHash && negb force then
               ret (Success (Skipped "File unchanged"))
             else
               preload ;;;
               embedding <- embed content ;;
               let serialized := serializeEmbedding embedding in
               size <- lift (stat_size env filePath) ;;
               db_indexFile project relativePath
                 {| opt_file_type := Some ext;
                    opt_size := size;
                    opt_content_hash := contentHash;
                    opt_content_preview := JS.prefix_of 1000 content;
                    opt_embedding := Some serialized |} ;;;
               ret (Success (Indexed relativePath)))
            (fun message => ret (Failure "INDEX_FAILED" message))
  end.

(** ** suggest_patterns *)

Record SuggestPatternsInput : Type := mkSuggestPatternsInput {
  sp_problem : string;
  sp_currentProject : option string;
  sp_limit : option Q;
  sp_minConfidence : option Q;
  sp_includeCurrentProject : option bool
}.

Record Suggestion : Type := mkSuggestion {
  sg_patternId : Z;
  sg_name : string;
  sg_project : string;
  sg_confidence : Q;
  sg_problem : string;
  sg_solution : string
}.

Record SuggestData : Type := mkSuggestData {
  sgd_message : option string;
  sgd_suggestions : list Suggestion
}.

Definition has_problem_embedding (p : PatternData) : bool :=
  match pat_problemEmbedding p with Some _ => true | None => false end.

(** [currentProject && !includeCurrentProject]: an absent or empty
    [currentProject] is falsy. *)
Definition excludes_current (currentProject : option string)
    (includeCurrentProject : bool) : bool :=
  match currentProject with
  | Some p => JS.truthy p && negb includeCurrentProject
  | None => false
  end.

(** The candidates of a suggestion: the patterns with an embedding, without
    those of the current project when they are excluded. *)
Definition suggest_candidates (d : Db) (currentProject : option string)
    (includeCurrentProject : bool) : list PatternData :=
  let patterns := getPatterns d None in
  let candidates := filter has_problem_embedding patterns in
  match currentProject with
  | Some p =>
      if excludes_current currentProject includeCurrentProject
      then filter (fun c => negb (String.eqb (pat_projectId c) p)) candidates
      else candidates
  | None => candidates
  end.

Definition suggestion_of (candidates : list PatternData)
    (m : Embeddings.Match Z) : Suggestion :=
  let pattern :=
    find (fun p => Z.eqb (pat_id p) (Embeddings.match_id m)) candidates in
  {| sg_patternId := Embeddings.match_id m;
     sg_name := match pattern with Some p => pat_name p | None => "" end;
     sg_project := match pattern with Some p => pat_projectId p | None => "" end;
     sg_confidence := JS.round2 (Embeddings.similarity m);
     sg_problem := match pattern with Some p => pat_problem p | None => "" end;
     sg_solution :=
       match pattern with
       | Some p =>
           JS.prefix_of 200 (pat_solution p)
             ++ (if Nat.ltb 200 (String.length (pat_solution p)) then "..." else "")
       | None => "undefined"
       end |}.

Definition suggest_patterns (input : SuggestPatternsInput)
  : M (ToolResult SuggestData) :=
  let problem := sp_problem input in
  let currentProject := sp_currentProject input in
  let limit := match sp_limit input with Some l => l | None => 5%Q end in
  let minConfidence :=
    match sp_minConfidence input with Some c => c | None => (1 # 2)%Q end in
  let includeCurrentProject :=
    match sp_includeCurrentProject input with Some b => b | None => false end in
  try_catch
    (d <- get_db ;;
     let candidates := suggest_candidates d currentProject includeCurrentProject in
     if Nat.eqb (List.length candidates) 0 then
       ret (Success {| sgd_message := Some "No patterns found in knowledge base";
                       sgd_suggestions := [] |})
     else
       preload ;;;
       problemEmbedding <- embed problem ;;
       candidatesWithEmbeddings <-
         lift (map_result
                 (fun p => deserialize_candidate (pat_id p) (pat_problemEmbedding p))
                 candidates) ;;
       similar <-
         lift (Embeddings.findSimilar problemEmbedding candidatesWithEmbeddings
                 limit minConfidence) ;;
       let suggestions := map (suggestion_of candidates) similar in
       db_logActivity "suggest_patterns"
         [ ("problem", JS.prefix_of 100 problem);
           ("suggestionsFound", nat_to_string (List.length suggestions));
           ("patternsSearched", nat_to_string (List.length candidates)) ]
         currentProject ;;;
       ret (Success {| sgd_message := None; sgd_suggestions := suggestions |}))
    (fun message => ret (Failure "SUGGESTION_ERROR" message)).

(** ** embeddings.ts: embedBatch *)

(** One run of the pipeline: truncate, invoke the model, copy the output. *)
Definition run_pipeline (text : string) : M Float32Array :=
  let truncatedText := JS.prefix_of (Z.to_nat 8000) text in
  (fun w => (Ok tt, mkWorld (db w) (effects w ++ [EmbedInvocation truncatedText]))) ;;;
  data <- lift (model_run env truncatedText) ;;
  ret (new_Float32Array data).

(** [for (const text of batch) { ...; embeddings.push(...) }]. *)
Fixpoint embedBatch_inner (batch : list string) (embeddings : list Float32Array)
  : M (list Float32Array) :=
  match batch with
  | [] => ret embeddings
  | text :: rest =>
      e <- run_pipeline text ;;
      embedBatch_inner rest (embeddings ++ [e])
  end.

(** [for (let i = 0; i < texts.length; i += batchSize)], with
    [batchSize = 32]; [fuel] bounds the number of passes. *)
Fixpoint embedBatch_outer (fuel : nat) (i : nat) (texts : list string)
    (embeddings : list Float32Array) : M (list Float32Array) :=
  if Nat.ltb i (List.length texts) then
    match fuel with
    | O => throw "embedBatch: out of fuel"
    | S fuel' =>
        let batch := firstn 32 (skipn i texts) in
        embeddings' <- embedBatch_inner batch embeddings ;;
        embedBatch_outer fuel' (i + 32) texts embeddings'
    end
  else ret embeddings.

(** [embedBatch(texts)]; one pass per text is more than the loop needs. *)
Definition embedBatch (texts : list string) : M (list Float32Array) :=
  initialize ;;;
  embedBatch_outer (List.length texts) 0 texts [].

(** ** indexFileAfterWrite *)

Definition indexFileAfterWrite (project relativePath : string) : M unit :=
  d <- get_db ;;
  match getProject d project with
  | None => ret tt
  | Some projectInfo =>
      let ext := path_extname env relativePath in
      if negb (is_text_extension ext) then ret tt
      else
        let filePath := path_join env (proj_path projectInfo) relativePath in
        if negb (existsSync env filePath) then ret tt
        else
          try_catch
            (content <- lift (readFile env filePath) ;;
             let contentHash := md5_hex env content in
             preload ;;;
             embedding <- embed content ;;
             let serialized := serializeEmbedding embedding in
             size <- lift (stat_size env filePath) ;;
             db_indexFile project relativePath
               {| opt_file_type := Some ext;
                  opt_size := size;
                  opt_content_hash := contentHash;
                  opt_content_preview := JS.prefix_of 1000 content;
                  opt_embedding := Some serialized |})
            (fun _ => ret tt)
  end.

(** ** pm_index_status *)

Record IndexStatusData : Type := mkIndexStatusData {
  st_indexed : bool;
  st_fileCount : nat;
  st_totalIndexed : nat;
  st_lastIndexed : option string
}.

(** [indexedFiles.reduce((latest, f) => f.indexed_at > latest ? f.indexed_at
    : latest, indexedFiles[0]?.indexed_at || '')]. *)
Definition latest_indexed_at (indexedFiles : list FileIndexRow) : string :=
  fold_left
    (fun latest f =>
       if String.ltb latest (fi_indexed_at f) then fi_indexed_at f else latest)
    indexedFiles
    (match indexedFiles with
     | f :: _ => fi_indexed_at f
     | [] => ""
     end).

Definition pm_index_status (project : string) : M (ToolResult IndexStatusData) :=
  d <- get_db ;;
  match getProject d project with
  | None =>
      ret (Failure "PROJECT_NOT_FOUND" ("Project '" ++ project ++ "' not found"))
  | Some _ =>
      let indexedFiles := getIndexedFiles d project in
      let withEmbeddings := filter has_embedding indexedFiles in
      let lastIndexed :=
        if Nat.ltb 0 (List.length indexedFiles)
        then Some (latest_indexed_at indexedFiles)
        else None in
      ret (Success {| st_indexed := Nat.ltb 0 (List.length withEmbeddings);
                      st_fileCount := List.length withEmbeddings;
                      st_totalIndexed := List.length indexedFiles;
                      st_lastIndexed := lastIndexed |})
  end.

(** ** record_pattern, list_patterns, get_pattern *)

Record RecordPatternInput : Type := mkRecordPatternInput {
  rp_project : string;
  rp_name : string;
  rp_problem : string;
  rp_solution : string;
  rp_implementation : option string
}.

(** The one-character string holding a double quote. *)
Definition double_quote : string := String (Ascii.ascii_of_nat 34) EmptyString.

Record RecordPatternData : Type := mkRecordPatternData {
  rpd_patternId : Z;
  rpd_message : string
}.

(** [db.createPattern(...)] on the world; [rowid] is the rowid SQLite
    assigns to the new pattern. *)
Definition db_createPattern (rowid : Z) (pattern : NewPattern) : M Z :=
  fun w =>
    let '(id, d') := createPattern (db w) (now env) rowid pattern in
    (Ok id, mkWorld d' (effects w)).

Definition record_pattern (rowid : Z) (input : RecordPatternInput)
  : M (ToolResult RecordPatternData) :=
  let project := rp_project input in
  try_catch
    (d <- get_db ;;
     match getProject d project with
     | None =>
         ret (Failure "PROJECT_NOT_FOUND" ("Project '" ++ project ++ "' not found"))
     | Some _ =>
         preload ;;;
         problemEmbedding <- embed (rp_problem input) ;;
         let embeddingBuffer := serializeEmbedding problemEmbedding in
         patternId <-
           db_createPattern rowid
             {| np_projectId := project;
                np_name := rp_name input;
                np_problem := rp_problem input;
                np_solution := rp_solution input;
                np_implementation :=
                  match rp_implementation input with
                  | Some i => if JS.truthy i then Some i else None
                  | None => None
                  end;
                np_problemEmbedding := Some embeddingBuffer |} ;;
         db_logActivity "record_pattern"
           [ ("patternId", NilEmpty.string_of_int (Z.to_int patternId));
             ("name", rp_name input);
             ("problem", JS.prefix_of 100 (rp_problem input)) ]
           (Some project) ;;;
         ret (Success {| rpd_patternId := patternId;
                         rpd_message :=
                           "Pattern " ++ double_quote ++ rp_name input
                             ++ double_quote ++ " recorded successfully" |})
     end)
    (fun message => ret (Failure "RECORD_ERROR" message)).

Record PatternSummary : Type := mkPatternSummary {
  ps_id : Z;
  ps_name : string;
  ps_project : string;
  ps_problem : string;
  ps_hasImplementation : bool;
  ps_createdAt : string
}.

Record ListPatternsData : Type := mkListPatternsData {
  lp_total : nat;
  lp_returned : nat;
  lp_patterns : list PatternSummary
}.

Definition pattern_summary (p : PatternData) : PatternSummary :=
  {| ps_id := pat_id p;
     ps_name := pat_name p;
     ps_project := pat_projectId p;
     ps_problem :=
       JS.prefix_of 100 (pat_problem p)
         ++ (if Nat.ltb 100 (String.length (pat_problem p)) then "..." else "");
     ps_hasImplementation :=
       match pat_implementation p with
       | Some i => JS.truthy i
       | None => false
       end;
     ps_createdAt := pat_createdAt p |}.

(** [list_patterns]; the database call cannot fail in this model, so the
    [catch] branch ([LIST_ERROR]) is not reached. *)
Definition list_patterns (project : option string) (limit : option Q)
  : M (ToolResult ListPatternsData) :=
  let limit := match limit with Some l => l | None => 20%Q end in
  d <- get_db ;;
  let patterns := getPatterns d project in
  let results := map pattern_summary (JS.slice0 patterns limit) in
  ret (Success {| lp_total := List.length patterns;
                  lp_returned := List.length results;
                  lp_patterns := results |}).

Record PatternDetails : Type := mkPatternDetails {
  pd_id : Z;
  pd_name : string;
  pd_project : string;
  pd_problem : string;
  pd_solution : string;
  pd_implementation : option string;
  pd_createdAt : string
}.

(** [get_pattern]: the pattern without its embedding.  The [metrics] column
    holds only what [createPattern] wrote with [JSON.stringify], which
    [JSON.parse] reads back; the database call cannot fail in this model, so
    the [catch] branch ([GET_ERROR]) is not reached. *)
Definition get_pattern (patternId : Z) : M (ToolResult PatternDetails) :=
  d <- get_db ;;
  match getPattern d patternId with
  | None =>
      ret (Failure "NOT_FOUND"
             ("Pattern " ++ NilEmpty.string_of_int (Z.to_int patternId) ++ " not found"))
  | Some pattern =>
      ret (Success {| pd_id := pat_id pattern;
                      pd_name := pat_name pattern;
                      pd_project := pat_projectId pattern;
                      pd_problem := pat_problem pattern;
                      pd_solution := pat_solution pattern;
                      pd_implementation := pat_implementation pattern;
                      pd_createdAt := pat_createdAt pattern |})
  end.

(** ** What a successful indexing of one file leaves *)

(** The options the handlers pass to [indexFile] for a file of extension
    [ext], size [size] and content [content], embedded as [values]. *)
Definition index_options (ext : string) (size : Z) (content : string)
    (values : list Z) : IndexFileOptions :=
  {| opt_file_type := Some ext;
     opt_size := size;
     opt_content_hash := md5_hex env content;
     opt_content_preview := JS.prefix_of 1000 content;
     opt_embedding := Some (serializeEmbedding (new_Float32Array values)) |}.

(** The world after one model invocation on [content] and one write of the
    row of [(project, path)]. *)
Definition world_after_index (w : World) (project path ext : string) (size : Z)
    (content : string) (values : list Z) : World :=
  mkWorld
    (indexFile (db w) (now env) project path (index_options ext size content values))
    (effects w
       ++ [ EmbedInvocation (JS.prefix_of (Z.to_nat 8000) content);
            IndexWrite project path ]).

End Handlers.

End Tools.

(* ================================================================== *)
(** * A small concrete world *)
(* ================================================================== *)

(** One project, a handful of rows and a one-dimensional stand-in for the
    model, used to run the handlers on concrete inputs. *)
Module Demo.

Import Codec Database Tools.
Local Open Scope string_scope.

(** binary32 patterns: 1.0, 2.0, 0.5, -0.5, 0.3046875 (= 39/128), a NaN. *)
Definition f_one : Z := 1065353216.
Definition f_half : Z := 1056964608.
Definition f_neg_half : Z := 3204448256.
Definition f_39_128 : Z := 1050411008.
Definition f_nan : Z := 2143289344.

Definition ext_of (p : string) : string :=
  if JS.endsWith p ".ts" then ".ts"
  else if JS.endsWith p ".md" then ".md"
  else if JS.endsWith p ".png" then ".png"
  else "".

Definition env : Env :=
  {| existsSync := fun _ => true;
     readFile := fun p =>
       if String.eqb p "/demo/locked.ts"
       then Throw "EACCES: permission denied, open '/demo/locked.ts'"
       else Ok ("content of " ++ p);
     stat_size := fun _ => Ok 42%Z;
     findTextFiles := fun _ => ["/demo/a.ts"; "/demo/locked.ts"; "/demo/new.ts"];
     path_join := fun a b => a ++ "/" ++ b;
     path_relative := fun from to =>
       substring (String.length from + 1)
         (String.length to - (String.length from + 1)) to;
     path_extname := ext_of;
     md5_hex := fun s => "md5(" ++ s ++ ")";
     model_load := Ok tt;
     model_run := fun _ => Ok [f_one];
     db_write_error := fun _ _ => None;
     now := "2026-01-07T00:00:00.000Z" |}.

Definition stored (values : list Z) : option Buffer :=
  Some (serializeEmbedding (new_Float32Array values)).

Definition file_row (path : string) (embedding : option Buffer) : FileIndexRow :=
  {| fi_project_id := "demo";
     fi_path := path;
     fi_file_type := Some (ext_of path);
     fi_size := 42;
     fi_content_hash := "md5(content of /demo/" ++ path ++ ")";
     fi_content_preview := Some ("content of /demo/" ++ path);
     fi_embedding := embedding;
     fi_indexed_at := "2026-01-06T00:00:00.000Z" |}.

Definition pattern_row (id : Z) (project : string) (embedding : option Buffer)
  : PatternData :=
  {| pat_id := id;
     pat_projectId := project;
     pat_name := "retry-with-backoff";
     pat_problem := "API calls fail intermittently under load";
     pat_solution := "retry with exponential backoff";
     pat_implementation := None;
     pat_problemEmbedding := embedding;
     pat_createdAt := "2026-01-06T00:00:00.000Z" |}.

(** Project [demo] with three indexed files of similarity 39/128 to every
    query, project [empty] with one row that has no embedding, and a project
    registered under the empty identifier; one pattern recorded in the
    latter and one in [demo]. *)
Definition db0 : Db :=
  {| projects :=
       [ mkProject "demo" "Demo" "/demo";
         mkProject "empty" "Empty" "/empty";
         mkProject "" "Unnamed" "/unnamed" ];
     file_index :=
       [ file_row "a.ts" (stored [f_39_128]);
         file_row "b.ts" (stored [f_39_128]);
         file_row "c.ts" (stored [f_39_128]);
         mkFileIndexRow "empty" "readme.md" (Some ".md") 7 "h" None None
           "2026-01-06T00:00:00.000Z" ];
     patterns :=
       [ pattern_row 1 "" (stored [f_one]);
         pattern_row 2 "demo" (stored [f_one]) ];
     activity_log := [] |}.

Definition world0 : World := {| db := db0; effects := [] |}.

End Demo.

(* ================================================================== *)
(** * tools/semantic-search.ts: discovery of the files to index *)
(* ================================================================== *)

Module Discovery.

Local Open Scope string_scope.

Definition SKIP_DIRS : list string :=
  [ "node_modules"; ".git"; "dist"; "build"; "out";
    ".next"; ".nuxt"; "coverage"; ".cache"; "__pycache__";
    "vendor"; "target"; "bin"; "obj"; ".idea"; ".vscode" ].

(** An entry returned by [readdir(path, { withFileTypes: true })]: a regular
    file, a directory together with what reading it gives in turn ([None]
    when [readdir] throws on it), or an entry that is neither (a symbolic
    link, a socket, ...). *)
#[warnings="-register-all"]
Inductive Dirent : Type :=
| RegularFile (name : string)
| Directory (name : string) (listing : option (list Dirent))
| OtherEntry (name : string).

Definition entry_name (entry : Dirent) : string :=
  match entry with
  | RegularFile name | Directory name _ | OtherEntry name => name
  end.

Section Scan.

Variable env : Tools.Env.

(** [!SKIP_DIRS.has(entry.name) && !entry.name.startsWith('.')]. *)
Definition descends (name : string) : bool :=
  negb (existsb (String.eqb name) SKIP_DIRS) && negb (String.prefix "." name).

(** One round of the loop of [scan(currentPath)]; the result is what the
    round pushes on [files], in order. *)
Fixpoint scan_entry (currentPath : string) (entry : Dirent) : list string :=
  match entry with
  | Directory name listing =>
      let fullPath := Tools.path_join env currentPath name in
      if descends name then
        match listing with
        | Some entries => flat_map (scan_entry fullPath) entries
        | None => []
        end
      else []
  | RegularFile name =>
      let fullPath := Tools.path_join env currentPath name in
      if Tools.is_text_extension (Tools.path_extname env name)
      then [fullPath] else []
  | OtherEntry _ => []
  end.

(** [scan(currentPath)]: a directory that cannot be read is skipped. *)
Definition scan (currentPath : string) (listing : option (list Dirent))
  : list string :=
  match listing with
  | Some entries => flat_map (scan_entry currentPath) entries
  | None => []
  end.

(** [findTextFiles(dirPath)], on a directory whose reading gives
    [listing]. *)
Definition findTextFiles (dirPath : string) (listing : option (list Dirent))
  : list string :=
  scan dirPath listing.

(** [located dir entries p]: [p] is the path of a regular file with a text
    extension that is reached from [dir] through readable directories whose
    names are neither in [SKIP_DIRS] nor start with a dot. *)
Inductive located : string -> list Dirent -> string -> Prop :=
| located_here (dir : string) (entries : list Dirent) (name : string) :
    In (RegularFile name) entries ->
    In (Tools.path_extname env name) Tools.TEXT_EXTENSIONS ->
    located dir entries (Tools.path_join env dir name)
| located_below (dir : string) (entries : list Dirent) (name : string)
    (sub : list Dirent) (p : string) :
    In (Directory name (Some sub)) entries ->
    ~ In name SKIP_DIRS ->
    String.prefix "." name = false ->
    located (Tools.path_join env dir name) sub p ->
    located dir entries p.

End Scan.

(** A source tree with a dependency directory, a hidden directory, an
    unreadable directory, an image and a symbolic link. *)
Definition tree : list Dirent :=
  [ RegularFile "readme.md";
    RegularFile "logo.png";
    OtherEntry "link.ts";
    Directory "node_modules" (Some [RegularFile "index.js"]);
    Directory ".github" (Some [RegularFile "ci.md"]);
    Directory "private" None;
    Directory "src" (Some [RegularFile "a.ts";
                           Directory "deep" (Some [RegularFile "b.ts"])]) ].

End Discovery.

(* ================================================================== *)
(** * Properties *)
(* ================================================================== *)

(** ** The codec: bytes and words *)

Module CodecFacts.

Import Codec.
Local Open Scope Z_scope.

Lemma Z_of_byte_range (b : byte) : 0 <= Z_of_byte b < 256.
Proof.
  unfold Z_of_byte. pose proof (Byte.to_N_bounded b) as H.
  lia.
Qed.

Lemma Z_of_byte_of_Z (z : Z) : 0 <= z < 256 -> Z_of_byte (byte_of_Z z) = z.
Proof.
  intros Hz. unfold byte_of_Z, Z_of_byte.
  destruct (Byte.of_N (Z.to_N z)) as [b|] eqn:E.
  - apply Byte.to_of_N in E. rewrite E. lia.
  - apply Byte.of_N_None_iff in E. lia.
Qed.

Lemma land_255_range (z : Z) : 0 <= Z.land z 255 < 256.
Proof.
  change 255 with (Z.ones 8). rewrite Z.land_ones by lia.
  apply Z.mod_pos_bound. reflexivity.
Qed.

Lemma byte_lane_testbit (w k n : Z) :
  0 <= k -> 0 <= n ->
  Z.testbit (Z.shiftl (Z.land (Z.shiftr w k) 255) k) n
  = Z.testbit w n && (k <=? n) && (n <? k + 8).
Proof.
  intros Hk Hn. change 255 with (Z.ones 8).
  rewrite Z.shiftl_spec by lia.
  destruct (Z.leb_spec k n) as [Hkn|Hkn].
  - rewrite Z.land_spec, Z.shiftr_spec, Z.testbit_ones_nonneg by lia.
    replace (n - k + k) with n by lia.
    rewrite andb_true_r. f_equal.
    destruct (Z.ltb_spec (n - k) 8), (Z.ltb_spec n (k + 8)); lia || reflexivity.
  - rewrite Z.testbit_neg_r by lia. now rewrite andb_false_r.
Qed.

Lemma f32_high_bits (w n : Z) : is_f32 w -> 32 <= n -> Z.testbit w n = false.
Proof.
  intros [Hlo Hhi] Hn. destruct (Z.eq_dec w 0) as [->|Hw0].
  - apply Z.testbit_0_l.
  - apply Z.bits_above_log2; [lia|].
    assert (Z.log2 w < 32) by (apply Z.log2_lt_pow2; lia). lia.
Qed.

Lemma f32_bytes_roundtrip (w : Z) :
  is_f32 w ->
  f32_of_bytes (byte_of_Z (Z.land w 255))
    (byte_of_Z (Z.land (Z.shiftr w 8) 255))
    (byte_of_Z (Z.land (Z.shiftr w 16) 255))
    (byte_of_Z (Z.land (Z.shiftr w 24) 255)) = w.
Proof.
  intros Hw. unfold f32_of_bytes.
  rewrite !Z_of_byte_of_Z by apply land_255_range.
  rewrite <- (Z.shiftl_0_r (Z.land w 255)).
  rewrite <- (Z.shiftr_0_r w) at 1.
  apply Z.bits_inj'. intros n Hn.
  rewrite !Z.lor_spec, !byte_lane_testbit by lia.
  destruct (Z_lt_le_dec n 32) as [H32|H32].
  - destruct (Z.testbit w n); [|reflexivity]. cbn [andb].
    destruct (Z.leb_spec 0 n), (Z.ltb_spec n (0 + 8)),
      (Z.leb_spec 8 n), (Z.ltb_spec n (8 + 8)),
      (Z.leb_spec 16 n), (Z.ltb_spec n (16 + 8)),
      (Z.leb_spec 24 n), (Z.ltb_spec n (24 + 8)); cbn; lia || reflexivity.
  - rewrite (f32_high_bits Hw H32). reflexivity.
Qed.

Lemma read_f32s_flat_map (vs : list Z) (rest : list byte) :
  Forall is_f32 vs ->
  read_f32s (List.length vs) (flat_map f32_to_bytes vs ++ rest) = vs.
Proof.
  induction 1 as [|w ws Hw _ IH]; [reflexivity|].
  cbn [flat_map List.length]. unfold f32_to_bytes at 1.
  cbn [app read_f32s].
  rewrite (f32_bytes_roundtrip Hw). f_equal. exact IH.
Qed.

Lemma flat_map_f32_length (vs : list Z) :
  List.length (flat_map f32_to_bytes vs) = (4 * List.length vs)%nat.
Proof.
  induction vs as [|w ws IH]; [reflexivity|].
  cbn [flat_map List.length app f32_to_bytes]. rewrite IH. lia.
Qed.

Lemma f32_elems_new (vs : list Z) :
  Forall is_f32 vs -> f32_elems (new_Float32Array vs) = vs.
Proof.
  intros H. unfold f32_elems, new_Float32Array; cbn [f32_length f32_byteOffset f32_buffer skipn].
  rewrite <- (app_nil_r (flat_map f32_to_bytes vs)).
  apply read_f32s_flat_map, H.
Qed.

Lemma deserialize_serialize_new (vs : list Z) :
  deserializeEmbedding (serializeEmbedding (new_Float32Array vs))
  = Ok (new_Float32Array vs).
Proof.
  unfold deserializeEmbedding, serializeEmbedding, new_Float32Array_view,
    new_Float32Array.
  cbn [buf_buffer buf_byteOffset buf_length f32_buffer].
  rewrite flat_map_f32_length.
  replace (Nat.div (4 * List.length vs) 4) with (List.length vs)
    by (rewrite Nat.mul_comm, Nat.div_mul; [reflexivity|discriminate]).
  cbn [Nat.modulo Nat.eqb negb Nat.add].
  assert (E : Nat.ltb (4 * List.length vs) (4 * List.length vs) = false)
    by (apply Nat.ltb_irrefl).
  change (0 mod 4)%nat with 0%nat. cbn [Nat.eqb negb].
  rewrite E. reflexivity.
Qed.

(** [serializeEmbedding] takes the whole buffer under the array: this is the
    array itself for the arrays [embed] builds, as above, but not for a view
    into a larger buffer, here the second of two elements. *)
Example serialize_view_takes_whole_buffer :
  let view := {| f32_buffer := flat_map f32_to_bytes [1065353216; 1073741824];
                 f32_byteOffset := 4; f32_length := 1 |} in
  f32_elems view = [1073741824] /\
  exists a, deserializeEmbedding (serializeEmbedding view) = Ok a /\
            f32_elems a = [1065353216; 1073741824].
Proof.
  cbv zeta. split; [reflexivity|]. eexists. split; reflexivity.
Qed.

End CodecFacts.

(** ** JS helpers *)

Module JSFacts.

Import JS.
Local Open Scope Q_scope.

Lemma insert_by_In {A} before (x z : A) (l : list A) :
  In z (insert_by before x l) <-> z = x \/ In z l.
Proof.
  induction l as [|y ys IH]; cbn [insert_by].
  - cbn. intuition congruence.
  - destruct (before x y); cbn [In]; [intuition congruence|].
    rewrite IH. intuition congruence.
Qed.

Lemma sort_by_In {A} before (z : A) (l : list A) :
  In z (sort_by before l) <-> In z l.
Proof.
  induction l as [|x xs IH]; cbn [sort_by fold_right In]; [tauto|].
  fold (sort_by before xs). rewrite insert_by_In, IH. intuition congruence.
Qed.

Lemma insert_by_length {A} before (x : A) (l : list A) :
  List.length (insert_by before x l) = S (List.length l).
Proof.
  induction l as [|y ys IH]; cbn [insert_by]; [reflexivity|].
  destruct (before x y); cbn [List.length]; congruence.
Qed.

Lemma sort_by_length {A} before (l : list A) :
  List.length (sort_by before l) = List.length l.
Proof.
  induction l as [|x xs IH]; [reflexivity|].
  cbn [sort_by fold_right]. fold (sort_by before xs).
  rewrite insert_by_length. cbn. congruence.
Qed.



Lemma slice0_incl {A} (l : list A) (limit : Q) : incl (slice0 l limit) l.
Proof.
  assert (F : forall n, incl (firstn n l) l).
  { intros n x Hx. rewrite <- (firstn_skipn n l). apply in_or_app. now left. }
  unfold slice0. destruct (_ <? _)%Z; apply F.
Qed.

Lemma Math_round_mono (x y : Q) : x <= y -> (Math_round x <= Math_round y)%Z.
Proof.
  intros H. unfold Math_round. apply Qfloor_resp_le.
  apply Qplus_le_compat; [exact H | apply Qle_refl].
Qed.




End JSFacts.

(** ** Ranking *)

Module EmbeddingsFacts.

Import Codec Embeddings.
Local Open Scope Q_scope.

Lemma map_result_Ok_In {A B} (f : A -> result B) (l : list A) (ys : list B) :
  map_result f l = Ok ys ->
  forall y, In y ys -> exists x, In x l /\ f x = Ok y.
Proof.
  revert ys. induction l as [|x xs IH]; cbn [map_result]; intros ys H y Hy.
  - injection H as <-. destruct Hy.
  - destruct (f x) as [b|m] eqn:Ef; cbn [rbind] in H; [|discriminate].
    destruct (map_result f xs) as [bs|m] eqn:Em; cbn [rbind] in H; [|discriminate].
    injection H as <-. destruct Hy as [<-|Hy].
    + exists x. split; [now left | exact Ef].
    + destruct (IH bs eq_refl y Hy) as (x' & Hin & Hx').
      exists x'. split; [now right | exact Hx'].
Qed.

Lemma map_result_In_Ok {A B} (f : A -> result B) (l : list A) (ys : list B) (x : A) :
  map_result f l = Ok ys -> In x l -> exists y, f x = Ok y /\ In y ys.
Proof.
  revert ys. induction l as [|a l IH]; cbn [map_result In]; intros ys H Hx; [tauto|].
  destruct (f a) as [b|m] eqn:Ef; cbn [rbind] in H; [|discriminate].
  destruct (map_result f l) as [bs|m]; cbn [rbind] in H; [|discriminate].
  injection H as <-. destruct Hx as [<-|Hx].
  - exists b. split; [exact Ef | now left].
  - destruct (IH bs eq_refl Hx) as (y & Hy & Hin). exists y. split; [exact Hy | now right].
Qed.

Lemma map_result_Throw_In {A B} (f : A -> result B) (l : list A) (x : A) m :
  In x l -> f x = Throw m -> exists m', map_result f l = Throw m'.
Proof.
  induction l as [|y ys IH]; cbn [map_result In]; [tauto|].
  intros [->|Hin] Hx.
  - rewrite Hx. cbn. eauto.
  - destruct (f y); cbn [rbind]; [|eauto].
    destruct (IH Hin Hx) as [m' ->]. cbn. eauto.
Qed.

Lemma map_result_Throw_inv {A B} (f : A -> result B) (l : list A) (m : string) :
  map_result f l = Throw m -> exists x, In x l /\ f x = Throw m.
Proof.
  induction l as [|x xs IH]; cbn [map_result]; [discriminate|].
  destruct (f x) as [b|m'] eqn:Ef; cbn [rbind].
  - destruct (map_result f xs) as [bs|m'] eqn:Em; cbn [rbind]; [discriminate|].
    intros H. injection H as ->. destruct (IH eq_refl) as (y & Hy & Hf).
    exists y. split; [now right | exact Hf].
  - intros H. injection H as ->. exists x. split; [now left | exact Ef].
Qed.

Lemma map_result_length {A B} (f : A -> result B) (l : list A) (ys : list B) :
  map_result f l = Ok ys -> List.length ys = List.length l.
Proof.
  revert ys. induction l as [|x xs IH]; cbn [map_result]; intros ys H.
  - injection H as <-. reflexivity.
  - destruct (f x) as [b|m]; cbn [rbind] in H; [|discriminate].
    destruct (map_result f xs) as [bs|m]; cbn [rbind] in H; [|discriminate].
    injection H as <-. cbn [List.length]. now rewrite (IH bs eq_refl).
Qed.

Lemma findSimilar_spec {Id} q (cands : list (Candidate Id)) limit minSim res :
  findSimilar q cands limit minSim = Ok res ->
  forall r, In r res ->
    minSim <= similarity r /\
    exists c, In c cands /\ match_id r = cand_id c /\
              cosineSimilarity q (cand_embedding c) = Ok (similarity r).
Proof.
  unfold findSimilar. intros H r Hr.
  destruct (map_result _ cands) as [scored|m] eqn:E; cbn [rbind] in H; [|discriminate].
  injection H as <-.
  apply JSFacts.slice0_incl, JSFacts.sort_by_In, filter_In in Hr. destruct Hr as [Hr Hmin].
  split; [now apply Qle_bool_iff|].
  destruct (map_result_Ok_In _ _ E r Hr) as (c & Hc & Hfc).
  exists c. split; [exact Hc|].
  destruct (cosineSimilarity q (cand_embedding c)) as [s|m]; cbn [rbind] in Hfc;
    [|discriminate].
  injection Hfc as <-. cbn. auto.
Qed.


(** A candidate of another dimension makes the whole ranking throw. *)
Lemma findSimilar_mismatch {Id} q (cands : list (Candidate Id)) limit minSim c :
  In c cands -> f32_length q <> f32_length (cand_embedding c) ->
  exists message, findSimilar q cands limit minSim = Throw message.
Proof.
  intros Hin Hne. unfold findSimilar.
  edestruct (@map_result_Throw_In (Candidate Id) (Match Id)) as [m Hm];
    [exact Hin | | rewrite Hm; cbn; eauto].
  unfold cosineSimilarity. apply Nat.eqb_neq in Hne. rewrite Hne. reflexivity.
Qed.

End EmbeddingsFacts.

(** ** Model initialisation: the invariant *)

Module ModelInitFacts.

Import ModelInit.
Local Open Scope nat_scope.

Lemma inv_initial : inv initial.
Proof. cbv. auto. Qed.

Lemma inv_step (s s' : state) (e : event) :
  inv s -> step s e = Some s' -> inv s'.
Proof.
  unfold inv, step. intros I H.
  destruct e as [c| |r];
    destruct (initPromise s) as [[| |r']|] eqn:EP;
    destruct (embeddingPipeline s) as [k|] eqn:EE;
    try discriminate; inversion H; subst s'; clear H; cbn;
    try rewrite EP; cbn; intuition (try congruence).
Qed.

Lemma inv_run (es : list event) (s s' : state) :
  inv s -> run s es = Some s' -> inv s'.
Proof.
  revert s. induction es as [|e es IH]; cbn [run]; intros s I H.
  - now injection H as <-.
  - destruct (step s e) as [s1|] eqn:E; [|discriminate].
    eapply IH; [eapply inv_step; eauto | exact H].
Qed.

Lemma inv_loads_le_1 (s : state) : inv s -> loads s <= 1.
Proof.
  unfold inv. destruct (initPromise s) as [[| |r]|]; intuition lia.
Qed.

Lemma step_keeps_instance (s s' : state) (e : event) (k : nat) :
  inv s -> embeddingPipeline s = Some k -> step s e = Some s' ->
  embeddingPipeline s' = Some k /\ loads s' = loads s.
Proof.
  unfold inv, step. intros I Hk H. rewrite Hk in *.
  destruct e as [c| |r].
  - injection H as <-. cbn. auto.
  - destruct (initPromise s) as [[| |r']|]; try discriminate.
    intuition discriminate.
  - destruct (initPromise s) as [[| |r']|]; try discriminate.
    intuition discriminate.
Qed.

Lemma run_keeps_instance (es : list event) (s s' : state) (k : nat) :
  inv s -> embeddingPipeline s = Some k -> run s es = Some s' ->
  embeddingPipeline s' = Some k /\ loads s' = loads s.
Proof.
  revert s. induction es as [|e es IH]; cbn [run]; intros s I Hk H.
  - injection H as <-. auto.
  - destruct (step s e) as [s1|] eqn:E; [|discriminate].
    destruct (@step_keeps_instance s s1 e k I Hk E) as [Hk1 Hl1].
    destruct (IH s1 (@inv_step s s1 e I E) Hk1 H) as [Hk' Hl'].
    split; [exact Hk' | congruence].
Qed.

End ModelInitFacts.

(** ** Binary64: what the similarity functions keep *)

Module VectorFacts.

Import Codec.

(** IEEE multiplication is commutative. *)
Lemma SFmul_comm (prec emax : Z) (x y : spec_float) :
  SFmul prec emax x y = SFmul prec emax y x.
Proof.
  destruct x as [sx|sx| |sx mx ex], y as [sy|sy| |sy my ey]; cbn [SFmul];
    try reflexivity; try (rewrite xorb_comm; reflexivity).
  rewrite xorb_comm, Pos.mul_comm, Z.add_comm. reflexivity.
Qed.

Lemma mul_comm (x y : float) : (x * y)%float = (y * x)%float.
Proof.
  apply Prim2SF_inj. rewrite !mul_spec. apply SFmul_comm.
Qed.





End VectorFacts.

(** ** The handlers *)

Module ToolsFacts.

Import Codec Database Tools.
Local Open Scope string_scope.

Ltac run_m :=
  cbv beta iota zeta delta
    [bind ret lift get_db try_catch throw preload initialize embed db_logActivity].

Lemma filter_nil_iff {A} (f : A -> bool) (l : list A) :
  filter f l = [] <-> forall x, In x l -> f x = false.
Proof.
  induction l as [|a l IH]; cbn [filter In]; [tauto|].
  destruct (f a) eqn:E; split.
  - discriminate.
  - intros H. specialize (H a (or_introl eq_refl)). congruence.
  - intros H x [<-|Hx]; [exact E | now apply IH].
  - intros H. apply IH. auto.
Qed.

Lemma search_candidates_In (d : Db) (project : string) fileTypes (f : FileIndexRow) :
  In f (search_candidates d project fileTypes) <->
  In f (getIndexedFiles d project) /\ has_embedding f = true
  /\ passes_fileTypes fileTypes f = true.
Proof.
  unfold search_candidates, passes_fileTypes.
  destruct fileTypes as [[|e es]|]; rewrite ?filter_In; tauto.
Qed.

Lemma search_candidates_nil (d : Db) (project : string) fileTypes :
  (forall f, In f (getIndexedFiles d project) -> has_embedding f = true ->
             passes_fileTypes fileTypes f = false) ->
  search_candidates d project fileTypes = [].
Proof.
  intros H. destruct (search_candidates d project fileTypes) as [|f fs] eqn:E;
    [reflexivity|].
  assert (Hin : In f (search_candidates d project fileTypes))
    by (rewrite E; now left).
  apply search_candidates_In in Hin. destruct Hin as (Hi & He & Hp).
  rewrite (H f Hi He) in Hp. discriminate.
Qed.

Lemma search_semantic_no_candidates (env : Env) (w : World)
    (input : SearchSemanticInput) (p : Project) :
  getProject (db w) (ss_project input) = Some p ->
  search_candidates (db w) (ss_project input) (ss_fileTypes input) = [] ->
  search_semantic env input w
  = (Ok (Failure "NO_INDEXED_FILES"
           "No indexed files found. Run pm_index_files first."), w).
Proof.
  intros Hp Hc. unfold search_semantic. run_m. rewrite Hp, Hc. reflexivity.
Qed.

Lemma suggest_candidates_In (d : Db) currentProject includeCurrentProject
    (p : PatternData) :
  In p (suggest_candidates d currentProject includeCurrentProject) <->
  In p (patterns d) /\ has_problem_embedding p = true
  /\ (excludes_current currentProject includeCurrentProject = true ->
      Some (pat_projectId p) <> currentProject).
Proof.
  unfold suggest_candidates.
  assert (G : forall q, In q (getPatterns d None) <-> In q (patterns d))
    by (intros q; unfold getPatterns; apply JSFacts.sort_by_In).
  destruct currentProject as [c|].
  - destruct (excludes_current (Some c) includeCurrentProject) eqn:E.
    + rewrite !filter_In, G, negb_true_iff, String.eqb_neq.
      intuition congruence.
    + rewrite filter_In, G. intuition congruence.
  - rewrite filter_In, G. cbn. intuition congruence.
Qed.

Lemma suggest_patterns_no_candidates (env : Env) (w : World)
    (input : SuggestPatternsInput) :
  suggest_candidates (db w) (sp_currentProject input)
    (match sp_includeCurrentProject input with Some b => b | None => false end) = [] ->
  suggest_patterns env input w
  = (Ok (Success {| sgd_message := Some "No patterns found in knowledge base";
                    sgd_suggestions := [] |}), w).
Proof.
  intros Hc. unfold suggest_patterns. run_m. rewrite Hc. reflexivity.
Qed.

(** A successful [suggest_patterns] returns the suggestions built from the
    matches [findSimilar] found among the candidates. *)
Lemma suggest_patterns_success (env : Env) (w w' : World)
    (input : SuggestPatternsInput) (data : SuggestData) :
  suggest_patterns env input w = (Ok (Success data), w') ->
  let candidates :=
    suggest_candidates (db w) (sp_currentProject input)
      (match sp_includeCurrentProject input with Some b => b | None => false end) in
  sgd_suggestions data = [] \/
  exists problemEmbedding candidatesWithEmbeddings similar,
    map_result (fun p => deserialize_candidate (pat_id p) (pat_problemEmbedding p))
      candidates = Ok candidatesWithEmbeddings /\
    Embeddings.findSimilar problemEmbedding candidatesWithEmbeddings
      (match sp_limit input with Some l => l | None => 5%Q end)
      (match sp_minConfidence input with Some c => c | None => (1 # 2)%Q end)
    = Ok similar /\
    sgd_suggestions data = map (suggestion_of candidates) similar.
Proof.
  unfold suggest_patterns. run_m. cbn [db].
  set (candidates := suggest_candidates _ _ _).
  destruct (Nat.eqb (List.length candidates) 0).
  { intros H. injection H as <- <-. left. reflexivity. }
  destruct (model_load env) as [[]|e]; [|discriminate].
  destruct (model_run env _) as [values|e]; [|discriminate].
  destruct (map_result _ candidates) as [cwe|e] eqn:Ec; [|discriminate].
  destruct (Embeddings.findSimilar _ cwe _ _) as [similar|e] eqn:Ef; [|discriminate].
  intros H. injection H as <- <-. right.
  exists (new_Float32Array values), cwe, similar. auto.
Qed.

(** A successful [search_semantic] returns the hits built from the matches
    [findSimilar] found among the candidates, for the embedding of the
    query. *)
Lemma search_semantic_success (env : Env) (w w' : World)
    (input : SearchSemanticInput) (data : SearchData) :
  search_semantic env input w = (Ok (Success data), w') ->
  let candidates :=
    search_candidates (db w) (ss_project input) (ss_fileTypes input) in
  exists values candidatesWithEmbeddings similar,
    model_run env (JS.prefix_of (Z.to_nat 8000) (ss_query input)) = Ok values /\
    map_result (fun f => deserialize_candidate (fi_path f) (fi_embedding f))
      candidates = Ok candidatesWithEmbeddings /\
    Embeddings.findSimilar (new_Float32Array values) candidatesWithEmbeddings
      (match ss_limit input with Some l => l | None => 10%Q end)
      (match ss_minRelevance input with Some r => r | None => (3 # 10)%Q end)
    = Ok similar /\
    sd_results data = map (search_hit candidates) similar /\
    sd_matchCount data = List.length (sd_results data).
Proof.
  unfold search_semantic. run_m. cbn [db].
  set (candidates := search_candidates _ _ _).
  destruct (getProject (db w) (ss_project input)); [|discriminate].
  destruct (Nat.eqb (List.length candidates) 0); [discriminate|].
  destruct (model_load env) as [[]|e]; [|discriminate].
  destruct (model_run env _) as [values|e] eqn:Er; [|discriminate].
  destruct (map_result _ candidates) as [cwe|e] eqn:Ec; [|discriminate].
  destruct (Embeddings.findSimilar _ cwe _ _) as [similar|e] eqn:Ef; [|discriminate].
  intros H. injection H as <- <-.
  exists values, cwe, similar. cbn. auto.
Qed.

(** An unchanged file, not forced: the body of the batch loop skips it and
    leaves the world as it is. *)
Lemma index_files_body_unchanged (env : Env) (w : World)
    (project projectPath filePath content : string) (row : FileIndexRow) :
  readFile env filePath = Ok content ->
  getIndexedFile (db w) project (path_relative env projectPath filePath) = Some row ->
  fi_content_hash row = md5_hex env content ->
  index_files_body env project projectPath false filePath w = (Ok FileSkipped, w).
Proof.
  intros Hr Hg Hh. unfold index_files_body. run_m.
  rewrite Hr, Hg. unfold same_hash. rewrite Hh, String.eqb_refl. reflexivity.
Qed.

(** A batch made of unchanged files only: every file is skipped and the world
    is left as it is. *)
Lemma index_files_loop_all_unchanged (env : Env) (w : World)
    (project projectPath : string) (allFiles : list string) (c : IndexCounters) :
  (forall filePath, In filePath allFiles ->
     exists content row,
       readFile env filePath = Ok content /\
       getIndexedFile (db w) project (path_relative env projectPath filePath)
         = Some row /\
       fi_content_hash row = md5_hex env content) ->
  index_files_loop env project projectPath false allFiles c w
  = (mkIndexCounters (cnt_indexed c) (cnt_skipped c + List.length allFiles)
       (cnt_errors c), w).
Proof.
  revert c. induction allFiles as [|f fs IH]; intros c H.
  - cbn. rewrite Nat.add_0_r. destruct c; reflexivity.
  - cbn [index_files_loop].
    destruct (H f (or_introl eq_refl)) as (content & row & Hr & Hg & Hh).
    rewrite (@index_files_body_unchanged env w project projectPath f content row
               Hr Hg Hh).
    rewrite IH by (intros g Hg'; apply H; now right).
    cbn [cnt_indexed cnt_skipped cnt_errors List.length]. f_equal. f_equal. lia.
Qed.

(** The loop runs the body once on every file, in order, and counts what
    the passes gave. *)
Lemma index_files_loop_passes (env : Env) (project projectPath : string)
    (reindex : bool) (allFiles : list string) :
  forall (c : IndexCounters) (w : World),
  exists (outs : list (result FileOutcome)) (w' : World),
    loop_passes env project projectPath reindex allFiles w outs w' /\
    index_files_loop env project projectPath reindex allFiles c w
    = (mkIndexCounters (cnt_indexed c + indexed_passes outs)%nat
         (cnt_skipped c + skipped_passes outs)%nat
         (cnt_errors c ++ error_lines allFiles outs)%list, w').
Proof.
  induction allFiles as [|f fs IH]; intros c w.
  - exists [], w. split; [constructor|]. cbn.
    rewrite !Nat.add_0_r, app_nil_r. now destruct c.
  - cbn [index_files_loop].
    destruct (index_files_body env project projectPath reindex f w)
      as [[[|]|e] w1] eqn:Eb.
    + destruct (IH (mkIndexCounters (cnt_indexed c) (S (cnt_skipped c))
                      (cnt_errors c)) w1) as (outs & w' & Hp & Hl).
      exists (Ok FileSkipped :: outs), w'. split; [econstructor; eassumption|].
      rewrite Hl. unfold indexed_passes, skipped_passes.
      cbn [filter List.length error_lines cnt_indexed cnt_skipped cnt_errors].
      f_equal. f_equal. lia.
    + destruct (IH (mkIndexCounters (S (cnt_indexed c)) (cnt_skipped c)
                      (cnt_errors c)) w1) as (outs & w' & Hp & Hl).
      exists (Ok FileIndexed :: outs), w'. split; [econstructor; eassumption|].
      rewrite Hl. unfold indexed_passes, skipped_passes.
      cbn [filter List.length error_lines cnt_indexed cnt_skipped cnt_errors].
      f_equal. f_equal. lia.
    + destruct (IH (mkIndexCounters (cnt_indexed c) (cnt_skipped c)
                      (cnt_errors c ++ [(f ++ ": " ++ e)%string])%list) w1)
        as (outs & w' & Hp & Hl).
      exists (Throw e :: outs), w'. split; [econstructor; eassumption|].
      rewrite Hl. unfold indexed_passes, skipped_passes.
      cbn [filter List.length error_lines cnt_indexed cnt_skipped cnt_errors].
      rewrite <- app_assoc. reflexivity.
Qed.

Lemma loop_passes_account (env : Env) (project projectPath : string)
    (reindex : bool) (allFiles : list string) (w w' : World)
    (outs : list (result FileOutcome)) :
  loop_passes env project projectPath reindex allFiles w outs w' ->
  (List.length outs = List.length allFiles)%nat /\
  (indexed_passes outs + skipped_passes outs
     + List.length (error_lines allFiles outs) = List.length allFiles)%nat.
Proof.
  unfold indexed_passes, skipped_passes.
  induction 1 as [w|f fs w w1 w' out outs Hb Hp [IH1 IH2]]; [split; reflexivity|].
  destruct out as [[|]|e];
    cbn [filter List.length error_lines]; split; lia.
Qed.

(** A file that cannot be read has its line among the errors, wherever it
    stands in the batch. *)
Lemma loop_passes_read_failure (env : Env) (project projectPath : string)
    (reindex : bool) (allFiles : list string) (w w' : World)
    (outs : list (result FileOutcome)) :
  loop_passes env project projectPath reindex allFiles w outs w' ->
  forall (f e : string),
    In f allFiles -> readFile env f = Throw e ->
    In (f ++ ": " ++ e) (error_lines allFiles outs).
Proof.
  induction 1 as [w|f0 fs w w1 w' out outs Hb Hp IH]; intros f e Hin Hr;
    [destruct Hin|].
  destruct Hin as [->|Hin].
  - unfold index_files_body in Hb. run_m. rewrite Hr in Hb.
    injection Hb as <- <-. cbn [error_lines]. now left.
  - specialize (IH f e Hin Hr).
    destruct out as [o|e0]; cbn [error_lines]; [exact IH | now right].
Qed.

End ToolsFacts.

(* ================================================================== *)
(** * The claims *)
(* ================================================================== *)

Module Retrieval.

Import Codec Database Tools ToolsFacts.
Local Open Scope string_scope.
Local Open Scope Q_scope.




(** C5.  For an existing project none of whose indexed files has an
    embedding and passes the optional file-type filter, [search_semantic]
    returns the error [NO_INDEXED_FILES], not a success, and touches
    nothing. *)
Theorem search_semantic_no_indexed_content (env : Env) (w : World)
    (input : SearchSemanticInput) (p : Project) :
  getProject (db w) (ss_project input) = Some p ->
  (forall f, In f (getIndexedFiles (db w) (ss_project input)) ->
             has_embedding f = true ->
             passes_fileTypes (ss_fileTypes input) f = false) ->
  search_semantic env input w
  = (Ok (Failure "NO_INDEXED_FILES"
           "No indexed files found. Run pm_index_files first."), w).
Proof.
  intros Hp Hnone.
  apply search_semantic_no_candidates with p; [exact Hp|].
  apply search_candidates_nil, Hnone.
Qed.

(** Project [empty] has one row, without embedding. *)
Lemma search_semantic_no_indexed_content_witness :
  search_semantic Demo.env
    (mkSearchSemanticInput "anything" "empty" None None None) Demo.world0
  = (Ok (Failure "NO_INDEXED_FILES"
           "No indexed files found. Run pm_index_files first."), Demo.world0).
Proof.
  apply (search_semantic_no_indexed_content Demo.env Demo.world0
           (mkSearchSemanticInput "anything" "empty" None None None)
           (p := mkProject "empty" "Empty" "/empty")).
  - reflexivity.
  - intros f Hf He. vm_compute in Hf. destruct Hf as [<-|[]].
    vm_compute in He. discriminate He.
Defined.

(** C6, as stated, fails for the empty project identifier: the guard
    [currentProject && !includeCurrentProject] takes an empty [currentProject]
    for an absent one, and the pattern recorded in the project registered
    under the identifier [""] is suggested to that very project. *)
Lemma suggest_patterns_empty_current_project :
  exists data w',
    suggest_patterns Demo.env
      (mkSuggestPatternsInput "requests time out" (Some "") None None (Some false))
      Demo.world0
    = (Ok (Success data), w') /\
    exists s, In s (sgd_suggestions data) /\ sg_project s = "".
Proof.
  eexists. eexists. split; [vm_compute; reflexivity|].
  eexists. split; [left; reflexivity|]. reflexivity.
Qed.

(** C6, amended.  Called with a non-empty current project [P] and the
    include-current-project flag false (or absent), [suggest_patterns] never
    returns a suggestion whose origin project is [P]. *)
Theorem suggest_patterns_excludes_current_project (env : Env) (w w' : World)
    (input : SuggestPatternsInput) (data : SuggestData) (P : string) :
  sp_currentProject input = Some P ->
  P <> "" ->
  sp_includeCurrentProject input = None \/ sp_includeCurrentProject input = Some false ->
  suggest_patterns env input w = (Ok (Success data), w') ->
  forall s, In s (sgd_suggestions data) -> sg_project s <> P.
Proof.
  intros HP Hne Hinc H s Hs.
  apply suggest_patterns_success in H. cbv zeta in H.
  destruct H as [Hnil | (qe & cwe & similar & _ & _ & Hres)].
  { rewrite Hnil in Hs. destruct Hs. }
  rewrite Hres in Hs. apply in_map_iff in Hs. destruct Hs as (m & <- & _).
  unfold suggestion_of. cbn [sg_project].
  match goal with |- context [find ?f ?l] => destruct (find f l) as [p|] eqn:Ef end.
  - apply find_some in Ef. destruct Ef as [Hin _].
    apply suggest_candidates_In in Hin. destruct Hin as (_ & _ & Hex).
    rewrite HP in Hex. intros Heq. apply Hex; [|congruence].
    unfold excludes_current, JS.truthy.
    apply String.eqb_neq in Hne. rewrite Hne.
    destruct Hinc as [-> | ->]; reflexivity.
  - intros Heq. apply Hne. symmetry. exact Heq.
Qed.

(** Called from project [demo], the only suggestion is the pattern of the
    other project. *)
Lemma suggest_patterns_excludes_current_project_witness :
  exists data w',
    suggest_patterns Demo.env
      (mkSuggestPatternsInput "requests time out" (Some "demo") None None None)
      Demo.world0
    = (Ok (Success data), w') /\
    sgd_suggestions data <> [] /\
    Forall (fun s => sg_project s <> "demo") (sgd_suggestions data).
Proof.
  eexists. eexists. split; [vm_compute; reflexivity|]. split; [discriminate|].
  apply Forall_forall.
  eapply (@suggest_patterns_excludes_current_project Demo.env Demo.world0 _
            (mkSuggestPatternsInput "requests time out" (Some "demo") None None None)
            _ "demo").
  - reflexivity.
  - discriminate.
  - left. reflexivity.
  - vm_compute. reflexivity.
Defined.

(** C10.  When no stored pattern is a candidate (each lacks an embedding or
    is excluded as the current project's), [suggest_patterns] succeeds with an
    empty list of suggestions and touches nothing; [search_semantic], left
    without candidates in an existing project, returns the error
    [NO_INDEXED_FILES] instead. *)
Theorem suggest_patterns_no_candidates_is_success (env : Env) (w : World)
    (input : SuggestPatternsInput) :
  let includeCurrentProject :=
    match sp_includeCurrentProject input with Some b => b | None => false end in
  (forall p, In p (patterns (db w)) -> has_problem_embedding p = true ->
     excludes_current (sp_currentProject input) includeCurrentProject = true /\
     Some (pat_projectId p) = sp_currentProject input) ->
  suggest_patterns env input w
  = (Ok (Success {| sgd_message := Some "No patterns found in knowledge base";
                    sgd_suggestions := [] |}), w)
  /\ forall (input' : SearchSemanticInput) (p : Project),
       getProject (db w) (ss_project input') = Some p ->
       search_candidates (db w) (ss_project input') (ss_fileTypes input') = [] ->
       search_semantic env input' w
       = (Ok (Failure "NO_INDEXED_FILES"
                "No indexed files found. Run pm_index_files first."), w).
Proof.
  intros inc Hnone. split.
  - apply suggest_patterns_no_candidates. fold inc.
    destruct (suggest_candidates (db w) (sp_currentProject input) inc)
      as [|c cs] eqn:E; [reflexivity|].
    assert (Hin : In c (suggest_candidates (db w) (sp_currentProject input) inc))
      by (rewrite E; now left).
    apply suggest_candidates_In in Hin. destruct Hin as (Hp & He & Hx).
    destruct (Hnone c Hp He) as [Hex Heq]. destruct (Hx Hex Heq).
  - intros input' p. apply search_semantic_no_candidates.
Qed.

(** A knowledge base whose only embedded pattern belongs to the caller,
    [demo]; the other pattern has no embedding. *)
Lemma suggest_patterns_no_candidates_is_success_witness :
  let w := mkWorld (mkDb (projects Demo.db0) (file_index Demo.db0)
                      [Demo.pattern_row 2 "demo" (Demo.stored [Demo.f_one]);
                       Demo.pattern_row 3 "other" None] []) [] in
  suggest_patterns Demo.env
    (mkSuggestPatternsInput "requests time out" (Some "demo") None None None) w
  = (Ok (Success {| sgd_message := Some "No patterns found in knowledge base";
                    sgd_suggestions := [] |}), w)
  /\ search_semantic Demo.env
       (mkSearchSemanticInput "anything" "empty" None None None) w
     = (Ok (Failure "NO_INDEXED_FILES"
              "No indexed files found. Run pm_index_files first."), w).
Proof.
  intros w.
  destruct (suggest_patterns_no_candidates_is_success Demo.env w
              (mkSuggestPatternsInput "requests time out" (Some "demo") None None None))
    as [Hs Hq].
  - intros p Hp He. cbn in Hp. destruct Hp as [<-|[<-|[]]].
    + split; reflexivity.
    + discriminate He.
  - split; [exact Hs|].
    apply (Hq (mkSearchSemanticInput "anything" "empty" None None None)
              (mkProject "empty" "Empty" "/empty")); reflexivity.
Defined.

End Retrieval.

Module Indexing.

Import Codec Database Tools ToolsFacts.
Local Open Scope nat_scope.
Local Open Scope string_scope.

(** C2.  A file whose content hash equals the hash stored for
    [(project, path)], indexed without force, is skipped, and the world is
    left as it was: no embedding invocation, no write to the store.  In the
    batch ([pm_index_files]) the loop body skips the file and the loop goes on
    with [skipped] incremented, so that a batch of unchanged files reports
    them all as skipped; the single-file entry point ([pm_index_file]) returns
    a skipped outcome. *)
Theorem unchanged_file_is_skipped (env : Env) (w : World) :
  (forall (project projectPath filePath content : string) (row : FileIndexRow),
     readFile env filePath = Ok content ->
     getIndexedFile (db w) project (path_relative env projectPath filePath)
       = Some row ->
     fi_content_hash row = md5_hex env content ->
     index_files_body env project projectPath false filePath w
       = (Ok FileSkipped, w)
     /\ forall (rest : list string) (c : IndexCounters),
          index_files_loop env project projectPath false (filePath :: rest) c w
          = index_files_loop env project projectPath false rest
              (mkIndexCounters (cnt_indexed c) (S (cnt_skipped c)) (cnt_errors c)) w)
  /\
  (forall (input : IndexFilesInput) (p : Project),
     getProject (db w) (ifs_project input) = Some p ->
     model_load env = Ok tt ->
     ifs_reindex input = None \/ ifs_reindex input = Some false ->
     (forall filePath,
        In filePath (discover env (proj_path p) (ifs_paths input)) ->
        exists content row,
          readFile env filePath = Ok content /\
          getIndexedFile (db w) (ifs_project input)
            (path_relative env (proj_path p) filePath) = Some row /\
          fi_content_hash row = md5_hex env content) ->
     pm_index_files env input w
     = (Ok (Success
              {| ifd_totalFiles :=
                   List.length (discover env (proj_path p) (ifs_paths input));
                 ifd_indexed := 0;
                 ifd_skipped :=
                   List.length (discover env (proj_path p) (ifs_paths input));
                 ifd_errors := None |}), w))
  /\
  (forall (input : IndexFileInput) (p : Project) (content : string)
          (row : FileIndexRow),
     getProject (db w) (if_project input) = Some p ->
     existsSync env (path_join env (proj_path p) (if_path input)) = true ->
     readFile env (path_join env (proj_path p) (if_path input)) = Ok content ->
     getIndexedFile (db w) (if_project input) (if_path input) = Some row ->
     fi_content_hash row = md5_hex env content ->
     if_force input = None \/ if_force input = Some false ->
     exists reason,
       pm_index_file env input w = (Ok (Success (Skipped reason)), w)).
Proof.
  split; [|split].
  - intros project projectPath filePath content row Hr Hg Hh.
    pose proof (@index_files_body_unchanged env w project projectPath filePath
                  content row Hr Hg Hh) as B.
    split; [exact B|]. intros rest c. cbn [index_files_loop]. rewrite B.
    reflexivity.
  - intros input p Hp Hl Hre Hall.
    unfold pm_index_files. run_m. rewrite Hp, Hl.
    assert (E : match ifs_reindex input with Some b => b | None => false end = false)
      by (destruct Hre as [-> | ->]; reflexivity).
    rewrite E. rewrite index_files_loop_all_unchanged by exact Hall.
    reflexivity.
  - intros input p content row Hp He Hr Hg Hh Hf.
    unfold pm_index_file. run_m. rewrite Hp, He. cbn [negb].
    destruct (is_text_extension _); cbn [negb]; [|eauto].
    rewrite Hr, Hg. unfold same_hash. rewrite Hh, String.eqb_refl.
    destruct Hf as [-> | ->]; cbn; eauto.
Qed.

(** [a.ts] of project [demo] is indexed under the hash of its content. *)
Lemma unchanged_file_is_skipped_witness :
  index_files_body Demo.env "demo" "/demo" false "/demo/a.ts" Demo.world0
    = (Ok FileSkipped, Demo.world0)
  /\ pm_index_file Demo.env (mkIndexFileInput "demo" "a.ts" None) Demo.world0
     = (Ok (Success (Skipped "File unchanged")), Demo.world0).
Proof.
  destruct (unchanged_file_is_skipped Demo.env Demo.world0) as (B & _ & S).
  split.
  - refine (proj1 (B "demo" "/demo" "/demo/a.ts" "content of /demo/a.ts"
                     (Demo.file_row "a.ts" (Demo.stored [Demo.f_39_128])) _ _ _));
      reflexivity.
  - destruct (S (mkIndexFileInput "demo" "a.ts" None)
                (mkProject "demo" "Demo" "/demo") "content of /demo/a.ts"
                (Demo.file_row "a.ts" (Demo.stored [Demo.f_39_128]))
                eq_refl eq_refl eq_refl eq_refl eq_refl (or_introl eq_refl))
      as [reason Hreason].
    pose proof Hreason as Hr. vm_compute in Hr. injection Hr as <-.
    exact Hreason.
Defined.

(** C7.  Once the project is found and the model preloaded, a batch run
    over any discovered files returns a successful aggregate whatever fails
    on single files (reading, embedding, [stat], the write).  The loop body
    is run once on every file, in order, each pass in the world the one
    before has left: a pass that throws is caught and the next file is
    processed.  [indexed] and [skipped] count the passes that ended so, the
    reported errors are the first 10 lines of the passes that threw (none
    is reported when no pass threw), and every file is counted once.  In
    particular a file that cannot be read has its line among the errors
    of the run. *)
Theorem pm_index_files_never_aborts (env : Env) (w : World)
    (input : IndexFilesInput) (p : Project) :
  let project := ifs_project input in
  let reindex := match ifs_reindex input with Some b => b | None => false end in
  let allFiles := discover env (proj_path p) (ifs_paths input) in
  getProject (db w) project = Some p ->
  model_load env = Ok tt ->
  exists (outs : list (result FileOutcome)) (w' : World),
    loop_passes env project (proj_path p) reindex allFiles w outs w' /\
    pm_index_files env input w
    = (Ok (Success
             {| ifd_totalFiles := List.length allFiles;
                ifd_indexed := indexed_passes outs;
                ifd_skipped := skipped_passes outs;
                ifd_errors :=
                  match error_lines allFiles outs with
                  | [] => None
                  | lines => Some (firstn 10 lines)
                  end |}), w') /\
    List.length outs = List.length allFiles /\
    indexed_passes outs + skipped_passes outs
      + List.length (error_lines allFiles outs) = List.length allFiles /\
    List.length (firstn 10 (error_lines allFiles outs)) <= 10 /\
    forall f e, In f allFiles -> readFile env f = Throw e ->
      In (f ++ ": " ++ e) (error_lines allFiles outs).
Proof.
  intros project reindex allFiles Hp Hl.
  destruct (index_files_loop_passes env project (proj_path p) reindex allFiles
              (mkIndexCounters 0 0 []) w) as (outs & w' & Hpass & Hloop).
  destruct (loop_passes_account Hpass) as [Hlen Hacc].
  exists outs, w'. split; [exact Hpass|]. split; [|split; [|split; [|split]]].
  - unfold pm_index_files. run_m. fold project. rewrite Hp, Hl.
    fold allFiles reindex. rewrite Hloop.
    unfold index_files_data.
    cbn [cnt_indexed cnt_skipped cnt_errors Nat.add app].
    destruct (error_lines allFiles outs); reflexivity.
  - exact Hlen.
  - exact Hacc.
  - rewrite length_firstn. apply Nat.le_min_l.
  - intros f e Hin Hr. eapply loop_passes_read_failure; eassumption.
Qed.

(** The batch over project [demo]: [a.ts] is unchanged, [locked.ts] cannot be
    read, [new.ts] is indexed. *)
Lemma pm_index_files_never_aborts_witness :
  fst (pm_index_files Demo.env (mkIndexFilesInput "demo" None None) Demo.world0)
    = Ok (Success
            (mkIndexFilesData 3 1 1
               (Some ["/demo/locked.ts: EACCES: permission denied, open '/demo/locked.ts'"])))
  /\ exists (outs : list (result FileOutcome)) (w' : World),
       loop_passes Demo.env "demo" "/demo" false
         ["/demo/a.ts"; "/demo/locked.ts"; "/demo/new.ts"] Demo.world0 outs w' /\
       indexed_passes outs + skipped_passes outs
         + List.length
             (error_lines ["/demo/a.ts"; "/demo/locked.ts"; "/demo/new.ts"] outs)
         = 3 /\
       In "/demo/locked.ts: EACCES: permission denied, open '/demo/locked.ts'"
         (error_lines ["/demo/a.ts"; "/demo/locked.ts"; "/demo/new.ts"] outs).
Proof.
  split; [vm_compute; reflexivity|].
  destruct (pm_index_files_never_aborts Demo.env Demo.world0
              (mkIndexFilesInput "demo" None None)
              (p := mkProject "demo" "Demo" "/demo") eq_refl eq_refl)
    as (outs & w' & Hpass & _ & _ & Hacc & _ & Hread).
  exists outs, w'. split; [exact Hpass|]. split; [exact Hacc|].
  apply (Hread "/demo/locked.ts"); [cbn; tauto | reflexivity].
Defined.

End Indexing.

Module Vectors.

Import Codec Database Tools ToolsFacts VectorFacts.
Local Open Scope string_scope.




(** C4.  An embedding built from any sequence of float32 values, as [embed]
    builds it, comes back from [deserializeEmbedding (serializeEmbedding v)]
    with the same length and the same bit pattern in every element. *)
Theorem serialize_deserialize_roundtrip (values : list Z) :
  Forall is_f32 values ->
  exists a,
    deserializeEmbedding (serializeEmbedding (new_Float32Array values)) = Ok a /\
    f32_length a = List.length values /\
    f32_elems a = values.
Proof.
  intros H. exists (new_Float32Array values).
  split; [apply CodecFacts.deserialize_serialize_new|].
  split; [reflexivity | apply CodecFacts.f32_elems_new, H].
Qed.

(** 1.0, -0.5, a NaN and 0.3046875 survive bit for bit. *)
Lemma serialize_deserialize_roundtrip_witness :
  exists a,
    deserializeEmbedding
      (serializeEmbedding
         (new_Float32Array [Demo.f_one; Demo.f_neg_half; Demo.f_nan; Demo.f_39_128]))
    = Ok a /\
    f32_length a = 4%nat /\
    f32_elems a = [Demo.f_one; Demo.f_neg_half; Demo.f_nan; Demo.f_39_128].
Proof.
  apply (@serialize_deserialize_roundtrip
           [Demo.f_one; Demo.f_neg_half; Demo.f_nan; Demo.f_39_128]).
  repeat constructor; discriminate.
Defined.

(** C8, as stated, fails for database.ts.  A query [(1, 0)] meets a stored
    row of three elements: [cosineSimilarity] returns 0 and
    [searchFilesByEmbedding] returns the row scored 0, exactly as it returns
    a row whose vector [(0, 1)] is orthogonal to the query.  Nothing in the
    result tells the stale row from the valid one. *)
Lemma database_mismatch_is_silent :
  let query := new_Float32Array [Demo.f_one; 0%Z] in
  let stale := new_Float32Array [0%Z; Demo.f_one; 0%Z] in
  let valid := new_Float32Array [0%Z; Demo.f_one] in
  let row v := mkFileIndexRow "p" "x.ts" None 1 "h" None
                 (Some (serializeEmbedding v)) "t" in
  let store v := mkDb [mkProject "p" "P" "/p"] [row v] [] [] in
  f32_length query <> f32_length stale
  /\ Database.cosineSimilarity query stale = 0%float
  /\ searchFilesByEmbedding (store stale) "p" (serializeEmbedding query) 10
     = Ok [mkScoredFile (row stale) 0%float]
  /\ searchFilesByEmbedding (store valid) "p" (serializeEmbedding query) 10
     = Ok [mkScoredFile (row valid) 0%float].
Proof.
  intros query stale valid row store.
  split; [discriminate|]. repeat split; vm_compute; reflexivity.
Qed.

(** C8, amended.  For vectors of different lengths, [cosineSimilarity] of
    embeddings.ts throws an error naming both dimensions, and the error is
    not swallowed on the way up: [findSimilar] throws as soon as one
    candidate has another dimension than the query, and a [search_semantic]
    whose query embedding meets such a stored row does not return a success.
    [cosineSimilarity] of database.ts returns the sentinel 0 and gives no
    signal: when the stored embeddings of the project can be read,
    [searchFilesByEmbedding] does not throw, and ranks the row of the other
    dimension with score 0 among all the rows of the project that have an
    embedding. *)
Theorem dimension_mismatch_throws_or_scores_zero (a b : Float32Array) :
  f32_length a <> f32_length b ->
  Embeddings.cosineSimilarity a b
    = Throw ("Embedding dimensions don't match: "
               ++ nat_to_string (f32_length a) ++ " vs "
               ++ nat_to_string (f32_length b))
  /\ Binary64.cosineSimilarity a b
     = Throw ("Embedding dimensions don't match: "
                ++ nat_to_string (f32_length a) ++ " vs "
                ++ nat_to_string (f32_length b))
  /\ (forall (Id : Type) (candidates : list (Embeddings.Candidate Id))
             (limit minSimilarity : Q) (c : Embeddings.Candidate Id),
        In c candidates -> Embeddings.cand_embedding c = b ->
        exists message,
          Embeddings.findSimilar a candidates limit minSimilarity = Throw message)
  /\ (forall (env : Env) (w : World) (input : SearchSemanticInput)
             (values : list Z) (row : FileIndexRow) (buffer : Buffer),
        model_run env (JS.prefix_of (Z.to_nat 8000) (ss_query input)) = Ok values ->
        a = new_Float32Array values ->
        In row (search_candidates (db w) (ss_project input) (ss_fileTypes input)) ->
        fi_embedding row = Some buffer ->
        deserializeEmbedding buffer = Ok b ->
        forall data w', search_semantic env input w <> (Ok (Success data), w'))
  /\ Database.cosineSimilarity a b = 0%float
  /\ (forall (d : Db) (projectId : string) (queryEmbedding : Buffer) (limit : Q)
             (row : FileIndexRow) (buffer : Buffer),
        deserializeEmbedding queryEmbedding = Ok a ->
        In row (file_index d) ->
        fi_project_id row = projectId ->
        fi_embedding row = Some buffer ->
        deserializeEmbedding buffer = Ok b ->
        (forall r e, In r (file_index d) -> fi_project_id r = projectId ->
                     fi_embedding r = Some e ->
                     exists v, deserializeEmbedding e = Ok v) ->
        exists ranked,
          searchFilesByEmbedding d projectId queryEmbedding limit
            = Ok (JS.slice0 ranked limit) /\
          In (mkScoredFile row 0%float) ranked /\
          List.length ranked
            = List.length
                (filter (fun r => String.eqb (fi_project_id r) projectId
                                  && match fi_embedding r with
                                     | Some _ => true
                                     | None => false
                                     end)
                   (file_index d))).
Proof.
  intros Hne. split; [|split; [|split; [|split; [|split]]]].
  - unfold Embeddings.cosineSimilarity.
    apply Nat.eqb_neq in Hne. rewrite Hne. reflexivity.
  - unfold Binary64.cosineSimilarity.
    apply Nat.eqb_neq in Hne. rewrite Hne. reflexivity.
  - intros Id candidates limit minSimilarity c Hin Hc.
    eapply EmbeddingsFacts.findSimilar_mismatch; [exact Hin|]. now rewrite Hc.
  - intros env w input values row buffer Hrun Ha Hrow Hbuf Hdes data w' H.
    apply search_semantic_success in H. cbv zeta in H.
    destruct H as (values' & cwe & similar & Hrun' & Hmap & Hfind & _).
    rewrite Hrun in Hrun'. injection Hrun' as <-. rewrite <- Ha in Hfind.
    destruct (@EmbeddingsFacts.map_result_In_Ok _ _ _ _ _ _ Hmap Hrow)
      as (c & Hc & Hin).
    unfold deserialize_candidate in Hc. rewrite Hbuf, Hdes in Hc. cbn in Hc.
    injection Hc as <-.
    destruct (@EmbeddingsFacts.findSimilar_mismatch string a cwe
                (match ss_limit input with Some l => l | None => 10%Q end)
                (match ss_minRelevance input with Some r => r | None => (3 # 10)%Q end)
                _ Hin Hne) as [m Hm].
    rewrite Hm in Hfind. discriminate Hfind.
  - unfold Database.cosineSimilarity.
    apply Nat.eqb_neq in Hne. rewrite Hne. reflexivity.
  - intros d projectId queryEmbedding limit row buffer Hq Hrow Hp Hbuf Hdes Hall.
    unfold searchFilesByEmbedding.
    fold (deserializeEmbedding queryEmbedding). rewrite Hq. cbn [rbind].
    set (files := filter _ (file_index d)).
    set (score := fun file : FileIndexRow => _).
    assert (Hfiles : forall r, In r files -> exists sf, score r = Ok sf).
    { intros r Hr. apply filter_In in Hr. destruct Hr as [Hin Hsel].
      apply andb_true_iff in Hsel. destruct Hsel as [Hpr He].
      apply String.eqb_eq in Hpr. unfold score.
      destruct (fi_embedding r) as [e|] eqn:Ee; [|discriminate].
      destruct (Hall r e Hin Hpr Ee) as [v Hv].
      fold (deserializeEmbedding e). rewrite Hv. cbn [rbind]. eauto. }
    destruct (map_result score files) as [scored|m] eqn:Em.
    + cbn [rbind]. exists (JS.sort_by score_before scored).
      split; [reflexivity|]. split.
      * apply JSFacts.sort_by_In.
        assert (Hin : In row files).
        { apply filter_In. split; [exact Hrow|].
          rewrite Hp, String.eqb_refl, Hbuf. reflexivity. }
        destruct (@EmbeddingsFacts.map_result_In_Ok _ _ _ _ _ _ Em Hin) as (sf & Hsf & Hsin).
        unfold score in Hsf. rewrite Hbuf in Hsf.
        fold (deserializeEmbedding buffer) in Hsf. rewrite Hdes in Hsf.
        cbn [rbind] in Hsf. injection Hsf as <-.
        unfold Database.cosineSimilarity in Hsin.
        apply Nat.eqb_neq in Hne. rewrite Hne in Hsin. exact Hsin.
      * rewrite JSFacts.sort_by_length.
        eapply EmbeddingsFacts.map_result_length; exact Em.
    + exfalso. apply EmbeddingsFacts.map_result_Throw_inv in Em.
      destruct Em as (r & Hr & Ht). destruct (Hfiles r Hr) as [sf Hsf].
      congruence.
Qed.

(** A one-element query against a stored two-element vector. *)
Lemma dimension_mismatch_throws_or_scores_zero_witness :
  let a := new_Float32Array [Demo.f_one] in
  let b := new_Float32Array [Demo.f_half; Demo.f_half] in
  let row := mkFileIndexRow "p" "stale.ts" None 1 "h" None
               (Some (serializeEmbedding b)) "t" in
  Embeddings.cosineSimilarity a b = Throw "Embedding dimensions don't match: 1 vs 2"
  /\ (exists message,
        Embeddings.findSimilar a [Embeddings.mkCandidate "stale.ts" b] 10 (3 # 10)
        = Throw message)
  /\ Database.cosineSimilarity a b = 0%float
  /\ exists ranked,
       searchFilesByEmbedding (mkDb [mkProject "p" "P" "/p"] [row] [] []) "p" (serializeEmbedding a) 10
         = Ok (JS.slice0 ranked 10) /\
       In (mkScoredFile row 0%float) ranked.
Proof.
  intros a b row.
  destruct (@dimension_mismatch_throws_or_scores_zero a b) as (He & _ & Hf & _ & Hd & Hs).
  - discriminate.
  - split; [exact He|]. split; [|split; [exact Hd|]].
    + apply (Hf string [Embeddings.mkCandidate "stale.ts" b] 10%Q (3 # 10)%Q
               (Embeddings.mkCandidate "stale.ts" b)); [now left | reflexivity].
    + destruct (Hs (mkDb [mkProject "p" "P" "/p"] [row] [] []) "p" (serializeEmbedding a) 10%Q row
                  (serializeEmbedding b)) as (ranked & Hr & Hin & _).
      * vm_compute. reflexivity.
      * now left.
      * reflexivity.
      * reflexivity.
      * vm_compute. reflexivity.
      * intros r e [<-|[]] _ Hre. injection Hre as <-. eexists.
        vm_compute. reflexivity.
      * exists ranked. split; [exact Hr | exact Hin].
Defined.

End Vectors.

Module Initialisation.

Import ModelInit ModelInitFacts.
Local Open Scope nat_scope.

(** C9.  In every state [s] the process can reach: nothing is loaded before
    the first call, and a call arriving when no load was started starts one
    and waits for it; at most one load is ever started; a call arriving while
    the load is pending starts none and joins the callers awaiting it, all of
    whom the one load settles; and an instance, once set, stays the same
    whatever happens next, without another load. *)
Theorem initialize_lazy_single_flight (events : list event) (s : state) :
  run initial events = Some s ->
  (loads initial = 0 /\ embeddingPipeline initial = None)
  /\ (loads s = 0 ->
      forall c, exists s1,
        step s (Call c) = Some s1 /\ loads s1 = 1 /\
        initPromise s1 = Some Pending /\ awaiting s1 = [c])
  /\ loads s <= 1
  /\ (initPromise s = Some Pending ->
      (forall c, exists s1,
         step s (Call c) = Some s1 /\ loads s1 = loads s /\
         initPromise s1 = Some Pending /\ awaiting s1 = awaiting s ++ [c])
      /\ (exists s1,
            step s LoadResolves = Some s1 /\
            embeddingPipeline s1 = Some 1 /\
            forall c, In c (awaiting s) -> In (c, Ok tt) (settled s1)))
  /\ (forall k, embeddingPipeline s = Some k ->
      forall more s', run s more = Some s' ->
        embeddingPipeline s' = Some k /\ loads s' = loads s).
Proof.
  intros Hrun.
  assert (I : inv s) by (eapply inv_run; [apply inv_initial | exact Hrun]).
  split; [split; reflexivity|]. split; [|split; [|split]].
  - intros H0 c. unfold inv in I. unfold step.
    destruct (initPromise s) as [[| |r]|] eqn:EP; try (exfalso; intuition lia).
    destruct I as (_ & -> & ->). eexists. split; [reflexivity|]. cbn.
    rewrite H0. auto.
  - apply inv_loads_le_1, I.
  - intros HP. unfold inv in I. rewrite HP in I. destruct I as [Hl He]. split.
    + intros c. unfold step. rewrite He, HP. eexists. split; [reflexivity|].
      cbn. auto.
    + unfold step. rewrite HP. eexists. split; [reflexivity|]. cbn.
      split; [now rewrite Hl|]. intros c Hc. apply in_or_app. right.
      unfold settle_all. apply in_map_iff. exists c. auto.
  - intros k Hk more s' Hmore. eapply run_keeps_instance; eassumption.
Qed.

(** Three callers arrive before the load resolves, a fourth after it. *)
Lemma initialize_lazy_single_flight_witness :
  exists s,
    run initial [Call 1; Call 2; Call 3; LoadResolves; Call 4] = Some s /\
    loads s = 1 /\
    embeddingPipeline s = Some 1 /\
    settled s = [(1, Ok tt); (2, Ok tt); (3, Ok tt); (4, Ok tt)].
Proof.
  eexists. split; [reflexivity|].
  destruct (@initialize_lazy_single_flight [Call 1; Call 2; Call 3; LoadResolves]
              _ eq_refl) as (_ & _ & Hle & _ & Hkeep).
  destruct (Hkeep 1 eq_refl [Call 4] _ eq_refl) as [Hp Hl].
  split; [exact Hl|]. split; [exact Hp | reflexivity].
Defined.

End Initialisation.

(* ================================================================== *)
(** * Further properties of the code *)
(* ================================================================== *)

(** ** Sorting and slicing *)

Module SortFacts.

Import JS.

Section Sorted.

Context {A : Type} (before : A -> A -> bool).
Hypothesis before_total : forall x y, before x y = false -> before y x = true.
Hypothesis before_trans :
  forall x y z, before x y = true -> before y z = true -> before x z = true.

Let R (x y : A) : Prop := before x y = true.

Lemma insert_by_sorted (x : A) (l : list A) :
  StronglySorted R l -> StronglySorted R (insert_by before x l).
Proof.
  induction 1 as [|y ys Hs IH Hy]; cbn [insert_by].
  - constructor; constructor.
  - destruct (before x y) eqn:E.
    + constructor; [constructor; assumption|].
      constructor; [exact E|].
      rewrite Forall_forall in *. intros z Hz.
      eapply before_trans; [exact E | apply Hy, Hz].
    + constructor; [exact IH|].
      rewrite Forall_forall in *. intros z Hz.
      apply JSFacts.insert_by_In in Hz. destruct Hz as [->|Hz].
      * apply before_total, E.
      * apply Hy, Hz.
Qed.

Lemma sort_by_sorted (l : list A) : StronglySorted R (sort_by before l).
Proof.
  induction l as [|x xs IH]; cbn [sort_by fold_right]; [constructor|].
  apply insert_by_sorted, IH.
Qed.

End Sorted.

Lemma firstn_sorted {A} (R : A -> A -> Prop) (n : nat) (l : list A) :
  StronglySorted R l -> StronglySorted R (firstn n l).
Proof.
  intros H. revert n. induction H as [|x xs Hs IH Hx]; intros [|n]; cbn [firstn];
    try constructor.
  - apply IH.
  - rewrite Forall_forall in *. intros z Hz. apply Hx.
    rewrite <- (firstn_skipn n xs). apply in_or_app. now left.
Qed.

Lemma sorted_prefix_before_rest {A} (R : A -> A -> Prop) (n : nat) (l : list A) :
  StronglySorted R l ->
  forall x y, In x (firstn n l) -> In y (skipn n l) -> R x y.
Proof.
  intros H. revert n. induction H as [|a l Hs IH Ha]; intros n x y Hx Hy.
  - destruct n; destruct Hx.
  - destruct n as [|n]; [destruct Hx|]. cbn [firstn skipn] in *.
    destruct Hx as [<-|Hx].
    + rewrite Forall_forall in Ha. apply Ha.
      rewrite <- (firstn_skipn n l). apply in_or_app. now right.
    + eapply IH; eassumption.
Qed.

Lemma slice0_firstn {A} (l : list A) (limit : Q) :
  (0 <= limit)%Q -> slice0 l limit = firstn (Z.to_nat (to_integer limit)) l.
Proof.
  intros H. unfold slice0.
  assert (Hk : (0 <= to_integer limit)%Z).
  { destruct limit as [n d]. unfold Qle in H; cbn [Qnum Qden] in H.
    unfold to_integer; cbn [Qnum Qden]. apply Z.quot_pos; lia. }
  destruct (Z.ltb_spec (to_integer limit) 0); [lia | reflexivity].
Qed.

End SortFacts.

(** ** findSimilar: ranking *)

Module Ranking.

Import Codec Embeddings.
Local Open Scope Q_scope.

Lemma Qle_bool_total (x y : Q) : Qle_bool x y = false -> Qle_bool y x = true.
Proof.
  intros H. apply Qle_bool_iff. apply Qlt_le_weak. apply Qnot_le_lt.
  intros L. apply Qle_bool_iff in L. congruence.
Qed.

Lemma Qle_bool_trans (x y z : Q) :
  Qle_bool x y = true -> Qle_bool y z = true -> Qle_bool x z = true.
Proof.
  rewrite !Qle_bool_iff. apply Qle_trans.
Qed.

Lemma sort_desc_sorted {Id} (l : list (Match Id)) :
  StronglySorted (fun x y => Qle_bool (similarity y) (similarity x) = true)
    (sort_desc l).
Proof.
  unfold sort_desc. apply SortFacts.sort_by_sorted.
  - intros x y. apply Qle_bool_total.
  - intros x y z H1 H2. eapply Qle_bool_trans; eassumption.
Qed.

Lemma slice0_is_firstn {A} (l : list A) (limit : Q) :
  exists n, JS.slice0 l limit = firstn n l.
Proof. unfold JS.slice0. destruct (_ <? _)%Z; eauto. Qed.

Lemma findSimilar_sorted_desc {Id} (q : Float32Array) (cands : list (Candidate Id))
    (limit minSim : Q) (res : list (Match Id)) :
  findSimilar q cands limit minSim = Ok res ->
  StronglySorted (fun x y => similarity y <= similarity x) res.
Proof.
  unfold findSimilar. intros H.
  destruct (map_result _ cands) as [scored|m]; cbn [rbind] in H; [|discriminate].
  injection H as <-.
  destruct (slice0_is_firstn
              (sort_desc (filter (fun r => Qle_bool minSim (similarity r)) scored))
              limit) as [n ->].
  apply SortFacts.firstn_sorted.
  eapply StronglySorted_ind with
    (P := StronglySorted (fun x y : Match Id => similarity y <= similarity x));
    [constructor | | apply sort_desc_sorted].
  intros a l _ IH Ha. constructor; [exact IH|].
  rewrite Forall_forall in *. intros z Hz. apply Qle_bool_iff, Ha, Hz.
Qed.

(** X1.  The matches [findSimilar] returns are in order of non-increasing
    similarity, whatever the limit, and each is a candidate scored at or
    above the threshold. *)
Theorem findSimilar_sorted {Id} (q : Float32Array) (cands : list (Candidate Id))
    (limit minSim : Q) (res : list (Match Id)) :
  findSimilar q cands limit minSim = Ok res ->
  StronglySorted (fun x y => similarity y <= similarity x) res
  /\ forall r, In r res ->
       minSim <= similarity r /\
       exists c, In c cands /\ match_id r = cand_id c /\
                 cosineSimilarity q (cand_embedding c) = Ok (similarity r).
Proof.
  intros H. split; [eapply findSimilar_sorted_desc; exact H|].
  eapply EmbeddingsFacts.findSimilar_spec; exact H.
Qed.

Lemma findSimilar_sorted_witness :
  exists res,
    findSimilar (new_Float32Array [Demo.f_one])
      [ mkCandidate "a.ts"%string (new_Float32Array [Demo.f_half]);
        mkCandidate "b.ts"%string (new_Float32Array [Demo.f_one]);
        mkCandidate "c.ts"%string (new_Float32Array [Demo.f_39_128]) ]
      10 (3 # 10)
    = Ok res /\
    map (@match_id string) res = ["b.ts"; "a.ts"; "c.ts"]%string /\
    StronglySorted (fun x y => similarity y <= similarity x) res.
Proof.
  eexists. split; [vm_compute; reflexivity|]. split; [reflexivity|].
  refine (proj1 (@findSimilar_sorted string (new_Float32Array [Demo.f_one])
                   [ mkCandidate "a.ts"%string (new_Float32Array [Demo.f_half]);
                     mkCandidate "b.ts"%string (new_Float32Array [Demo.f_one]);
                     mkCandidate "c.ts"%string (new_Float32Array [Demo.f_39_128]) ]
                   10 (3 # 10) _ _)).
  vm_compute. reflexivity.
Defined.

(** X2.  With a non-negative limit [findSimilar] keeps the best matches: a
    candidate whose similarity reaches the threshold is either returned, or
    the result is full (it has [limit] matches, the limit truncated to an
    integer) and every returned match is at least as similar. *)
Theorem findSimilar_keeps_best {Id} (q : Float32Array)
    (cands : list (Candidate Id)) (limit minSim : Q) (res : list (Match Id))
    (c : Candidate Id) (s : Q) :
  findSimilar q cands limit minSim = Ok res ->
  0 <= limit ->
  In c cands ->
  cosineSimilarity q (cand_embedding c) = Ok s ->
  minSim <= s ->
  In {| match_id := cand_id c; similarity := s |} res
  \/ (List.length res = Z.to_nat (JS.to_integer limit) /\
      forall r, In r res -> s <= similarity r).
Proof.
  unfold findSimilar. intros H Hl Hc Hs Hmin.
  destruct (map_result _ cands) as [scored|m] eqn:E; cbn [rbind] in H; [|discriminate].
  injection H as <-.
  destruct (@EmbeddingsFacts.map_result_In_Ok _ _ _ _ _ _ E Hc) as (y & Hy & Hin).
  rewrite Hs in Hy. cbn [rbind] in Hy. injection Hy as <-.
  set (sorted := sort_desc (filter (fun r => Qle_bool minSim (similarity r)) scored)).
  assert (Hsorted : In {| match_id := cand_id c; similarity := s |} sorted).
  { apply JSFacts.sort_by_In, filter_In. split; [exact Hin|].
    cbn. now apply Qle_bool_iff. }
  rewrite SortFacts.slice0_firstn by exact Hl.
  set (k := Z.to_nat (JS.to_integer limit)).
  rewrite <- (firstn_skipn k sorted) in Hsorted.
  apply in_app_or in Hsorted. destruct Hsorted as [Hf|Hr]; [now left|right].
  split.
  - rewrite length_firstn. apply Nat.min_l.
    destruct (Nat.le_gt_cases k (List.length sorted)) as [Hle|Hgt]; [exact Hle|].
    rewrite skipn_all2 in Hr by lia. destruct Hr.
  - intros r Hrin.
    pose proof (SortFacts.sorted_prefix_before_rest k (sort_desc_sorted _)
                  r _ Hrin Hr) as B.
    cbn in B. now apply Qle_bool_iff.
Qed.

Lemma findSimilar_keeps_best_witness :
  exists res,
    findSimilar (new_Float32Array [Demo.f_one])
      [ mkCandidate "a.ts"%string (new_Float32Array [Demo.f_half]);
        mkCandidate "b.ts"%string (new_Float32Array [Demo.f_one]);
        mkCandidate "c.ts"%string (new_Float32Array [Demo.f_39_128]) ]
      (5 # 2) (3 # 10)
    = Ok res /\
    List.length res = 2%nat /\
    forall r, In r res -> 39 # 128 <= similarity r.
Proof.
  eexists. split; [vm_compute; reflexivity|].
  edestruct (@findSimilar_keeps_best string (new_Float32Array [Demo.f_one])
               [ mkCandidate "a.ts"%string (new_Float32Array [Demo.f_half]);
                 mkCandidate "b.ts"%string (new_Float32Array [Demo.f_one]);
                 mkCandidate "c.ts"%string (new_Float32Array [Demo.f_39_128]) ]
               (5 # 2) (3 # 10))
    as [Hin | [Hlen Hle]].
  - vm_compute. reflexivity.
  - discriminate.
  - right. right. left. reflexivity.
  - vm_compute. reflexivity.
  - vm_compute. discriminate.
  - exfalso. cbn in Hin. destruct Hin as [Hin|[Hin|[]]]; discriminate Hin.
  - split; [exact Hlen|]. intros r Hr. eapply Qle_trans; [|apply Hle, Hr].
    vm_compute. discriminate.
Defined.

End Ranking.

(** ** The codec on stored bytes *)

Module StoredBytes.

Import Codec.
Local Open Scope nat_scope.

Lemma read_f32s_length (n : nat) (bs : list byte) :
  4 * n <= List.length bs -> List.length (read_f32s n bs) = n.
Proof.
  revert bs. induction n as [|n IH]; intros bs H; [reflexivity|].
  destruct bs as [|b0 [|b1 [|b2 [|b3 rest]]]]; cbn [List.length] in H; try lia.
  cbn [read_f32s List.length]. rewrite IH; [reflexivity|]. cbn [List.length] in H. lia.
Qed.

(** X3.  [deserializeEmbedding] of a buffer read from the store (a byte view
    lying within its [ArrayBuffer]): with a byte offset that is a multiple of
    4 it returns [length / 4] elements, rounded down, so that up to three
    trailing bytes are dropped without an error; with any other offset it
    throws.  Serializing the array again gives a view of the whole
    [ArrayBuffer], which is the stored buffer itself when that one covered
    it. *)
Theorem deserializeEmbedding_alignment (b : Buffer) :
  buf_byteOffset b + buf_length b <= List.length (buf_buffer b) ->
  (buf_byteOffset b mod 4 = 0 ->
   exists a,
     deserializeEmbedding b = Ok a /\
     f32_length a = buf_length b / 4 /\
     List.length (f32_elems a) = buf_length b / 4 /\
     serializeEmbedding a
       = mkBuffer (buf_buffer b) 0 (List.length (buf_buffer b)))
  /\ (buf_byteOffset b mod 4 <> 0 ->
      deserializeEmbedding b
        = Throw "start offset of Float32Array should be a multiple of 4").
Proof.
  intros Hin. unfold deserializeEmbedding, new_Float32Array_view. split.
  - intros Hal. rewrite Hal. cbn [Nat.eqb negb].
    assert (H4 : 4 * (buf_length b / 4) <= buf_length b)
      by (apply Nat.Div0.mul_div_le).
    destruct (Nat.ltb_spec (List.length (buf_buffer b))
                (buf_byteOffset b + 4 * (buf_length b / 4))) as [Hlt|Hge]; [lia|].
    eexists. split; [reflexivity|]. split; [reflexivity|]. split; [|reflexivity].
    unfold f32_elems. cbn [f32_length f32_byteOffset f32_buffer].
    apply read_f32s_length. rewrite length_skipn. lia.
  - intros Hal. apply Nat.eqb_neq in Hal. rewrite Hal. reflexivity.
Qed.

(** A stored buffer of six bytes gives one element; the same bytes seen at
    offset 1 of a pooled buffer cannot be read. *)
Lemma deserializeEmbedding_alignment_witness :
  (exists a,
     deserializeEmbedding
       (mkBuffer (f32_to_bytes Demo.f_one ++ [x00; x00]) 0 6) = Ok a /\
     f32_elems a = [Demo.f_one])
  /\ deserializeEmbedding (mkBuffer (x00 :: f32_to_bytes Demo.f_one) 1 4)
     = Throw "start offset of Float32Array should be a multiple of 4".
Proof.
  split.
  - destruct (@deserializeEmbedding_alignment
                (mkBuffer (f32_to_bytes Demo.f_one ++ [x00; x00]) 0 6))
      as [H _]; [vm_compute; lia|].
    destruct (H eq_refl) as (a & Ha & _). exists a. split; [exact Ha|].
    vm_compute in Ha. injection Ha as <-. reflexivity.
  - refine (proj2 (@deserializeEmbedding_alignment
                     (mkBuffer (x00 :: f32_to_bytes Demo.f_one) 1 4) _) _).
    + vm_compute. lia.
    + discriminate.
Defined.

End StoredBytes.

(** ** Model initialisation: outcomes *)

Module InitOutcomes.

Import ModelInit ModelInitFacts.
Local Open Scope nat_scope.

Lemma Forall_settle_all (r : result unit) (callers : list nat) :
  Forall (fun p : nat * result unit => snd p = r) (settle_all r callers).
Proof.
  unfold settle_all. apply Forall_forall. intros p Hp.
  apply in_map_iff in Hp. destruct Hp as (c & <- & _). reflexivity.
Qed.

Lemma outcomes_agree_step (s s' : state) (e : event) :
  inv s -> outcomes_agree s -> step s e = Some s' -> outcomes_agree s'.
Proof.
  unfold inv, outcomes_agree, step. intros I O H.
  destruct e as [c| |r];
    destruct (initPromise s) as [[| |r']|] eqn:EP;
    destruct (embeddingPipeline s) as [k|] eqn:EE;
    try discriminate; inversion H; subst s'; clear H; cbn;
    try rewrite EP; cbn;
    try (exfalso; intuition congruence);
    try assumption;
    try (apply Forall_app; split; [assumption | repeat constructor]);
    try (rewrite O; cbn; apply Forall_settle_all).
Qed.

Lemma outcomes_agree_run (es : list event) (s s' : state) :
  inv s -> outcomes_agree s -> run s es = Some s' -> outcomes_agree s'.
Proof.
  revert s. induction es as [|e es IH]; cbn [run]; intros s I O H.
  - now injection H as <-.
  - destruct (step s e) as [s1|] eqn:E; [|discriminate].
    apply (IH s1); [eapply inv_step; eauto | eapply outcomes_agree_step; eauto | exact H].
Qed.

(** X5.  Every caller of [initialize()] sees the outcome of the one load: a
    call returns normally only once the pipeline is set (so the guard
    [if (!embeddingPipeline) throw] of [embed] cannot fire after it, and
    [isReady()] is true), and a call that throws rethrows the reason the load
    was rejected with. *)
Theorem initialize_outcome_is_the_loads (events : list event) (s : state) :
  run initial events = Some s ->
  (forall c, In (c, Ok tt) (settled s) ->
     initPromise s = Some Fulfilled /\ embeddingPipeline s = Some 1 /\
     isReady s = true)
  /\ (forall c r, In (c, Throw r) (settled s) ->
        initPromise s = Some (Rejected r) /\ isReady s = false).
Proof.
  intros Hrun.
  assert (I : inv s) by (eapply inv_run; [apply inv_initial | exact Hrun]).
  assert (O : outcomes_agree s).
  { eapply outcomes_agree_run; [apply inv_initial | reflexivity | exact Hrun]. }
  unfold inv in I. unfold outcomes_agree in O. unfold isReady. split.
  - intros c Hc. destruct (initPromise s) as [[| |r]|].
    + rewrite O in Hc. destruct Hc.
    + destruct I as (_ & -> & _). auto.
    + rewrite Forall_forall in O. specialize (O _ Hc). discriminate O.
    + rewrite O in Hc. destruct Hc.
  - intros c r Hc. destruct (initPromise s) as [[| |r']|].
    + rewrite O in Hc. destruct Hc.
    + rewrite Forall_forall in O. specialize (O _ Hc). discriminate O.
    + rewrite Forall_forall in O. specialize (O _ Hc). cbn in O.
      injection O as ->. destruct I as (_ & -> & _). auto.
    + rewrite O in Hc. destruct Hc.
Qed.

Lemma initialize_outcome_is_the_loads_witness :
  exists s,
    run initial [Call 1; Call 2; LoadRejects "no weights"; Call 3] = Some s /\
    settled s = [(1, Throw "no weights"); (2, Throw "no weights");
                 (3, Throw "no weights")] /\
    initPromise s = Some (Rejected "no weights") /\ isReady s = false.
Proof.
  eexists. split; [reflexivity|]. split; [reflexivity|].
  apply (proj2 (@initialize_outcome_is_the_loads
                  [Call 1; Call 2; LoadRejects "no weights"; Call 3] _ eq_refl) 3).
  right. right. left. reflexivity.
Defined.

(** X6.  A failed load is never retried: once the load has been rejected,
    whatever happens next the promise stays rejected with the same reason, no
    second load is started, the engine never becomes ready, and every further
    call throws that reason at once. *)
Theorem load_failure_is_permanent (events more : list event) (s s' : state)
    (r : string) :
  run initial events = Some s ->
  initPromise s = Some (Rejected r) ->
  run s more = Some s' ->
  initPromise s' = Some (Rejected r) /\ loads s' = 1 /\ isReady s' = false
  /\ step s' LoadResolves = None
  /\ forall c, step s' (Call c)
               = Some (mkState None (Some (Rejected r)) 1 []
                         (settled s' ++ [(c, Throw r)])).
Proof.
  intros Hrun HP Hmore.
  assert (I : inv s) by (eapply inv_run; [apply inv_initial | exact Hrun]).
  assert (K : forall es t t', inv t -> initPromise t = Some (Rejected r) ->
                run t es = Some t' -> inv t' /\ initPromise t' = Some (Rejected r)).
  { induction es as [|e es IH]; cbn [run]; intros t t' It Pt Ht.
    - injection Ht as <-. auto.
    - destruct (step t e) as [t1|] eqn:E; [|discriminate].
      apply (IH t1 t'); [eapply inv_step; eauto | | exact Ht].
      unfold inv in It. rewrite Pt in It. destruct It as (_ & Ep & _).
      unfold step in E. rewrite Pt, Ep in E.
      destruct e; try discriminate. injection E as <-. reflexivity. }
  destruct (K more s s' I HP Hmore) as [I' P'].
  unfold inv in I'. rewrite P' in I'. destruct I' as (Hl & He & Ha).
  unfold isReady, step. rewrite P', He, Hl, Ha. auto.
Qed.

Lemma load_failure_is_permanent_witness :
  exists s',
    run initial [Call 1; LoadRejects "no weights"; Call 2; Call 3] = Some s' /\
    loads s' = 1 /\ isReady s' = false /\
    step s' LoadResolves = None.
Proof.
  eexists. split; [reflexivity|].
  destruct (@load_failure_is_permanent [Call 1; LoadRejects "no weights"]
              [Call 2; Call 3] _ _ "no weights" eq_refl eq_refl eq_refl)
    as (_ & Hl & Hr & Hn & _).
  auto.
Defined.

(** X7.  No caller is lost or answered twice: the callers whose
    [initialize()] has settled, followed by those still awaiting the load,
    are exactly the callers of the run, in the order of their calls. *)
Theorem initialize_answers_in_order (events : list event) (s : state) :
  run initial events = Some s ->
  map fst (settled s) ++ awaiting s = calls events.
Proof.
  assert (G : forall es t t', inv t -> outcomes_agree t -> run t es = Some t' ->
                map fst (settled t') ++ awaiting t'
                = (map fst (settled t) ++ awaiting t) ++ calls es).
  { induction es as [|e es IH]; cbn [run]; intros t t' It Ot Ht.
    - injection Ht as <-. cbn. now rewrite app_nil_r.
    - destruct (step t e) as [t1|] eqn:E; [|discriminate].
      rewrite (IH t1 t' (@inv_step t t1 e It E)
                 (@outcomes_agree_step t t1 e It Ot E) Ht).
      clear IH Ht. unfold calls at 2. cbn [flat_map]. fold (calls es).
      rewrite app_assoc. f_equal.
      unfold inv in It. unfold outcomes_agree in Ot. unfold step in E.
      destruct e as [c| |r];
        destruct (initPromise t) as [[| |r']|] eqn:EP;
        destruct (embeddingPipeline t) as [k|] eqn:EE;
        try discriminate; inversion E; subst t1; clear E; cbn;
        try (exfalso; intuition congruence);
        rewrite ?map_app, ?app_nil_r; cbn;
        try (destruct It as (_ & _ & ->)); rewrite ?app_nil_r;
        try (rewrite <- app_assoc; reflexivity); try reflexivity.
      all: rewrite Ot; cbn; unfold settle_all; rewrite map_map; cbn;
        now rewrite map_id. }
  intros H. rewrite (G events initial s inv_initial eq_refl H). reflexivity.
Qed.

Lemma initialize_answers_in_order_witness :
  exists s,
    run initial [Call 7; Call 8; LoadResolves; Call 9; Call 7] = Some s /\
    map fst (settled s) ++ awaiting s = [7; 8; 9; 7].
Proof.
  eexists. split; [reflexivity|].
  exact (@initialize_answers_in_order
           [Call 7; Call 8; LoadResolves; Call 9; Call 7] _ eq_refl).
Defined.

End InitOutcomes.

(** ** The file index as a keyed store *)

Module FileIndexStore.

Import Codec Database.
Local Open Scope nat_scope.
Local Open Scope string_scope.

Lemma same_file_row (row r : FileIndexRow) :
  same_file (fi_project_id row) (fi_path row) r = true <->
  (fi_project_id r, fi_path r) = (fi_project_id row, fi_path row).
Proof.
  unfold same_file. rewrite andb_true_iff, !String.eqb_eq.
  split; [intros [-> ->]; reflexivity | intros H; injection H; auto].
Qed.

Lemma find_upsert_same (row : FileIndexRow) (rows : list FileIndexRow) :
  find (same_file (fi_project_id row) (fi_path row)) (upsert_file row rows)
  = Some row.
Proof.
  assert (S : same_file (fi_project_id row) (fi_path row) row = true)
    by (apply same_file_row; reflexivity).
  induction rows as [|r rs IH]; cbn [upsert_file find].
  - now rewrite S.
  - destruct (same_file (fi_project_id row) (fi_path row) r) eqn:E;
      cbn [find]; [now rewrite S | now rewrite E].
Qed.

Lemma find_upsert_other (row : FileIndexRow) (rows : list FileIndexRow)
    (p path : string) :
  (p, path) <> (fi_project_id row, fi_path row) ->
  find (same_file p path) (upsert_file row rows) = find (same_file p path) rows.
Proof.
  intros Hne.
  assert (N : forall r, same_file (fi_project_id row) (fi_path row) r = true ->
                        same_file p path r = false).
  { intros r Hr. apply same_file_row in Hr. unfold same_file.
    injection Hr as H1 H2. rewrite H1, H2.
    destruct (String.eqb (fi_project_id row) p) eqn:E1; [|reflexivity].
    destruct (String.eqb (fi_path row) path) eqn:E2; [|reflexivity].
    apply String.eqb_eq in E1, E2. exfalso. apply Hne. now rewrite E1, E2. }
  induction rows as [|r rs IH]; cbn [upsert_file find].
  - rewrite (N row); [reflexivity|]. apply same_file_row. reflexivity.
  - destruct (same_file (fi_project_id row) (fi_path row) r) eqn:E; cbn [find].
    + rewrite (N r E), (N row); [reflexivity|]. apply same_file_row. reflexivity.
    + now rewrite IH.
Qed.

(** X8.  [indexFile] then [getIndexedFile].  For a registered project the
    statement succeeds: the row written for [(project, path)] is the row
    read back, it is among the rows of the project, and the row of every
    other key reads as before.  For a project that is not registered the
    statement throws on the foreign key and nothing is written. *)
Theorem indexFile_then_getIndexedFile (db : Db) (now projectId path : string)
    (options : IndexFileOptions) :
  (getProject db projectId = None ->
   run_indexFile db now projectId path options = Throw FOREIGN_KEY_FAILED)
  /\ (getProject db projectId <> None ->
      exists db',
        run_indexFile db now projectId path options = Ok db' /\
        getIndexedFile db' projectId path
          = Some (row_of now projectId path options) /\
        In (row_of now projectId path options) (getIndexedFiles db' projectId) /\
        forall p q, (p, q) <> (projectId, path) ->
          getIndexedFile db' p q = getIndexedFile db p q).
Proof.
  unfold run_indexFile. split.
  - intros ->. reflexivity.
  - intros Hp. destruct (getProject db projectId) as [pr|]; [|congruence].
    eexists. split; [reflexivity|].
    unfold getIndexedFile, indexFile. cbn [file_index].
    fold (row_of now projectId path options).
    set (row := row_of now projectId path options).
    assert (F : find (same_file projectId path) (upsert_file row (file_index db))
                = Some row) by (apply (find_upsert_same row)).
    split; [exact F|]. split.
    + unfold getIndexedFiles. cbn [file_index]. apply filter_In. split.
      * apply find_some in F. apply F.
      * cbn. apply String.eqb_refl.
    + intros p q Hne. apply (find_upsert_other row). exact Hne.
Qed.

Lemma indexFile_then_getIndexedFile_witness :
  let o := mkIndexFileOptions (Some ".ts") 10 "h2" "new text" None in
  (exists db',
     run_indexFile Demo.db0 "t" "demo" "b.ts" o = Ok db' /\
     option_map fi_content_hash (getIndexedFile db' "demo" "b.ts") = Some "h2" /\
     getIndexedFile db' "demo" "a.ts" = getIndexedFile Demo.db0 "demo" "a.ts")
  /\ run_indexFile Demo.db0 "t" "nowhere" "b.ts" o = Throw FOREIGN_KEY_FAILED.
Proof.
  intros o. split.
  - destruct (proj2 (@indexFile_then_getIndexedFile Demo.db0 "t" "demo" "b.ts" o))
      as (db' & Hrun & Hsame & _ & Hother); [discriminate|].
    exists db'. split; [exact Hrun|]. split.
    + rewrite Hsame. reflexivity.
    + apply Hother. discriminate.
  - apply (proj1 (@indexFile_then_getIndexedFile Demo.db0 "t" "nowhere" "b.ts" o)).
    reflexivity.
Defined.

Lemma upsert_keys_In (row : FileIndexRow) (rows : list FileIndexRow)
    (k : string * string) :
  let key r := (fi_project_id r, fi_path r) in
  In k (map key (upsert_file row rows)) <-> k = key row \/ In k (map key rows).
Proof.
  cbv zeta. induction rows as [|r rs IH]; cbn [upsert_file map In].
  - intuition congruence.
  - destruct (same_file (fi_project_id row) (fi_path row) r) eqn:E; cbn [map In].
    + apply same_file_row in E. rewrite E. intuition congruence.
    + rewrite IH. intuition congruence.
Qed.

Lemma upsert_keys_NoDup (row : FileIndexRow) (rows : list FileIndexRow) :
  let key r := (fi_project_id r, fi_path r) in
  NoDup (map key rows) -> NoDup (map key (upsert_file row rows)).
Proof.
  cbv zeta. induction rows as [|r rs IH]; cbn [upsert_file map]; intros Hnd.
  - repeat constructor. intros [].
  - inversion Hnd as [|x xs Hnotin Hnd']; subst.
    destruct (same_file (fi_project_id row) (fi_path row) r) eqn:E; cbn [map].
    + apply same_file_row in E. constructor; [|exact Hnd'].
      rewrite <- E. exact Hnotin.
    + constructor; [|apply IH, Hnd'].
      intros Hin. apply (upsert_keys_In row rs) in Hin. destruct Hin as [Hk|Hin].
      * assert (S : same_file (fi_project_id row) (fi_path row) r = true)
          by (apply same_file_row; exact Hk).
        congruence.
      * exact (Hnotin Hin).
Qed.

Lemma upsert_length (row : FileIndexRow) (rows : list FileIndexRow) :
  List.length (upsert_file row rows)
  = match find (same_file (fi_project_id row) (fi_path row)) rows with
    | Some _ => List.length rows
    | None => S (List.length rows)
    end.
Proof.
  induction rows as [|r rs IH]; cbn [upsert_file find List.length]; [reflexivity|].
  destruct (same_file (fi_project_id row) (fi_path row) r); cbn [List.length];
    [reflexivity|].
  rewrite IH. destruct (find _ rs); reflexivity.
Qed.

(** X9.  A successful [indexFile] keeps the keys [(project_id, path)] of
    [file_index] unique: the keys afterwards are the keys before together
    with the key written, with one row more when the key is new and the
    same number of rows when it exists. *)
Theorem indexFile_keeps_keys_unique (db db' : Db) (now projectId path : string)
    (options : IndexFileOptions) :
  NoDup (file_keys db) ->
  run_indexFile db now projectId path options = Ok db' ->
  NoDup (file_keys db')
  /\ (forall k, In k (file_keys db') <->
                k = (projectId, path) \/ In k (file_keys db))
  /\ (getIndexedFile db projectId path = None ->
      List.length (file_index db') = S (List.length (file_index db)))
  /\ (getIndexedFile db projectId path <> None ->
      List.length (file_index db') = List.length (file_index db)).
Proof.
  intros Hnd Hrun. unfold run_indexFile in Hrun.
  destruct (getProject db projectId); [|discriminate].
  injection Hrun as <-. unfold file_keys, indexFile, getIndexedFile.
  cbn [file_index]. fold (row_of now projectId path options).
  set (row := row_of now projectId path options).
  split; [apply (upsert_keys_NoDup row), Hnd|].
  split; [intros k; apply (upsert_keys_In row)|].
  pose proof (upsert_length row (file_index db)) as L.
  cbn [row row_of fi_project_id fi_path] in L.
  destruct (find (same_file projectId path) (file_index db));
    split; intros H; congruence.
Qed.

Lemma indexFile_keeps_keys_unique_witness :
  let o := mkIndexFileOptions (Some ".ts") 10 "h2" "new text" None in
  let db' := indexFile Demo.db0 "t" "demo" "z.ts" o in
  NoDup (file_keys db')
  /\ In ("demo", "z.ts") (file_keys db')
  /\ List.length (file_index db') = 5.
Proof.
  intros o db'.
  assert (N : NoDup (file_keys Demo.db0)).
  { repeat constructor; cbn; intuition discriminate. }
  destruct (@indexFile_keeps_keys_unique Demo.db0 db' "t" "demo" "z.ts" o N eq_refl)
    as (Hnd & Hk & Hnew & _).
  split; [exact Hnd|]. split.
  - apply Hk. now left.
  - apply Hnew. reflexivity.
Defined.

Lemma find_filter_other {A} (key : A -> string) (id other : string) (l : list A) :
  other <> id ->
  find (fun x => String.eqb (key x) other)
    (filter (fun x => negb (String.eqb (key x) id)) l)
  = find (fun x => String.eqb (key x) other) l.
Proof.
  intros Hne. induction l as [|x xs IH]; cbn [filter find]; [reflexivity|].
  destruct (String.eqb_spec (key x) id) as [E|E]; cbn [negb find].
  - destruct (String.eqb_spec (key x) other) as [E'|_]; [congruence | exact IH].
  - destruct (String.eqb (key x) other); [reflexivity | exact IH].
Qed.

Lemma filter_filter_other {A} (key : A -> string) (id other : string) (l : list A) :
  other <> id ->
  filter (fun x => String.eqb (key x) other)
    (filter (fun x => negb (String.eqb (key x) id)) l)
  = filter (fun x => String.eqb (key x) other) l.
Proof.
  intros Hne. induction l as [|x xs IH]; cbn [filter]; [reflexivity|].
  destruct (String.eqb_spec (key x) id) as [E|E]; cbn [negb filter].
  - destruct (String.eqb_spec (key x) other) as [E'|_]; [congruence | exact IH].
  - destruct (String.eqb (key x) other); [f_equal|]; exact IH.
Qed.

(** X10.  [deleteProject] cascades: after deleting a project that exists,
    neither the project, nor an index row, nor a pattern of it is left, while
    the rows and patterns of every other project are kept as they were;
    deleting an unknown project changes nothing and returns false. *)
Theorem deleteProject_cascades (db : Db) (id : string) :
  let deleted := fst (deleteProject db id) in
  let db' := snd (deleteProject db id) in
  (getProject db id = None -> deleted = false /\ db' = db)
  /\ (getProject db id <> None ->
      deleted = true /\
      getProject db' id = None /\
      getIndexedFiles db' id = [] /\
      (forall p, In p (patterns db') -> pat_projectId p <> id) /\
      forall other, other <> id ->
        getProject db' other = getProject db other /\
        getIndexedFiles db' other = getIndexedFiles db other /\
        forall p, pat_projectId p = other ->
                  (In p (patterns db') <-> In p (patterns db))).
Proof.
  cbv zeta. unfold deleteProject, getProject. cbn [fst snd].
  set (hits := filter (fun p => String.eqb (proj_id p) id) (projects db)).
  assert (Hfind : find (fun p => String.eqb (proj_id p) id) (projects db) = None
                  <-> hits = []).
  { unfold hits. induction (projects db) as [|p ps IH]; cbn [find filter];
      [tauto|].
    destruct (String.eqb (proj_id p) id); [split; discriminate | exact IH]. }
  split.
  - intros Hn. apply Hfind in Hn. rewrite Hn. cbn. auto.
  - intros Hs. destruct hits as [|h hs] eqn:Eh; [exfalso; now apply Hs, Hfind|].
    cbn [List.length Nat.ltb Nat.leb]. split; [reflexivity|].
    cbn [projects file_index patterns].
    split; [|split; [|split]].
    + destruct (find _ (filter _ (projects db))) as [x|] eqn:F; [|reflexivity].
      apply find_some in F. destruct F as [F1 F2]. apply filter_In in F1.
      destruct F1 as [_ F1]. rewrite F2 in F1. discriminate.
    + unfold getIndexedFiles. cbn [file_index].
      apply ToolsFacts.filter_nil_iff. intros x Hx. apply filter_In in Hx.
      destruct Hx as [_ Hx]. now apply negb_true_iff in Hx.
    + intros p Hp. apply filter_In in Hp. destruct Hp as [_ Hp].
      apply negb_true_iff, String.eqb_neq in Hp. exact Hp.
    + intros other Hne. split; [|split].
      * apply (find_filter_other proj_id). exact Hne.
      * unfold getIndexedFiles. cbn [file_index].
        apply (filter_filter_other fi_project_id). exact Hne.
      * intros p Hp. rewrite filter_In, negb_true_iff, String.eqb_neq.
        rewrite Hp. tauto.
Qed.

(** Deleting project [demo] of the demo database leaves the pattern and the
    row of the other projects. *)
Lemma deleteProject_cascades_witness :
  let db' := snd (deleteProject Demo.db0 "demo") in
  fst (deleteProject Demo.db0 "demo") = true
  /\ getIndexedFiles db' "demo" = []
  /\ getIndexedFiles db' "empty" = getIndexedFiles Demo.db0 "empty"
  /\ fst (deleteProject Demo.db0 "nowhere") = false.
Proof.
  intros db'.
  destruct (@deleteProject_cascades Demo.db0 "demo") as [_ H].
  destruct H as (Hd & _ & Hf & _ & Ho); [discriminate|].
  destruct (Ho "empty") as (_ & He & _); [discriminate|].
  destruct (@deleteProject_cascades Demo.db0 "nowhere") as [Hn _].
  destruct Hn as [Hn _]; [reflexivity|].
  auto.
Defined.

End FileIndexStore.

(** ** searchFilesByEmbedding *)

Module ScoredSearch.

Import Codec Database.




End ScoredSearch.

(** ** The pattern store *)

Module PatternStore.

Import Codec Database.
Local Open Scope string_scope.

Lemma find_app {A} (f : A -> bool) (l1 l2 : list A) :
  find f (l1 ++ l2)%list
  = match find f l1 with Some x => Some x | None => find f l2 end.
Proof.
  induction l1 as [|x xs IH]; cbn [app find]; [reflexivity|].
  destruct (f x); [reflexivity | exact IH].
Qed.

(** X12.  [createPattern] then [getPattern].  For a registered project,
    with the fresh rowid SQLite assigns, the pattern reads back under that
    id with the fields given, it is listed by [getPatterns] both globally
    and for its project, and every other id reads as before.  For a project
    that is not registered the statement throws on the foreign key and
    nothing is written. *)
Theorem createPattern_then_getPattern (db : Db) (now : string) (rowid : Z)
    (pattern : NewPattern) :
  getPattern db rowid = None ->
  (getProject db (np_projectId pattern) = None ->
   run_createPattern db now rowid pattern = Throw FOREIGN_KEY_FAILED)
  /\ (getProject db (np_projectId pattern) <> None ->
      exists db',
        run_createPattern db now rowid pattern = Ok (rowid, db') /\
        (exists row,
           getPattern db' rowid = Some row /\
           pat_id row = rowid /\
           pat_projectId row = np_projectId pattern /\
           pat_name row = np_name pattern /\
           pat_problem row = np_problem pattern /\
           pat_solution row = np_solution pattern /\
           pat_problemEmbedding row = np_problemEmbedding pattern /\
           In row (getPatterns db' None) /\
           (np_projectId pattern <> "" ->
            In row (getPatterns db' (Some (np_projectId pattern))))) /\
        forall other, other <> rowid ->
          getPattern db' other = getPattern db other).
Proof.
  intros Hfresh. unfold run_createPattern. split; [intros ->; reflexivity|].
  intros Hp. destruct (getProject db (np_projectId pattern)); [|congruence].
  unfold createPattern, getPattern in *. eexists. split; [reflexivity|].
  cbn [patterns]. split.
  - eexists. split.
    + rewrite find_app. rewrite Hfresh. cbn [find pat_id]. rewrite Z.eqb_refl.
      reflexivity.
    + cbn. repeat split.
      * unfold getPatterns. apply JSFacts.sort_by_In. cbn [patterns].
        apply in_or_app. right. now left.
      * intros Hne. unfold getPatterns. apply JSFacts.sort_by_In.
        unfold JS.truthy. apply String.eqb_neq in Hne. rewrite Hne. cbn [negb].
        apply filter_In. split.
        -- cbn [patterns]. apply in_or_app. right. now left.
        -- cbn. apply String.eqb_refl.
  - intros other Hne. rewrite find_app. cbn [find pat_id].
    apply Z.eqb_neq in Hne. rewrite Z.eqb_sym in Hne. rewrite Hne.
    destruct (find (fun r => Z.eqb (pat_id r) other) (patterns db)); reflexivity.
Qed.

Lemma createPattern_then_getPattern_witness :
  let np := mkNewPattern "demo" "cache-warmup" "slow first request"
              "warm the cache at start" None (Demo.stored [Demo.f_one]) in
  exists db',
    run_createPattern Demo.db0 "t" 3 np = Ok (3%Z, db') /\
    option_map pat_name (getPattern db' 3) = Some "cache-warmup" /\
    getPattern db' 1 = getPattern Demo.db0 1.
Proof.
  intros np.
  destruct (proj2 (@createPattern_then_getPattern Demo.db0 "t" 3 np eq_refl))
    as (db' & Hrun & (row & Hrow & _ & _ & Hname & _) & Hother); [discriminate|].
  exists db'. split; [exact Hrun|]. split.
  - rewrite Hrow. cbn. now rewrite Hname.
  - apply Hother. discriminate.
Defined.

End PatternStore.

(** ** embedBatch *)

Module Batch.

Import Codec Database Tools ToolsFacts.
Local Open Scope nat_scope.

Ltac run_batch :=
  cbv beta iota zeta delta
    [bind ret lift get_db try_catch throw preload initialize run_pipeline].

Lemma embedBatch_inner_app (env : Env) (b1 b2 : list string)
    (acc : list Float32Array) (w : World) :
  embedBatch_inner env (b1 ++ b2) acc w
  = bind (embedBatch_inner env b1 acc) (fun acc' => embedBatch_inner env b2 acc') w.
Proof.
  revert acc w. induction b1 as [|t ts IH]; intros acc w.
  - cbn [app embedBatch_inner]. unfold bind, ret. reflexivity.
  - cbn [app embedBatch_inner]. unfold bind.
    destruct (run_pipeline env t w) as [[e|m] w1]; [|reflexivity].
    rewrite IH. unfold bind. reflexivity.
Qed.

(** The batches of 32 are not visible: with fuel for every remaining text,
    the outer loop is the inner loop over the remaining texts. *)
Lemma embedBatch_outer_flat (env : Env) (texts : list string) (fuel i : nat)
    (acc : list Float32Array) (w : World) :
  List.length texts - i <= fuel ->
  embedBatch_outer env fuel i texts acc w
  = embedBatch_inner env (skipn i texts) acc w.
Proof.
  revert i acc w. induction fuel as [|fuel IH]; intros i acc w Hf.
  - cbn [embedBatch_outer]. destruct (Nat.ltb_spec i (List.length texts)); [lia|].
    rewrite skipn_all2 by lia. reflexivity.
  - cbn [embedBatch_outer]. destruct (Nat.ltb_spec i (List.length texts)) as [Hlt|Hge].
    + rewrite <- (firstn_skipn 32 (skipn i texts)) at 2.
      rewrite embedBatch_inner_app. unfold bind.
      destruct (embedBatch_inner env (firstn 32 (skipn i texts)) acc w)
        as [[acc'|m] w1]; [|reflexivity].
      rewrite IH by lia. rewrite skipn_skipn. now rewrite (Nat.add_comm 32 i).
    + rewrite skipn_all2 by lia. reflexivity.
Qed.

Lemma embedBatch_inner_result (env : Env) (batch : list string)
    (acc es : list Float32Array) (w w' : World) :
  embedBatch_inner env batch acc w = (Ok es, w') ->
  exists new,
    es = acc ++ new /\
    Forall2
      (fun text e =>
         exists data,
           model_run env (JS.prefix_of (Z.to_nat 8000) text) = Ok data /\
           e = new_Float32Array data)
      batch new /\
    db w' = db w /\
    effects w'
    = effects w
        ++ map (fun text => EmbedInvocation (JS.prefix_of (Z.to_nat 8000) text)) batch.
Proof.
  revert acc w. induction batch as [|t ts IH]; intros acc w H.
  - cbn in H. injection H as <- <-. exists []. rewrite !app_nil_r. auto.
  - cbn [embedBatch_inner] in H. revert H. run_batch.
    destruct (model_run env _) as [data|m] eqn:Er; [|discriminate].
    intros H. apply IH in H. destruct H as (new & -> & HF & Hdb & Heff).
    exists (new_Float32Array data :: new). rewrite <- app_assoc. cbn [app].
    split; [reflexivity|]. split; [constructor; eauto|].
    cbn [db effects] in *. split; [exact Hdb|].
    rewrite Heff, <- app_assoc. reflexivity.
Qed.

(** X13.  [embedBatch] preserves order and length: when it succeeds, the
    i-th embedding is the model's output for the first 8000 characters of the
    i-th text; the model was loaded once and invoked once per text, in order,
    and the store is untouched.  The batching by 32 does not show. *)
Theorem embedBatch_preserves_order (env : Env) (texts : list string)
    (es : list Float32Array) (w w' : World) :
  embedBatch env texts w = (Ok es, w') ->
  model_load env = Ok tt /\
  Forall2
    (fun text e =>
       exists data,
         model_run env (JS.prefix_of (Z.to_nat 8000) text) = Ok data /\
         e = new_Float32Array data)
    texts es /\
  List.length es = List.length texts /\
  db w' = db w /\
  effects w'
  = effects w
      ++ map (fun text => EmbedInvocation (JS.prefix_of (Z.to_nat 8000) text)) texts.
Proof.
  unfold embedBatch. run_batch.
  destruct (model_load env) as [[]|m]; [|discriminate].
  rewrite embedBatch_outer_flat by lia. cbn [skipn].
  intros H. apply embedBatch_inner_result in H.
  destruct H as (new & -> & HF & Hdb & Heff). cbn [app].
  split; [reflexivity|]. split; [exact HF|].
  split; [symmetry; eapply Forall2_length; exact HF | auto].
Qed.

(** Forty texts, more than one batch. *)
Lemma embedBatch_preserves_order_witness :
  exists es w',
    embedBatch Demo.env (repeat "text"%string 40) Demo.world0 = (Ok es, w') /\
    List.length es = 40 /\
    List.length (effects w') = 40.
Proof.
  eexists. eexists. split; [vm_compute; reflexivity|].
  destruct (@embedBatch_preserves_order Demo.env (repeat "text"%string 40) _
              Demo.world0 _ ltac:(vm_compute; reflexivity))
    as (_ & _ & Hlen & _ & Heff).
  split; [exact Hlen | reflexivity].
Defined.

End Batch.

(** ** pm_index_file *)

Module SingleFile.

Import Codec Database Tools ToolsFacts.
Local Open Scope string_scope.

Ltac run_all :=
  cbv beta iota zeta delta
    [bind ret lift get_db try_catch throw preload initialize embed
     db_logActivity db_indexFile].

(** X14.  [pm_index_file] never throws: it answers with an indexed or
    skipped outcome or with one of the error codes [PROJECT_NOT_FOUND],
    [FILE_NOT_FOUND], [INDEX_FAILED].  The store is changed only by an
    indexed outcome, and then holds a row for the file; a skipped outcome
    leaves the whole world as it was. *)
Theorem pm_index_file_never_throws (env : Env) (w : World) (input : IndexFileInput) :
  exists r w',
    pm_index_file env input w = (Ok r, w') /\
    match r with
    | Success (Indexed path) =>
        path = if_path input /\
        getIndexedFile (db w') (if_project input) (if_path input) <> None
    | Success (Skipped _) => w' = w
    | Failure code _ =>
        In code ["PROJECT_NOT_FOUND"; "FILE_NOT_FOUND"; "INDEX_FAILED"] /\
        db w' = db w
    end.
Proof.
  unfold pm_index_file. run_all.
  destruct (getProject (db w) (if_project input)) as [p|];
    [|eexists; eexists; split; [reflexivity|]; cbn; auto].
  destruct (existsSync env _); cbn [negb];
    [|eexists; eexists; split; [reflexivity|]; cbn; auto].
  destruct (is_text_extension _); cbn [negb];
    [|eexists; eexists; split; [reflexivity|]; reflexivity].
  destruct (readFile env _) as [content|m];
    [|eexists; eexists; split; [reflexivity|]; cbn; auto].
  destruct (same_hash _ _ && negb _);
    [eexists; eexists; split; [reflexivity|]; reflexivity|].
  destruct (model_load env) as [[]|m];
    [|eexists; eexists; split; [reflexivity|]; cbn; auto].
  destruct (model_run env _) as [values|m];
    [|eexists; eexists; split; [reflexivity|]; cbn; auto].
  destruct (stat_size env _) as [size|m];
    [|eexists; eexists; split; [reflexivity|]; cbn; auto].
  destruct (db_write_error env _ _) as [m|];
    [eexists; eexists; split; [reflexivity|]; cbn; auto|].
  eexists. eexists. split; [reflexivity|]. cbn [db]. split; [reflexivity|].
  unfold getIndexedFile, indexFile. cbn [file_index].
  match goal with
  | |- find _ (upsert_file ?row _) <> None =>
      rewrite (FileIndexStore.find_upsert_same row); discriminate
  end.
Qed.

(** X15.  A new or changed file, or a forced one, when nothing fails:
    [pm_index_file] invokes the model once, on the first 8000 characters,
    writes one row (hash of the content, first 1000 characters as preview,
    the serialized vector) and answers indexed; asked again without force it
    answers "File unchanged" and leaves the world as it is. *)
Theorem pm_index_file_indexes_once (env : Env) (w : World) (input : IndexFileInput)
    (p : Project) (content : string) (values : list Z) (size : Z) :
  let project := if_project input in
  let path := if_path input in
  let filePath := path_join env (proj_path p) path in
  getProject (db w) project = Some p ->
  existsSync env filePath = true ->
  is_text_extension (path_extname env filePath) = true ->
  readFile env filePath = Ok content ->
  model_load env = Ok tt ->
  model_run env (JS.prefix_of (Z.to_nat 8000) content) = Ok values ->
  stat_size env filePath = Ok size ->
  db_write_error env project path = None ->
  if_force input = Some true
    \/ same_hash (getIndexedFile (db w) project path) (md5_hex env content) = false ->
  let w' := world_after_index env w project path (path_extname env filePath)
              size content values in
  pm_index_file env input w = (Ok (Success (Indexed path)), w')
  /\ pm_index_file env (mkIndexFileInput project path None) w'
     = (Ok (Success (Skipped "File unchanged")), w').
Proof.
  intros project path filePath Hp He Ht Hr Hl Hm Hs Hw Hch w'.
  assert (Hgate : same_hash (getIndexedFile (db w) project path) (md5_hex env content)
                  && negb (match if_force input with Some b => b | None => false end)
                  = false).
  { destruct Hch as [-> | ->]; [apply andb_false_r | reflexivity]. }
  assert (Hp' : getProject (db w') project = Some p) by exact Hp.
  assert (Hg : getIndexedFile (db w') project path
               = Some (row_of (now env) project path
                         (index_options env (path_extname env filePath) size
                            content values))).
  { unfold getIndexedFile, w', world_after_index, indexFile. cbn [db file_index].
    apply (FileIndexStore.find_upsert_same
             (row_of (now env) project path
                (index_options env (path_extname env filePath) size content values))). }
  subst project path filePath. split.
  - unfold pm_index_file. run_all.
    rewrite Hp. cbv beta iota. rewrite He. cbn [negb]. rewrite Ht. cbn [negb].
    rewrite Hr. cbv beta iota. rewrite Hgate, Hl, Hm. cbv beta iota.
    rewrite Hs. cbv beta iota. rewrite Hw. cbn [db effects].
    unfold w', world_after_index, index_options. rewrite <- app_assoc. reflexivity.
  - unfold pm_index_file. run_all. cbn [if_project if_path if_force].
    rewrite Hp'. cbv beta iota. rewrite He. cbn [negb]. rewrite Ht. cbn [negb].
    rewrite Hr. cbv beta iota. rewrite Hg. unfold same_hash.
    cbn [row_of fi_content_hash index_options opt_content_hash].
    rewrite String.eqb_refl. reflexivity.
Qed.

(** [new.ts] of project [demo] is not indexed yet. *)
Lemma pm_index_file_indexes_once_witness :
  exists w',
    pm_index_file Demo.env (mkIndexFileInput "demo" "new.ts" None) Demo.world0
      = (Ok (Success (Indexed "new.ts")), w') /\
    effects w' = [EmbedInvocation "content of /demo/new.ts"; IndexWrite "demo" "new.ts"] /\
    pm_index_file Demo.env (mkIndexFileInput "demo" "new.ts" None) w'
      = (Ok (Success (Skipped "File unchanged")), w').
Proof.
  destruct (@pm_index_file_indexes_once Demo.env Demo.world0
              (mkIndexFileInput "demo" "new.ts" None)
              (mkProject "demo" "Demo" "/demo") "content of /demo/new.ts"
              [Demo.f_one] 42
              eq_refl eq_refl eq_refl eq_refl eq_refl eq_refl eq_refl eq_refl
              (or_intror eq_refl)) as [H1 H2].
  eexists. split; [exact H1|]. split; [reflexivity | exact H2].
Defined.

(** X16.  A file indexed by [pm_index_file] is a candidate of the next
    search in its project, carrying exactly the vector the model returned:
    the stored buffer deserializes to the same float32 patterns, and
    [search_semantic] without a file-type filter no longer answers
    [NO_INDEXED_FILES]. *)
Theorem indexed_file_is_searchable (env : Env) (w : World) (project path ext : string)
    (size : Z) (content : string) (values : list Z) (p : Project) :
  Forall is_f32 values ->
  getProject (db w) project = Some p ->
  let w' := world_after_index env w project path ext size content values in
  (exists row candidate,
     In row (search_candidates (db w') project None) /\
     fi_path row = path /\
     fi_content_hash row = md5_hex env content /\
     deserialize_candidate path (fi_embedding row) = Ok candidate /\
     f32_elems (Embeddings.cand_embedding candidate) = values)
  /\ forall query limit minRelevance message w'',
       search_semantic env
         (mkSearchSemanticInput query project None limit minRelevance) w'
       <> (Ok (Failure "NO_INDEXED_FILES" message), w'').
Proof.
  intros Hf Hp w'.
  set (row := row_of (now env) project path (index_options env ext size content values)).
  assert (Hrow : In row (search_candidates (db w') project None)).
  { apply search_candidates_In. split; [|split; reflexivity].
    unfold getIndexedFiles, w', world_after_index, indexFile. cbn [db file_index].
    apply filter_In. split; [|cbn; apply String.eqb_refl].
    pose proof (FileIndexStore.find_upsert_same row (file_index (db w))) as F.
    apply find_some in F. apply F. }
  split.
  - exists row, (Embeddings.mkCandidate path (new_Float32Array values)).
    split; [exact Hrow|]. split; [reflexivity|]. split; [reflexivity|]. split.
    + unfold deserialize_candidate, row.
      cbn [row_of fi_embedding index_options opt_embedding].
      rewrite CodecFacts.deserialize_serialize_new. reflexivity.
    + cbn [Embeddings.cand_embedding]. apply CodecFacts.f32_elems_new, Hf.
  - intros query limit minRelevance message w'' H.
    unfold search_semantic in H. revert H. run_all.
    cbn [ss_project ss_fileTypes ss_query ss_limit ss_minRelevance].
    assert (Hp' : getProject (db w') project = Some p) by exact Hp.
    rewrite Hp'.
    destruct (search_candidates (db w') project None) as [|c cs]; [destruct Hrow|].
    cbn [List.length Nat.eqb].
    destruct (model_load env) as [[]|m]; [|discriminate].
    destruct (model_run env _) as [vs|m]; [|discriminate].
    destruct (map_result _ _) as [cwe|m]; [|discriminate].
    destruct (Embeddings.findSimilar _ _ _ _) as [similar|m]; discriminate.
Qed.

Lemma indexed_file_is_searchable_witness :
  let w' := world_after_index Demo.env Demo.world0 "empty" "notes.md" ".md" 9
              "some text" [Demo.f_half; Demo.f_neg_half] in
  exists row candidate,
    In row (search_candidates (db w') "empty" None) /\
    deserialize_candidate "notes.md" (fi_embedding row) = Ok candidate /\
    f32_elems (Embeddings.cand_embedding candidate) = [Demo.f_half; Demo.f_neg_half].
Proof.
  intros w'.
  destruct (@indexed_file_is_searchable Demo.env Demo.world0 "empty" "notes.md" ".md" 9
              "some text" [Demo.f_half; Demo.f_neg_half]
              (mkProject "empty" "Empty" "/empty"))
    as [(row & c & Hin & _ & _ & Hd & He) _].
  - repeat constructor; discriminate.
  - reflexivity.
  - exists row, c. auto.
Defined.

End SingleFile.

(** ** The order of strings *)

Module StringOrder.

Local Open Scope string_scope.

Lemma ascii_compare_refl (a : ascii) : Ascii.compare a a = Eq.
Proof. unfold Ascii.compare. apply N.compare_refl. Qed.

Lemma ascii_compare_trans_lt (a b c : ascii) :
  Ascii.compare a b <> Gt -> Ascii.compare b c <> Gt ->
  (Ascii.compare a b = Lt \/ Ascii.compare b c = Lt) ->
  Ascii.compare a c = Lt.
Proof.
  unfold Ascii.compare. intros H1 H2 H3. apply N.compare_lt_iff.
  destruct (N.compare_spec (N_of_ascii a) (N_of_ascii b));
    destruct (N.compare_spec (N_of_ascii b) (N_of_ascii c));
    try congruence; try lia; destruct H3; discriminate.
Qed.

Lemma compare_trans_le (s1 s2 s3 : string) :
  String.compare s1 s2 <> Gt -> String.compare s2 s3 <> Gt ->
  String.compare s1 s3 <> Gt.
Proof.
  revert s2 s3. induction s1 as [|a s1 IH]; intros [|b s2] [|c s3];
    cbn [String.compare]; try congruence.
  intros H1 H2.
  destruct (Ascii.compare a b) eqn:Eab; [| |congruence];
    destruct (Ascii.compare b c) eqn:Ebc; try congruence.
  - apply Ascii.compare_eq_iff in Eab, Ebc. subst b c.
    rewrite ascii_compare_refl. eapply IH; eassumption.
  - rewrite (@ascii_compare_trans_lt a b c); rewrite ?Eab, ?Ebc; try congruence.
    now right.
  - rewrite (@ascii_compare_trans_lt a b c); rewrite ?Eab, ?Ebc; try congruence.
    now left.
  - rewrite (@ascii_compare_trans_lt a b c); rewrite ?Eab, ?Ebc; try congruence.
    now left.
Qed.

Lemma leb_iff (s1 s2 : string) : String.leb s1 s2 = true <-> String.compare s1 s2 <> Gt.
Proof.
  unfold String.leb. destruct (String.compare s1 s2); split; congruence.
Qed.

Lemma leb_trans (s1 s2 s3 : string) :
  String.leb s1 s2 = true -> String.leb s2 s3 = true -> String.leb s1 s3 = true.
Proof. rewrite !leb_iff. apply compare_trans_le. Qed.

Lemma leb_refl (s : string) : String.leb s s = true.
Proof.
  apply leb_iff. induction s as [|a s IH]; cbn [String.compare]; [congruence|].
  now rewrite ascii_compare_refl.
Qed.

Lemma ltb_true_leb (s1 s2 : string) :
  String.ltb s1 s2 = true -> String.leb s1 s2 = true.
Proof.
  unfold String.ltb, String.leb. destruct (String.compare s1 s2); congruence.
Qed.

Lemma ltb_false_leb (s1 s2 : string) :
  String.ltb s1 s2 = false -> String.leb s2 s1 = true.
Proof.
  unfold String.ltb, String.leb. rewrite (String.compare_antisym s1 s2).
  destruct (String.compare s2 s1); cbn; congruence.
Qed.

End StringOrder.

(** ** indexFileAfterWrite and pm_index_status *)

Module Maintenance.

Import Codec Database Tools ToolsFacts.
Local Open Scope string_scope.

Ltac run_all :=
  cbv beta iota zeta delta
    [bind ret lift get_db try_catch throw preload initialize embed
     db_logActivity db_indexFile].

(** X17.  [indexFileAfterWrite] is silent and local: it never throws and
    never reports a failure, it leaves the projects, the patterns and the
    index rows of every other key as they were.  It does not compare hashes: when
    nothing fails it runs the model and rewrites the row even for a file
    whose stored hash is current. *)
Theorem indexFileAfterWrite_silent (env : Env) (w : World) (project path : string) :
  (exists w',
     indexFileAfterWrite env project path w = (Ok tt, w') /\
     projects (db w') = projects (db w) /\
     patterns (db w') = patterns (db w) /\
     forall p q, (p, q) <> (project, path) ->
       getIndexedFile (db w') p q = getIndexedFile (db w) p q)
  /\ forall (p : Project) (content : string) (values : list Z) (size : Z),
       let filePath := path_join env (proj_path p) path in
       getProject (db w) project = Some p ->
       is_text_extension (path_extname env path) = true ->
       existsSync env filePath = true ->
       readFile env filePath = Ok content ->
       model_load env = Ok tt ->
       model_run env (JS.prefix_of (Z.to_nat 8000) content) = Ok values ->
       stat_size env filePath = Ok size ->
       db_write_error env project path = None ->
       indexFileAfterWrite env project path w
       = (Ok tt,
          world_after_index env w project path (path_extname env path) size
            content values).
Proof.
  split.
  - unfold indexFileAfterWrite. run_all.
    destruct (getProject (db w) project) as [p|]; [|eexists; split; [reflexivity|]; auto].
    destruct (is_text_extension _); cbn [negb];
      [|eexists; split; [reflexivity|]; auto].
    destruct (existsSync env _); cbn [negb];
      [|eexists; split; [reflexivity|]; auto].
    destruct (readFile env _) as [content|m];
      [|eexists; split; [reflexivity|]; auto].
    destruct (model_load env) as [[]|m];
      [|eexists; split; [reflexivity|]; auto].
    destruct (model_run env _) as [values|m];
      [|eexists; split; [reflexivity|]; cbn; auto].
    destruct (stat_size env _) as [size|m];
      [|eexists; split; [reflexivity|]; cbn; auto].
    destruct (db_write_error env _ _) as [m|];
      [eexists; split; [reflexivity|]; cbn; auto|].
    eexists. split; [reflexivity|]. cbn [db]. split; [reflexivity|].
    split; [reflexivity|]. intros p' q Hne.
    unfold getIndexedFile, indexFile. cbn [file_index].
    match goal with
    | |- find _ (upsert_file ?row _) = _ =>
        apply (FileIndexStore.find_upsert_other row); exact Hne
    end.
  - intros p content values size filePath Hp Ht He Hr Hl Hm Hs Hw.
    subst filePath. unfold indexFileAfterWrite. run_all.
    rewrite Hp. cbv beta iota. rewrite Ht. cbn [negb]. rewrite He. cbn [negb].
    rewrite Hr. cbv beta iota. rewrite Hl, Hm. cbv beta iota.
    rewrite Hs. cbv beta iota. rewrite Hw. cbn [db effects].
    unfold world_after_index, index_options. rewrite <- app_assoc. reflexivity.
Qed.

(** [a.ts] of project [demo] is unchanged, and still embedded again. *)
Lemma indexFileAfterWrite_silent_witness :
  exists w',
    indexFileAfterWrite Demo.env "demo" "a.ts" Demo.world0 = (Ok tt, w') /\
    effects w' = [EmbedInvocation "content of /demo/a.ts"; IndexWrite "demo" "a.ts"] /\
    getIndexedFile (db w') "demo" "b.ts" = getIndexedFile Demo.db0 "demo" "b.ts".
Proof.
  destruct (@indexFileAfterWrite_silent Demo.env Demo.world0 "demo" "a.ts")
    as [_ H].
  eexists. split.
  - exact (H (mkProject "demo" "Demo" "/demo") "content of /demo/a.ts" [Demo.f_one] 42%Z
             eq_refl eq_refl eq_refl eq_refl eq_refl eq_refl eq_refl eq_refl).
  - split; reflexivity.
Defined.

(** X18.  [pm_index_status] of an existing project does not touch the world
    and counts the candidates of an unfiltered search: [fileCount] is their
    number, at most [totalIndexed]; [indexed] is false exactly when
    [search_semantic] without a file-type filter answers [NO_INDEXED_FILES];
    [lastIndexed] is absent exactly when the project has no row. *)
Theorem pm_index_status_counts (env : Env) (w : World) (project : string)
    (p : Project) :
  getProject (db w) project = Some p ->
  exists data,
    pm_index_status project w = (Ok (Success data), w) /\
    st_fileCount data = List.length (search_candidates (db w) project None) /\
    st_totalIndexed data = List.length (getIndexedFiles (db w) project) /\
    (st_fileCount data <= st_totalIndexed data)%nat /\
    (st_indexed data = true <-> (0 < st_fileCount data)%nat) /\
    (st_lastIndexed data = None <-> st_totalIndexed data = 0%nat) /\
    (st_indexed data = false <->
     forall query limit minRelevance,
       search_semantic env
         (mkSearchSemanticInput query project None limit minRelevance) w
       = (Ok (Failure "NO_INDEXED_FILES"
                "No indexed files found. Run pm_index_files first."), w)).
Proof.
  intros Hp. unfold pm_index_status. run_all. rewrite Hp.
  eexists. split; [reflexivity|].
  cbn [st_fileCount st_totalIndexed st_indexed st_lastIndexed].
  unfold search_candidates.
  set (files := getIndexedFiles (db w) project).
  set (cands := filter has_embedding files).
  split; [reflexivity|]. split; [reflexivity|].
  split; [apply filter_length_le|].
  split; [apply Nat.ltb_lt|]. split.
  - destruct (Nat.ltb_spec 0 (List.length files)); split; intros; try lia; congruence.
  - split.
    + intros Hi query limit minRelevance.
      apply search_semantic_no_candidates with p; [exact Hp|].
      cbn [ss_project ss_fileTypes]. unfold search_candidates. fold files cands.
      apply Nat.ltb_ge in Hi. destruct cands; [reflexivity | cbn in Hi; lia].
    + intros H. specialize (H "" None None). revert H.
      unfold search_semantic. run_all.
      cbn [ss_project ss_fileTypes ss_query ss_limit ss_minRelevance].
      rewrite Hp. unfold search_candidates. fold files cands.
      destruct cands as [|c cs]; [reflexivity|]. cbn [List.length Nat.eqb].
      destruct (model_load env) as [[]|m]; [|discriminate].
      destruct (model_run env _) as [vs|m]; [|discriminate].
      destruct (map_result _ _) as [cwe|m]; [|discriminate].
      destruct (Embeddings.findSimilar _ _ _ _) as [similar|m]; discriminate.
Qed.

Lemma pm_index_status_counts_witness :
  exists data,
    pm_index_status "demo" Demo.world0 = (Ok (Success data), Demo.world0) /\
    st_fileCount data = 3%nat /\ st_indexed data = true.
Proof.
  destruct (@pm_index_status_counts Demo.env Demo.world0 "demo"
              (mkProject "demo" "Demo" "/demo") eq_refl)
    as (data & H & Hc & _ & _ & Hi & _).
  exists data. split; [exact H|]. split; [exact Hc|].
  apply Hi. rewrite Hc. cbn. lia.
Defined.

Lemma latest_fold_bounds (rows : list FileIndexRow) (init : string) :
  let latest :=
    fold_left
      (fun latest f =>
         if String.ltb latest (fi_indexed_at f) then fi_indexed_at f else latest)
      rows init in
  String.leb init latest = true
  /\ (forall f, In f rows -> String.leb (fi_indexed_at f) latest = true)
  /\ (latest = init \/ exists f, In f rows /\ fi_indexed_at f = latest).
Proof.
  cbv zeta. revert init. induction rows as [|r rs IH]; intros init; cbn [fold_left].
  - split; [apply StringOrder.leb_refl|]. split; [intros f []|now left].
  - destruct (String.ltb init (fi_indexed_at r)) eqn:E.
    + destruct (IH (fi_indexed_at r)) as (H1 & H2 & H3).
      split; [eapply StringOrder.leb_trans; [apply StringOrder.ltb_true_leb, E|exact H1]|].
      split.
      * intros f [<-|Hf]; [exact H1 | apply H2, Hf].
      * right. destruct H3 as [->|(f & Hf & Hfl)].
        -- exists r. split; [now left | reflexivity].
        -- exists f. split; [now right | exact Hfl].
    + destruct (IH init) as (H1 & H2 & H3).
      split; [exact H1|]. split.
      * intros f [<-|Hf]; [|apply H2, Hf].
        eapply StringOrder.leb_trans; [apply StringOrder.ltb_false_leb, E|exact H1].
      * destruct H3 as [->|(f & Hf & Hfl)]; [now left|].
        right. exists f. split; [now right | exact Hfl].
Qed.

(** X19.  [lastIndexed] of [pm_index_status] is the latest [indexed_at] of
    the project's rows: it is the timestamp of one of them and no row has a
    later one. *)
Theorem pm_index_status_lastIndexed (w : World) (project : string)
    (data : IndexStatusData) (w' : World) (t : string) :
  pm_index_status project w = (Ok (Success data), w') ->
  st_lastIndexed data = Some t ->
  (exists f, In f (getIndexedFiles (db w) project) /\ fi_indexed_at f = t)
  /\ forall f, In f (getIndexedFiles (db w) project) ->
               String.leb (fi_indexed_at f) t = true.
Proof.
  unfold pm_index_status. run_all.
  destruct (getProject (db w) project); [|discriminate].
  intros H. injection H as <- <-. cbn [st_lastIndexed].
  destruct (getIndexedFiles (db w) project) as [|f0 fs]; [discriminate|].
  cbn [List.length Nat.ltb Nat.leb]. intros Ht. injection Ht as <-.
  unfold latest_indexed_at.
  pose proof (latest_fold_bounds (f0 :: fs) (fi_indexed_at f0)) as L.
  cbv zeta in L. destruct L as (_ & L2 & L3). split; [|exact L2].
  destruct L3 as [E|H]; [|exact H].
  exists f0. split; [now left | now rewrite E].
Qed.

Lemma pm_index_status_lastIndexed_witness :
  let w := mkWorld
             (indexFile Demo.db0 "2026-02-01T00:00:00.000Z" "demo" "z.ts"
                (mkIndexFileOptions None 0 "" "" None)) [] in
  Forall
    (fun f => String.leb (fi_indexed_at f) "2026-02-01T00:00:00.000Z" = true)
    (getIndexedFiles (db w) "demo").
Proof.
  intros w. apply Forall_forall.
  refine (proj2 (@pm_index_status_lastIndexed w "demo" _ w
                   "2026-02-01T00:00:00.000Z" eq_refl eq_refl)).
Defined.

End Maintenance.

(** ** What search_semantic and suggest_patterns return *)

Module Answers.

Import Codec Database Tools ToolsFacts.
Local Open Scope string_scope.

Ltac run_all :=
  cbv beta iota zeta delta
    [bind ret lift get_db try_catch throw preload initialize embed
     db_logActivity db_indexFile].

Lemma round2_mono (x y : Q) : (x <= y)%Q -> (JS.round2 x <= JS.round2 y)%Q.
Proof.
  intros H. unfold JS.round2.
  apply Qmult_le_compat_r; [|discriminate].
  rewrite <- Zle_Qle. apply JSFacts.Math_round_mono.
  apply Qmult_le_compat_r; [exact H | discriminate].
Qed.

Lemma prefix_of_length (n : nat) (s : string) :
  (String.length (JS.prefix_of n s) <= n)%nat.
Proof.
  unfold JS.prefix_of. revert s. induction n as [|n IH]; intros s.
  - destruct s; cbn; lia.
  - destruct s as [|c s]; cbn [substring String.length]; [lia|].
    specialize (IH s). lia.
Qed.

Lemma sorted_map {A B} (R : A -> A -> Prop) (S : B -> B -> Prop) (f : A -> B)
    (l : list A) :
  (forall x y, R x y -> S (f x) (f y)) ->
  StronglySorted R l -> StronglySorted S (map f l).
Proof.
  intros HRS H. induction H as [|a l _ IH Ha]; cbn [map]; constructor;
    [exact IH|].
  rewrite Forall_forall in *. intros z Hz. apply in_map_iff in Hz.
  destruct Hz as (x & <- & Hx). apply HRS, Ha, Hx.
Qed.

Lemma deserialize_candidate_id {Id} (id : Id) (e : option Buffer)
    (c : Embeddings.Candidate Id) :
  deserialize_candidate id e = Ok c -> Embeddings.cand_id c = id.
Proof.
  unfold deserialize_candidate. destruct e as [b|]; [|discriminate].
  destruct (deserializeEmbedding b); cbn [rbind]; [|discriminate].
  intros H. injection H as <-. reflexivity.
Qed.

(** X20.  A successful [search_semantic] has run the model once, on the
    query, and left the store untouched; its hits are in order of
    non-increasing relevance; every hit is the path of an index row of the
    searched project that has an embedding and passes the file-type
    filter, with a preview of at most 200 characters. *)
Theorem search_semantic_hits (env : Env) (w w' : World)
    (input : SearchSemanticInput) (data : SearchData) :
  search_semantic env input w = (Ok (Success data), w') ->
  db w' = db w
  /\ effects w'
     = (effects w
          ++ [EmbedInvocation (JS.prefix_of (Z.to_nat 8000) (ss_query input))])%list
  /\ StronglySorted (fun x y => (hit_relevance y <= hit_relevance x)%Q)
       (sd_results data)
  /\ forall hit, In hit (sd_results data) ->
       (String.length (hit_preview hit) <= 200)%nat /\
       exists f,
         In f (file_index (db w)) /\
         fi_project_id f = ss_project input /\
         fi_path f = hit_path hit /\
         has_embedding f = true /\
         passes_fileTypes (ss_fileTypes input) f = true.
Proof.
  unfold search_semantic. run_all. cbn [db].
  set (candidates := search_candidates _ _ _).
  destruct (getProject (db w) (ss_project input)); [|discriminate].
  destruct (Nat.eqb (List.length candidates) 0); [discriminate|].
  destruct (model_load env) as [[]|e]; [|discriminate].
  destruct (model_run env _) as [values|e] eqn:Er; [|discriminate].
  destruct (map_result _ candidates) as [cwe|e] eqn:Ec; [|discriminate].
  destruct (Embeddings.findSimilar _ cwe _ _) as [similar|e] eqn:Ef; [|discriminate].
  intros H. injection H as <- <-. cbn [db effects sd_results].
  split; [reflexivity|]. split; [reflexivity|]. split.
  - eapply sorted_map; [|eapply Ranking.findSimilar_sorted_desc; exact Ef].
    intros x y Hxy. cbn [search_hit hit_relevance]. apply round2_mono, Hxy.
  - intros hit Hhit. apply in_map_iff in Hhit. destruct Hhit as (m & <- & Hm).
    split.
    + cbn [search_hit hit_preview].
      destruct (find _ candidates) as [f|]; [|cbn; lia].
      destruct (fi_content_preview f); [apply prefix_of_length | cbn; lia].
    + pose proof Ef as Hs. eapply EmbeddingsFacts.findSimilar_spec in Hs; [|exact Hm].
      destruct Hs as (_ & c & Hc & Hid & _).
      destruct (EmbeddingsFacts.map_result_Ok_In _ _ Ec c Hc) as (f & Hf & Hfc).
      apply deserialize_candidate_id in Hfc.
      apply search_candidates_In in Hf. destruct Hf as (Hi & He & Hp).
      unfold getIndexedFiles in Hi. apply filter_In in Hi. destruct Hi as [Hi Hpr].
      apply String.eqb_eq in Hpr.
      exists f. cbn [search_hit hit_path]. repeat split; try assumption.
      congruence.
Qed.

Lemma search_semantic_hits_witness :
  exists data w',
    search_semantic Demo.env
      (mkSearchSemanticInput "token parsing" "demo" (Some [".ts"]) None None)
      Demo.world0
    = (Ok (Success data), w') /\
    db w' = Demo.db0 /\
    map hit_path (sd_results data) = ["a.ts"; "b.ts"; "c.ts"] /\
    StronglySorted (fun x y => (hit_relevance y <= hit_relevance x)%Q)
      (sd_results data).
Proof.
  eexists. eexists. split; [vm_compute; reflexivity|].
  destruct (@search_semantic_hits Demo.env Demo.world0 _
              (mkSearchSemanticInput "token parsing" "demo" (Some [".ts"]) None None)
              _ ltac:(vm_compute; reflexivity)) as (Hdb & _ & Hs & _).
  split; [exact Hdb|]. split; [reflexivity | exact Hs].
Defined.



End Answers.

(** ** record_pattern, list_patterns, get_pattern *)

Module PatternTools.

Import Codec Database Tools ToolsFacts.
Local Open Scope string_scope.

Ltac run_all :=
  cbv beta iota zeta delta
    [bind ret lift get_db try_catch throw preload initialize embed
     db_logActivity db_indexFile db_createPattern].

(** X22.  [record_pattern] never throws and never writes a pattern without
    an embedding: it answers [PROJECT_NOT_FOUND] or [RECORD_ERROR] with the
    store untouched, or it succeeds and has appended exactly one pattern,
    under the id it returns, embedded, in an existing project.  So a store
    whose patterns all have an embedding stays so. *)
Theorem record_pattern_outcomes (env : Env) (w : World) (rowid : Z)
    (input : RecordPatternInput) :
  exists r w',
    record_pattern env rowid input w = (Ok r, w') /\
    projects (db w') = projects (db w) /\
    file_index (db w') = file_index (db w) /\
    (Forall (fun p => has_problem_embedding p = true) (patterns (db w)) ->
     Forall (fun p => has_problem_embedding p = true) (patterns (db w'))) /\
    match r with
    | Failure code _ =>
        In code ["PROJECT_NOT_FOUND"; "RECORD_ERROR"] /\ db w' = db w
    | Success data =>
        rpd_patternId data = rowid /\
        getProject (db w) (rp_project input) <> None /\
        exists row,
          patterns (db w') = (patterns (db w) ++ [row])%list /\
          pat_id row = rowid /\
          pat_projectId row = rp_project input /\
          pat_problem row = rp_problem input /\
          pat_solution row = rp_solution input /\
          has_problem_embedding row = true
    end.
Proof.
  unfold record_pattern. run_all. cbn [db].
  destruct (getProject (db w) (rp_project input)) as [p|];
    [|eexists; eexists; split; [reflexivity|]; cbn; auto 10].
  destruct (model_load env) as [[]|e];
    [|eexists; eexists; split; [reflexivity|]; cbn; auto 10].
  destruct (model_run env _) as [values|e];
    [|eexists; eexists; split; [reflexivity|]; cbn; auto 10].
  unfold logActivity, createPattern.
  cbn [db effects projects file_index patterns rpd_patternId fst snd
       np_projectId np_name np_problem np_solution np_implementation
       np_problemEmbedding].
  eexists. eexists. split; [reflexivity|].
  cbn [db effects projects file_index patterns rpd_patternId].
  split; [reflexivity|]. split; [reflexivity|]. split.
  - intros H. apply Forall_app. split; [exact H|]. repeat constructor.
  - split; [reflexivity|]. split; [discriminate|].
    eexists. split; [reflexivity|]. cbn. auto.
Qed.

Lemma record_pattern_outcomes_witness :
  exists data w',
    record_pattern Demo.env 3
      (mkRecordPatternInput "demo" "cache-warmup" "slow first request"
         "warm the cache at start" None) Demo.world0
    = (Ok (Success data), w') /\
    rpd_patternId data = 3%Z /\
    Forall (fun p => has_problem_embedding p = true) (patterns (db w')).
Proof.
  destruct (@record_pattern_outcomes Demo.env Demo.world0 3
              (mkRecordPatternInput "demo" "cache-warmup" "slow first request"
                 "warm the cache at start" None))
    as (r & w' & H & _ & _ & Hinv & Hr).
  pose proof H as H'. vm_compute in H'.
  destruct r as [data|code message]; [|discriminate H'].
  exists data, w'. split; [exact H|]. split; [apply Hr|].
  apply Hinv. repeat constructor.
Defined.

(** X23.  A pattern recorded under a fresh id can be read back with
    [get_pattern], field for field, and from then on is a candidate of
    [suggest_patterns] for every caller that does not exclude its project
    (any other current project, or none). *)
Theorem recorded_pattern_is_found (env : Env) (w : World) (rowid : Z)
    (input : RecordPatternInput) (p : Project) (values : list Z) :
  getProject (db w) (rp_project input) = Some p ->
  model_load env = Ok tt ->
  model_run env (JS.prefix_of (Z.to_nat 8000) (rp_problem input)) = Ok values ->
  getPattern (db w) rowid = None ->
  exists data w' details,
    record_pattern env rowid input w = (Ok (Success data), w') /\
    rpd_patternId data = rowid /\
    get_pattern rowid w' = (Ok (Success details), w') /\
    pd_id details = rowid /\
    pd_name details = rp_name input /\
    pd_project details = rp_project input /\
    pd_problem details = rp_problem input /\
    pd_solution details = rp_solution input /\
    forall currentProject includeCurrentProject,
      currentProject <> Some (rp_project input) ->
      exists row,
        In row (suggest_candidates (db w') currentProject includeCurrentProject) /\
        pat_id row = rowid /\
        pat_problemEmbedding row
          = Some (serializeEmbedding (new_Float32Array values)).
Proof.
  intros Hp Hl Hm Hfresh.
  unfold record_pattern, get_pattern. run_all. cbn [db].
  rewrite Hp, Hl, Hm. cbv beta iota.
  unfold logActivity, createPattern.
  cbn [db effects projects file_index patterns rpd_patternId fst snd
       np_projectId np_name np_problem np_solution np_implementation
       np_problemEmbedding].
  eexists. eexists. eexists. split; [reflexivity|]. split; [reflexivity|].
  unfold getPattern in *.
  cbn [db effects projects file_index patterns fst snd].
  rewrite PatternStore.find_app, Hfresh. cbn [find pat_id]. rewrite Z.eqb_refl.
  split; [reflexivity|].
  cbn [pd_id pd_name pd_project pd_problem pd_solution pat_id pat_name
       pat_projectId pat_problem pat_solution].
  repeat (split; [reflexivity|]).
  intros currentProject includeCurrentProject Hne.
  eexists. split.
  { apply suggest_candidates_In. cbn [db patterns]. split; [|split].
    - apply in_or_app. right. left. reflexivity.
    - reflexivity.
    - intros _ Heq. apply Hne. cbn [pat_projectId] in Heq. now symmetry. }
  split; reflexivity.
Qed.

Lemma recorded_pattern_is_found_witness :
  exists data w' details,
    record_pattern Demo.env 3
      (mkRecordPatternInput "demo" "cache-warmup" "slow first request"
         "warm the cache at start" None) Demo.world0
    = (Ok (Success data), w') /\
    get_pattern 3 w' = (Ok (Success details), w') /\
    pd_name details = "cache-warmup".
Proof.
  destruct (@recorded_pattern_is_found Demo.env Demo.world0 3
              (mkRecordPatternInput "demo" "cache-warmup" "slow first request"
                 "warm the cache at start" None)
              (mkProject "demo" "Demo" "/demo") [Demo.f_one]
              eq_refl eq_refl eq_refl eq_refl)
    as (data & w' & details & H & _ & Hg & _ & Hn & _).
  exists data, w', details. auto.
Defined.

Lemma length_append (s1 s2 : string) :
  String.length (s1 ++ s2) = (String.length s1 + String.length s2)%nat.
Proof.
  induction s1 as [|c s1 IH]; cbn [append String.length Nat.add]; congruence.
Qed.

Lemma created_before_total (x y : PatternData) :
  String.leb (pat_createdAt y) (pat_createdAt x) = false ->
  String.leb (pat_createdAt x) (pat_createdAt y) = true.
Proof.
  intros H. destruct (String.leb_total (pat_createdAt x) (pat_createdAt y)) as [L|L];
    [exact L | congruence].
Qed.

(** X24.  [list_patterns] does not touch the world; it lists the patterns
    newest first (by [created_at]), those of the given project only when a
    non-empty project is given; it returns [min(limit, total)] summaries for
    a non-negative limit, each of a stored pattern, with a problem text of at
    most 103 characters. *)
Theorem list_patterns_lists (w : World) (project : option string) (limit : option Q) :
  let lim := match limit with Some l => l | None => 20%Q end in
  exists data,
    list_patterns project limit w = (Ok (Success data), w) /\
    lp_total data = List.length (getPatterns (db w) project) /\
    lp_returned data = List.length (lp_patterns data) /\
    ((0 <= lim)%Q ->
     lp_returned data = Nat.min (Z.to_nat (JS.to_integer lim)) (lp_total data)) /\
    StronglySorted
      (fun x y => String.leb (ps_createdAt y) (ps_createdAt x) = true)
      (lp_patterns data) /\
    forall s, In s (lp_patterns data) ->
      (String.length (ps_problem s) <= 103)%nat /\
      (forall P, project = Some P -> P <> "" -> ps_project s = P) /\
      exists p, In p (patterns (db w)) /\ s = pattern_summary p.
Proof.
  intros lim. unfold list_patterns. run_all. fold lim.
  eexists. split; [reflexivity|]. cbn [lp_total lp_returned lp_patterns].
  split; [reflexivity|]. split; [reflexivity|]. split; [|split].
  - intros Hl. rewrite length_map, SortFacts.slice0_firstn by exact Hl.
    apply length_firstn.
  - destruct (Ranking.slice0_is_firstn (getPatterns (db w) project) lim) as [n ->].
    eapply Answers.sorted_map with
      (R := fun x y => String.leb (pat_createdAt y) (pat_createdAt x) = true);
      [intros x y H; exact H|].
    apply SortFacts.firstn_sorted. unfold getPatterns.
    apply SortFacts.sort_by_sorted.
    + intros x y. apply created_before_total.
    + intros x y z H1 H2. eapply StringOrder.leb_trans; eassumption.
  - intros s Hs. apply in_map_iff in Hs. destruct Hs as (p & <- & Hp).
    apply JSFacts.slice0_incl in Hp. unfold getPatterns in Hp.
    apply JSFacts.sort_by_In in Hp. split; [|split].
    + cbn [pattern_summary ps_problem]. rewrite length_append.
      pose proof (Answers.prefix_of_length 100 (pat_problem p)).
      destruct (Nat.ltb 100 _); cbn [String.length]; lia.
    + intros P -> HP. apply String.eqb_neq in HP. unfold JS.truthy in Hp.
      rewrite HP in Hp. cbn [negb] in Hp. apply filter_In in Hp.
      destruct Hp as [_ Hp]. apply String.eqb_eq in Hp. exact Hp.
    + exists p. split; [|reflexivity].
      destruct project as [P|]; [|exact Hp].
      destruct (JS.truthy P); [|exact Hp]. apply filter_In in Hp. apply Hp.
Qed.

Lemma list_patterns_lists_witness :
  exists data,
    list_patterns (Some "demo") (Some 1%Q) Demo.world0
      = (Ok (Success data), Demo.world0) /\
    lp_returned data = 1%nat /\
    map ps_project (lp_patterns data) = ["demo"].
Proof.
  destruct (@list_patterns_lists Demo.world0 (Some "demo") (Some 1%Q))
    as (data & H & Ht & _ & Hn & _).
  exists data. split; [exact H|]. split.
  - rewrite Hn by discriminate. rewrite Ht. reflexivity.
  - vm_compute in H. injection H as <-. reflexivity.
Defined.

End PatternTools.

(** ** pm_index_files: a second run finds nothing to do *)

Module BatchConvergence.

Import Codec Database Tools ToolsFacts.
Local Open Scope nat_scope.
Local Open Scope string_scope.

Ltac run_all :=
  cbv beta iota zeta delta
    [bind ret lift get_db try_catch throw preload initialize embed
     db_logActivity db_indexFile].

Section Loop.

Variable env : Env.
Variables project projectPath : string.

Let rel (f : string) : string := path_relative env projectPath f.

(** Nothing fails on [f]. *)
Let healthy (f : string) : Prop :=
  exists content values size,
    readFile env f = Ok content /\
    model_run env (JS.prefix_of (Z.to_nat 8000) content) = Ok values /\
    stat_size env f = Ok size /\
    db_write_error env project (rel f) = None.

(** The row of [f] in [d] carries the hash of the content of [f]. *)
Let current (d : Db) (f : string) : Prop :=
  exists content row,
    readFile env f = Ok content /\
    getIndexedFile d project (rel f) = Some row /\
    fi_content_hash row = md5_hex env content.

Lemma body_healthy (reindex : bool) (f : string) (w : World) :
  model_load env = Ok tt -> healthy f ->
  exists out w1,
    index_files_body env project projectPath reindex f w = (Ok out, w1) /\
    current (db w1) f /\
    projects (db w1) = projects (db w) /\
    forall k, k <> rel f ->
      getIndexedFile (db w1) project k = getIndexedFile (db w) project k.
Proof.
  intros Hl (content & values & size & Hr & Hm & Hs & Hw).
  unfold index_files_body. run_all. fold (rel f). rewrite Hr. cbv beta iota.
  destruct (same_hash (getIndexedFile (db w) project (rel f)) (md5_hex env content))
    eqn:Eh; cbn [andb].
  - destruct reindex; cbn [negb].
    + rewrite Hl, Hm. cbv beta iota. rewrite Hs. cbv beta iota. rewrite Hw.
      eexists. eexists. split; [reflexivity|]. cbn [db]. split; [|split].
      * exists content. eexists. split; [exact Hr|]. split.
        -- unfold getIndexedFile, indexFile. cbn [file_index].
           match goal with
           | |- find _ (upsert_file ?row _) = _ =>
               apply (FileIndexStore.find_upsert_same row)
           end.
        -- reflexivity.
      * reflexivity.
      * intros k Hk. unfold getIndexedFile, indexFile. cbn [file_index].
        match goal with
        | |- find _ (upsert_file ?row _) = _ =>
            apply (FileIndexStore.find_upsert_other row)
        end. cbn. congruence.
    + eexists. eexists. split; [reflexivity|]. split; [|auto].
      unfold same_hash in Eh.
      destruct (getIndexedFile (db w) project (rel f)) as [row|] eqn:Eg;
        [|discriminate].
      exists content, row. apply String.eqb_eq in Eh. auto.
  - rewrite Hl, Hm. cbv beta iota. rewrite Hs. cbv beta iota. rewrite Hw.
    eexists. eexists. split; [reflexivity|]. cbn [db]. split; [|split].
    + exists content. eexists. split; [exact Hr|]. split.
      * unfold getIndexedFile, indexFile. cbn [file_index].
        match goal with
        | |- find _ (upsert_file ?row _) = _ =>
            apply (FileIndexStore.find_upsert_same row)
        end.
      * reflexivity.
    + reflexivity.
    + intros k Hk. unfold getIndexedFile, indexFile. cbn [file_index].
      match goal with
      | |- find _ (upsert_file ?row _) = _ =>
          apply (FileIndexStore.find_upsert_other row)
      end. cbn. congruence.
Qed.

Lemma loop_healthy (reindex : bool) (files : list string) :
  model_load env = Ok tt ->
  NoDup (map rel files) ->
  (forall f, In f files -> healthy f) ->
  forall (c : IndexCounters) (w : World),
    let c' := fst (index_files_loop env project projectPath reindex files c w) in
    let w' := snd (index_files_loop env project projectPath reindex files c w) in
    (forall f, In f files -> current (db w') f) /\
    projects (db w') = projects (db w) /\
    cnt_errors c' = cnt_errors c /\
    cnt_indexed c' + cnt_skipped c'
      = cnt_indexed c + cnt_skipped c + List.length files /\
    forall k, ~ In k (map rel files) ->
      getIndexedFile (db w') project k = getIndexedFile (db w) project k.
Proof.
  intros Hl. induction files as [|f fs IH]; intros Hnd Hall c w.
  - cbn. repeat split; auto. intros f [].
  - cbn [map] in Hnd. inversion Hnd as [|x xs Hnotin Hnd']; subst.
    destruct (@body_healthy reindex f w Hl (Hall f (or_introl eq_refl)))
      as (out & w1 & Hb & Hcur & Hproj & Hframe).
    cbn [index_files_loop]. rewrite Hb.
    assert (Hall' : forall g, In g fs -> healthy g)
      by (intros g Hg; apply Hall; now right).
    destruct out.
    + specialize (IH Hnd' Hall'
                    (mkIndexCounters (cnt_indexed c) (S (cnt_skipped c)) (cnt_errors c))
                    w1).
      cbv zeta in IH. destruct IH as (I1 & I2 & I3 & I4 & I5). cbv zeta.
      split; [|split; [|split; [|split]]].
      * intros g [<-|Hg]; [|apply I1, Hg].
        destruct Hcur as (content & row & Hr & Hg & Hh).
        exists content, row. split; [exact Hr|]. split; [|exact Hh].
        rewrite I5; [exact Hg | exact Hnotin].
      * congruence.
      * exact I3.
      * cbn [cnt_indexed cnt_skipped List.length] in *. lia.
      * intros k Hk. rewrite I5 by (intros Hin; apply Hk; now right).
        apply Hframe. intros ->. apply Hk. now left.
    + specialize (IH Hnd' Hall'
                    (mkIndexCounters (S (cnt_indexed c)) (cnt_skipped c) (cnt_errors c))
                    w1).
      cbv zeta in IH. destruct IH as (I1 & I2 & I3 & I4 & I5). cbv zeta.
      split; [|split; [|split; [|split]]].
      * intros g [<-|Hg]; [|apply I1, Hg].
        destruct Hcur as (content & row & Hr & Hg & Hh).
        exists content, row. split; [exact Hr|]. split; [|exact Hh].
        rewrite I5; [exact Hg | exact Hnotin].
      * congruence.
      * exact I3.
      * cbn [cnt_indexed cnt_skipped List.length] in *. lia.
      * intros k Hk. rewrite I5 by (intros Hin; apply Hk; now right).
        apply Hframe. intros ->. apply Hk. now left.
Qed.

End Loop.

(** X25.  Indexing converges: when nothing fails on the discovered files
    (and no two of them share a relative path), [pm_index_files] reports no
    error and accounts for every file as indexed or skipped, and running it
    again without [reindex] skips every file, invokes the model for none and
    leaves the world as it is. *)
Theorem pm_index_files_converges (env : Env) (w : World) (input : IndexFilesInput)
    (p : Project) :
  let project := ifs_project input in
  let files := discover env (proj_path p) (ifs_paths input) in
  getProject (db w) project = Some p ->
  model_load env = Ok tt ->
  NoDup (map (path_relative env (proj_path p)) files) ->
  (forall f, In f files ->
     exists content values size,
       readFile env f = Ok content /\
       model_run env (JS.prefix_of (Z.to_nat 8000) content) = Ok values /\
       stat_size env f = Ok size /\
       db_write_error env project (path_relative env (proj_path p) f) = None) ->
  exists data w',
    pm_index_files env input w = (Ok (Success data), w') /\
    ifd_errors data = None /\
    ifd_indexed data + ifd_skipped data = List.length files /\
    pm_index_files env (mkIndexFilesInput project (ifs_paths input) None) w'
    = (Ok (Success {| ifd_totalFiles := List.length files;
                      ifd_indexed := 0;
                      ifd_skipped := List.length files;
                      ifd_errors := None |}), w').
Proof.
  intros project files Hp Hl Hnd Hall.
  set (reindex := match ifs_reindex input with Some b => b | None => false end).
  pose proof (@loop_healthy env project (proj_path p) reindex files Hl Hnd Hall
                (mkIndexCounters 0 0 []) w) as L.
  cbv zeta in L.
  destruct (index_files_loop env project (proj_path p) reindex files
              (mkIndexCounters 0 0 []) w) as [c w'] eqn:E.
  cbn [fst snd cnt_indexed cnt_skipped cnt_errors] in L.
  destruct L as (Hcur & Hproj & Herr & Hcount & _).
  exists (index_files_data files c), w'. split; [|split; [|split]].
  - unfold pm_index_files. run_all. fold project. rewrite Hp, Hl.
    fold files reindex. rewrite E. reflexivity.
  - unfold index_files_data. cbn [ifd_errors]. rewrite Herr. reflexivity.
  - cbn [index_files_data ifd_indexed ifd_skipped]. lia.
  - unfold pm_index_files. run_all. cbn [ifs_project ifs_paths ifs_reindex].
    assert (Hp' : getProject (db w') project = Some p).
    { unfold getProject in *. now rewrite Hproj. }
    rewrite Hp', Hl. fold files.
    rewrite index_files_loop_all_unchanged by exact Hcur.
    reflexivity.
Qed.

(** The batch over project [demo], with a readable [locked.ts]. *)
Lemma pm_index_files_converges_witness :
  let env := mkEnv (fun _ => true) (fun p => Ok ("content of " ++ p))
               (stat_size Demo.env) (findTextFiles Demo.env) (path_join Demo.env)
               (path_relative Demo.env) (path_extname Demo.env) (md5_hex Demo.env)
               (Ok tt) (model_run Demo.env) (fun _ _ => None) (now Demo.env) in
  exists data w',
    pm_index_files env (mkIndexFilesInput "demo" None None) Demo.world0
      = (Ok (Success data), w') /\
    ifd_indexed data + ifd_skipped data = 3 /\
    pm_index_files env (mkIndexFilesInput "demo" None None) w'
    = (Ok (Success (mkIndexFilesData 3 0 3 None)), w').
Proof.
  intros env.
  destruct (@pm_index_files_converges env Demo.world0
              (mkIndexFilesInput "demo" None None)
              (mkProject "demo" "Demo" "/demo") eq_refl eq_refl)
    as (data & w' & H & _ & Hc & H2).
  - cbn. repeat constructor; cbn; intuition discriminate.
  - intros f Hf. exists ("content of " ++ f), [Demo.f_one], 42%Z. auto.
  - exists data, w'. auto.
Defined.

End BatchConvergence.

(** ** findTextFiles: what the discovery returns *)

Module DiscoveryFacts.

Import Discovery.
Local Open Scope string_scope.

Lemma Dirent_tree_ind (P : Dirent -> Prop) :
  (forall name, P (RegularFile name)) ->
  (forall name, P (OtherEntry name)) ->
  (forall name, P (Directory name None)) ->
  (forall name entries, Forall P entries -> P (Directory name (Some entries))) ->
  forall entry, P entry.
Proof.
  intros Hf Ho Hn Hd. fix IH 1. intros [name|name [entries|]|name].
  - apply Hf.
  - apply Hd. induction entries as [|e es IHes]; constructor; [apply IH | exact IHes].
  - apply Hn.
  - apply Ho.
Qed.

Lemma has_false_iff (name : string) (names : list string) :
  existsb (String.eqb name) names = false <-> ~ In name names.
Proof.
  induction names as [|n ns IH]; cbn [existsb In].
  - split; [tauto | reflexivity].
  - rewrite orb_false_iff, IH. split.
    + intros [Hne Hns] [Heq|Hin]; [|tauto].
      subst n. now rewrite String.eqb_refl in Hne.
    + intros H. split; [|tauto].
      apply String.eqb_neq. intros ->. tauto.
Qed.

Lemma has_true_iff (name : string) (names : list string) :
  existsb (String.eqb name) names = true <-> In name names.
Proof.
  rewrite existsb_exists. split.
  - intros (n & Hin & Heq). apply String.eqb_eq in Heq. now subst.
  - intros Hin. exists name. split; [exact Hin | apply String.eqb_refl].
Qed.

Section Facts.

Variable env : Tools.Env.

Lemma located_incl (dir : string) (es es' : list Dirent) (p : string) :
  located env dir es p -> incl es es' -> located env dir es' p.
Proof.
  intros H Hincl. destruct H as [dir entries name Hin Hext
                                |dir entries name sub p Hin Hs Hd Hsub].
  - apply located_here; auto.
  - eapply located_below; eauto.
Qed.

Lemma scan_entry_located (entry : Dirent) :
  forall dir p, In p (scan_entry env dir entry) -> located env dir [entry] p.
Proof.
  induction entry as [name|name|name|name entries IH] using Dirent_tree_ind;
    intros dir p Hp; cbn [scan_entry] in Hp.
  - destruct (Tools.is_text_extension (Tools.path_extname env name)) eqn:E;
      [|destruct Hp].
    destruct Hp as [<-|[]]. apply located_here; [now left|].
    now apply has_true_iff.
  - destruct Hp.
  - destruct (descends name); destruct Hp.
  - destruct (descends name) eqn:E; [|destruct Hp].
    unfold descends in E. apply andb_true_iff in E. destruct E as [E1 E2].
    apply negb_true_iff in E1, E2. apply has_false_iff in E1.
    apply in_flat_map in Hp. destruct Hp as (e & He & Hp).
    rewrite Forall_forall in IH.
    eapply located_below; [now left | exact E1 | exact E2 |].
    eapply located_incl; [apply (IH e He), Hp|].
    intros x [<-|[]]. exact He.
Qed.

Lemma located_scan (dir : string) (entries : list Dirent) (p : string) :
  located env dir entries p -> In p (flat_map (scan_entry env dir) entries).
Proof.
  induction 1 as [dir entries name Hin Hext
                 |dir entries name sub p Hin Hs Hd Hsub IH].
  - apply in_flat_map. exists (RegularFile name). split; [exact Hin|].
    cbn [scan_entry]. apply has_true_iff in Hext.
    unfold Tools.is_text_extension. rewrite Hext. now left.
  - apply in_flat_map. exists (Directory name (Some sub)). split; [exact Hin|].
    cbn [scan_entry]. unfold descends. apply has_false_iff in Hs.
    rewrite Hs, Hd. exact IH.
Qed.

End Facts.

(** X27.  [findTextFiles] returns exactly the regular files with a text
    extension that are reached through readable directories whose names are
    neither in [SKIP_DIRS] nor start with a dot; a root that cannot be read
    gives no file, and unreadable directories, symbolic links and other
    special entries contribute nothing. *)
Theorem findTextFiles_finds_exactly (env : Tools.Env) (dirPath : string) :
  findTextFiles env dirPath None = []
  /\ forall entries p,
       In p (findTextFiles env dirPath (Some entries))
       <-> located env dirPath entries p.
Proof.
  split; [reflexivity|]. intros entries p.
  unfold findTextFiles, scan. split.
  - intros Hp. apply in_flat_map in Hp. destruct Hp as (e & He & Hp).
    eapply located_incl; [apply scan_entry_located, Hp|].
    intros x [<-|[]]. exact He.
  - apply located_scan.
Qed.

(** The sample tree: [src/deep/b.ts] is located, hence found. *)
Lemma findTextFiles_finds_exactly_witness :
  In "/demo/src/deep/b.ts" (findTextFiles Demo.env "/demo" (Some tree)).
Proof.
  destruct (findTextFiles_finds_exactly Demo.env "/demo") as [_ H].
  apply (proj2 (H tree "/demo/src/deep/b.ts")).
  apply (@located_below Demo.env "/demo" tree "src"
           [RegularFile "a.ts"; Directory "deep" (Some [RegularFile "b.ts"])]).
  - cbn. tauto.
  - cbn. intuition discriminate.
  - reflexivity.
  - apply (@located_below Demo.env "/demo/src" _ "deep" [RegularFile "b.ts"]).
    + cbn. tauto.
    + cbn. intuition discriminate.
    + reflexivity.
    + apply (@located_here Demo.env "/demo/src/deep" [RegularFile "b.ts"] "b.ts").
      * now left.
      * cbn. tauto.
Defined.

End DiscoveryFacts.

(** ** search_semantic: the failures that escape *)

Module SearchFailures.

Import Codec Database Tools ToolsFacts.
Local Open Scope string_scope.

(** X28.  [search_semantic] has no handler of its own: when it throws, the
    store is as it was, the project exists, and the exception is the failure
    of the model to load, the failure of the model on the query, the failure
    to read the stored embedding of one candidate row, or the dimension
    mismatch between the query embedding and the embedding of one candidate
    row. *)
Theorem search_semantic_throws (env : Env) (w w' : World)
    (input : SearchSemanticInput) (e : string) :
  let query := JS.prefix_of (Z.to_nat 8000) (ss_query input) in
  search_semantic env input w = (Throw e, w') ->
  db w' = db w
  /\ getProject (db w) (ss_project input) <> None
  /\ (model_load env = Throw e
      \/ model_run env query = Throw e
      \/ exists values f,
           model_run env query = Ok values /\
           In f (search_candidates (db w) (ss_project input) (ss_fileTypes input)) /\
           (deserialize_candidate (fi_path f) (fi_embedding f) = Throw e
            \/ exists c,
                 deserialize_candidate (fi_path f) (fi_embedding f) = Ok c /\
                 f32_length (new_Float32Array values)
                   <> f32_length (Embeddings.cand_embedding c) /\
                 Embeddings.cosineSimilarity (new_Float32Array values)
                   (Embeddings.cand_embedding c) = Throw e)).
Proof.
  intros query. unfold search_semantic. run_m. cbn [db]. fold query.
  set (candidates := search_candidates _ _ _).
  destruct (getProject (db w) (ss_project input)); [|discriminate].
  destruct (Nat.eqb (List.length candidates) 0); [discriminate|].
  destruct (model_load env) as [[]|e0].
  - destruct (model_run env query) as [values|e1] eqn:Er.
    + destruct (map_result _ candidates) as [cwe|e2] eqn:Ec.
      * destruct (Embeddings.findSimilar _ cwe _ _) as [similar|e3] eqn:Ef;
          [discriminate|].
        intros H. injection H as <- <-. cbn [db].
        split; [reflexivity|]. split; [discriminate|]. right. right.
        unfold Embeddings.findSimilar in Ef.
        destruct (map_result _ cwe) as [scored|e4] eqn:Es; cbn [rbind] in Ef;
          [discriminate|].
        injection Ef as ->.
        apply EmbeddingsFacts.map_result_Throw_inv in Es. destruct Es as (c & Hc & Hs).
        eapply EmbeddingsFacts.map_result_Ok_In in Ec; [|exact Hc].
        destruct Ec as (f & Hf & Hd).
        exists values, f. split; [reflexivity|]. split; [exact Hf|]. right.
        exists c. split; [exact Hd|].
        destruct (Embeddings.cosineSimilarity (new_Float32Array values)
                    (Embeddings.cand_embedding c)) as [s|e5] eqn:Ecos;
          cbn [rbind] in Hs; [discriminate|].
        injection Hs as ->. split; [|reflexivity].
        unfold Embeddings.cosineSimilarity in Ecos.
        destruct (Nat.eqb _ _) eqn:En; cbn [negb] in Ecos; [discriminate|].
        now apply Nat.eqb_neq.
      * intros H. injection H as <- <-. cbn [db].
        split; [reflexivity|]. split; [discriminate|]. right. right.
        apply EmbeddingsFacts.map_result_Throw_inv in Ec. destruct Ec as (f & Hf & Hd).
        exists values, f. split; [reflexivity|]. split; [exact Hf|]. now left.
    + intros H. injection H as <- <-. cbn [db].
      split; [reflexivity|]. split; [discriminate|]. right. now left.
  - intros H. injection H as <- <-.
    split; [reflexivity|]. split; [discriminate|]. now left.
Qed.

(** A model that answers in two dimensions, over rows stored in one. *)
Lemma search_semantic_throws_witness :
  let env := mkEnv (existsSync Demo.env) (readFile Demo.env)
               (stat_size Demo.env) (findTextFiles Demo.env) (path_join Demo.env)
               (path_relative Demo.env) (path_extname Demo.env) (md5_hex Demo.env)
               (Ok tt) (fun _ => Ok [Demo.f_one; Demo.f_one])
               (db_write_error Demo.env) (now Demo.env) in
  let input := mkSearchSemanticInput "retry" "demo" None None None in
  search_semantic env input Demo.world0
    = (Throw "Embedding dimensions don't match: 2 vs 1",
       mkWorld Demo.db0 [EmbedInvocation "retry"])
  /\ getProject Demo.db0 "demo" <> None.
Proof.
  intros env input.
  assert (H : search_semantic env input Demo.world0
              = (Throw "Embedding dimensions don't match: 2 vs 1",
                 mkWorld Demo.db0 [EmbedInvocation "retry"]))
    by (vm_compute; reflexivity).
  split; [exact H|].
  exact (proj1 (proj2 (@search_semantic_throws env Demo.world0 _ input _ H))).
Defined.

End SearchFailures.
